(** * ytdl: the terminal format-selection and progress engine

    A shallow embedding of the interactive part of ytdl
    (ui_format_display.c, ui_progress.c, terminal_ui.c, terminal_ui.h)
    and the properties of its list navigation, escape handling, speed
    estimation and progress rendering; with it the code around that
    part: format_parsing.c, the prompt of user_interaction.c, the URL
    check of video_info.c and the branch of main.c that ties them
    together.

    Conventions of the embedding:
    - a C [int] is a [Z] kept in range by [CInt.int_of] (two's-complement
      wrap-around on 32 bits), [long long] and [time_t] likewise on 64 bits;
    - a C [double] is the rational it denotes ([Q]), and every
      conversion to [double] and every operation on doubles rounds its
      exact result to the nearest binary64 number, ties to even
      ([Double.round]); the exponent range of binary64 is not modelled,
      the quantities of the program (byte counts, seconds, percentages)
      stay far inside it; a conversion from [double] to an integer type
      truncates, and yields the least value of the type when the
      truncated number does not fit, as the x86-64 conversion does;
    - a pointer that may be NULL is an [option];
    - curses output is a list of drawing commands; the clock and the
      terminal input are explicit arguments;
    - signals are not delivered while a function runs: [resize_pending]
      and [shutdown_pending] have the values the caller passes in;
    - what lies outside the sources is an argument: the JSON decoder
      [json_loads], the runner [execute_command_with_output], and the
      constants [FORMAT_CODE_LENGTH] and [MAX_URL_LENGTH] of ytdl.h. *)

From Stdlib Require Import ZArith QArith Qround Qpower String Ascii List Bool.
From Stdlib Require Import Lia Lqa.
From stdpp Require Import base list strings.
Import ListNotations.

Local Open Scope Z_scope.

(** ** Machine integers *)

Module CInt.

Definition wrap (bits z : Z) : Z :=
  (z + 2 ^ (bits - 1)) mod 2 ^ bits - 2 ^ (bits - 1).

Definition INT_MIN : Z := - 2 ^ 31.
Definition INT_MAX : Z := 2 ^ 31 - 1.
Definition LLONG_MIN : Z := - 2 ^ 63.
Definition LLONG_MAX : Z := 2 ^ 63 - 1.

Definition int_of (z : Z) : Z := wrap 32 z.
Definition llong_of (z : Z) : Z := wrap 64 z.

Definition int_add (a b : Z) : Z := int_of (a + b).
Definition int_sub (a b : Z) : Z := int_of (a - b).
Definition llong_sub (a b : Z) : Z := llong_of (a - b).
(** [time_t] is a signed 64-bit count of seconds. *)
Definition time_add (a b : Z) : Z := llong_of (a + b).

Definition in_int (z : Z) : Prop := INT_MIN <= z <= INT_MAX.
Definition in_llong (z : Z) : Prop := LLONG_MIN <= z <= LLONG_MAX.

(** The code of a character constant such as ['b']. *)
Definition chr (c : ascii) : Z := Z.of_N (N_of_ascii c).

(** [(int) d] for a double [d]: truncation toward zero. A value that
    does not fit the integer type after truncation is undefined in C;
    the conversion instruction of x86-64 then gives the least value of
    the type, and so does the embedding. *)
Definition Qtrunc (q : Q) : Z := Z.quot (Qnum q) (Zpos (Qden q)).

Definition double_to_int (q : Q) : Z :=
  let t := Qtrunc q in
  if (INT_MIN <=? t) && (t <=? INT_MAX) then t else INT_MIN.

Definition double_to_llong (q : Q) : Z :=
  let t := Qtrunc q in
  if (LLONG_MIN <=? t) && (t <=? LLONG_MAX) then t else LLONG_MIN.

(** [q1 > q2] on doubles. *)
Definition Qgtb (q1 q2 : Q) : bool := negb (Qle_bool q1 q2).

End CInt.
Import CInt.

(** ** Doubles *)

Module Double.

Definition pow2 (k : Z) : Q := (2 ^ k)%Q.

(** The integer nearest to [q], the even one of the two when [q] lies
    half way. *)
Definition rne (q : Q) : Z :=
  let f := Qfloor q in
  match (q - inject_Z f ?= 1 # 2)%Q with
  | Lt => f
  | Gt => f + 1
  | Eq => if Z.even f then f else f + 1
  end.

(** The binary exponent of a positive [q]: [2 ^ (mag q - 1) <= q < 2 ^ mag q]. *)
Definition mag (q : Q) : Z :=
  let k := Z.log2 (Qnum q) - Z.log2 (Zpos (Qden q)) in
  if Qle_bool (pow2 k) q then k + 1 else k.

(** A positive [q] rounded to 53 significant bits. *)
Definition round_pos (q : Q) : Q :=
  let s := 53 - mag q in
  Qred (inject_Z (rne (q * pow2 s)) * pow2 (- s))%Q.

(** The binary64 number nearest to [q]. *)
Definition round (q : Q) : Q :=
  match Qnum q with
  | 0 => 0%Q
  | Zpos _ => round_pos q
  | Zneg _ => (- round_pos (- q))%Q
  end.

(** [(double) z] for an integer [z], and the operations [a / b] and
    [a * b] on doubles. The program never divides by zero. *)
Definition of_Z (z : Z) : Q := round (inject_Z z).
Definition div (a b : Q) : Q := round (a / b).
Definition mul (a b : Q) : Q := round (a * b).

End Double.

(** ** The part of curses the program relies on *)

Module Curses.

(** Values of <ncurses.h>. *)
Definition ERR : Z := -1.
Definition KEY_DOWN : Z := 258.
Definition KEY_UP : Z := 259.
Definition KEY_HOME : Z := 262.
Definition KEY_NPAGE : Z := 338.
Definition KEY_PPAGE : Z := 339.
Definition KEY_ENTER : Z := 343.
Definition KEY_END : Z := 360.

(** Terminal input that is still to come: each key code with the
    number of milliseconds of silence that precede it, counted from
    the moment the previous read returned. *)
Record pending := Pending { gap : Z; code : Z }.
Definition input := list pending.

(** [wgetch] on a window whose delay is [delay] (negative: blocking,
    as set by [wtimeout (win, -1)] and as [newwin] creates a window).
    [None]: the call does not return, no input ever arrives. A read
    with a delay returns [ERR] when the delay expires first. *)
Definition wgetch (delay : Z) (inp : input) : option (Z * input) :=
  match inp with
  | [] => if delay <? 0 then None else Some (ERR, [])
  | Pending g c :: rest =>
      if (delay <? 0) || (g <=? delay) then Some (c, rest)
      else Some (ERR, Pending (g - delay) c :: rest)
  end.

(** Keys typed one after the other, each arriving at once. *)
Definition typed (codes : list Z) : input := map (Pending 0) codes.

End Curses.
Import Curses.

(** ** terminal_ui.h *)

Definition SPEED_SAMPLE_SIZE : Z := 10.
Definition UI_UPDATE_INTERVAL_MS : Z := 100.

(** An element of the JSON array, as the program reads it: whether it
    is an object ([json_is_object]), and the four members it looks up.
    A field is [None] when the key is missing or its value has another
    type ([json_is_string], [json_is_integer] fail); an element that is
    not an object has no member. *)
Record format := Element {
  is_object : bool;
  format_id : option string;
  resolution : option string;
  ext : option string;
  filesize : option Z
}.

(** A format object. *)
Definition Format (format_id resolution ext : option string)
    (filesize : option Z) : format :=
  Element true format_id resolution ext filesize.

(** The fields of [UIState] that selection and progress read, with the
    geometry and input delay of the windows they own. [screen_rows] is
    what [getmaxyx (stdscr, ...)] reports, [content_height] and
    [content_cols] are [getmaxy] and [getmaxx] of the content window,
    [content_delay] and [stdscr_delay] the input delays of the two
    windows. *)
Record UIState := {
  ncurses_available : bool;
  colors_supported : bool;
  term_height : Z;
  screen_rows : Z;
  content_height : Z;
  content_cols : Z;
  content_delay : Z;
  stdscr_delay : Z;
  resize_pending : bool;
  shutdown_pending : bool
}.

Record FormatListState := {
  visible_start : Z;
  visible_lines : Z;
  selected_index : Z;
  total_formats : Z;
  formats : option (list format)
}.

(** [FormatListState list_state = { 0 }] of main.c. *)
Definition list_state_zero : FormatListState :=
  {| visible_start := 0; visible_lines := 0; selected_index := 0;
     total_formats := 0; formats := None |}.

Definition set_selected_index (i : Z) (ls : FormatListState) : FormatListState :=
  {| visible_start := visible_start ls; visible_lines := visible_lines ls;
     selected_index := i; total_formats := total_formats ls;
     formats := formats ls |}.

Definition set_visible_start (v : Z) (ls : FormatListState) : FormatListState :=
  {| visible_start := v; visible_lines := visible_lines ls;
     selected_index := selected_index ls; total_formats := total_formats ls;
     formats := formats ls |}.

Definition set_visible_lines (n : Z) (ls : FormatListState) : FormatListState :=
  {| visible_start := visible_start ls; visible_lines := n;
     selected_index := selected_index ls; total_formats := total_formats ls;
     formats := formats ls |}.

Definition set_content_delay (d : Z) (st : UIState) : UIState :=
  {| ncurses_available := ncurses_available st;
     colors_supported := colors_supported st; term_height := term_height st;
     screen_rows := screen_rows st; content_height := content_height st;
     content_cols := content_cols st; content_delay := d;
     stdscr_delay := stdscr_delay st; resize_pending := resize_pending st;
     shutdown_pending := shutdown_pending st |}.

Definition set_stdscr_delay (d : Z) (st : UIState) : UIState :=
  {| ncurses_available := ncurses_available st;
     colors_supported := colors_supported st; term_height := term_height st;
     screen_rows := screen_rows st; content_height := content_height st;
     content_cols := content_cols st; content_delay := content_delay st;
     stdscr_delay := d; resize_pending := resize_pending st;
     shutdown_pending := shutdown_pending st |}.

(** ** terminal_ui.c: windows and resize *)

(** [create_windows]: the header takes 4 rows, the status bar 1, the
    content window the rest; a new window reads in blocking mode. Window
    creation is taken to succeed. *)
Definition create_windows (st : UIState) : UIState :=
  {| ncurses_available := ncurses_available st;
     colors_supported := colors_supported st;
     term_height := screen_rows st;
     screen_rows := screen_rows st;
     content_height := int_sub (screen_rows st) 5;
     content_cols := content_cols st;
     content_delay := -1;
     stdscr_delay := stdscr_delay st;
     resize_pending := resize_pending st;
     shutdown_pending := shutdown_pending st |}.

Definition clear_resize_pending (st : UIState) : UIState :=
  {| ncurses_available := ncurses_available st;
     colors_supported := colors_supported st; term_height := term_height st;
     screen_rows := screen_rows st; content_height := content_height st;
     content_cols := content_cols st; content_delay := content_delay st;
     stdscr_delay := stdscr_delay st; resize_pending := false;
     shutdown_pending := shutdown_pending st |}.

Definition ui_handle_resize (st : UIState) : UIState :=
  if negb (resize_pending st) then st
  else clear_resize_pending (create_windows st).

(** ** ui_format_display.c *)

(** [json_array_get]: NULL for a NULL array and for an index that is out
    of range; the [int] index is converted to [size_t], so a negative
    one is out of range. *)
Definition json_array_get (fmts : option (list format)) (i : Z) : option format :=
  match fmts with
  | None => None
  | Some fs => if i <? 0 then None else fs !! Z.to_nat i
  end.

(** [json_array_size], stored in an [int]. *)
Definition json_array_size (fs : list format) : Z :=
  int_of (Z.of_nat (length fs)).

(** The effect of [ui_display_formats] on the list state, with its
    return value ([state] and [list_state] are not NULL at any call).
    The rows it draws are those of
    [visible_start .. visible_start + visible_lines - 1] below
    [total_formats]. *)
Definition ui_display_formats (st : UIState) (fmts : option (list format))
    (ls : FormatListState) : Z * FormatListState :=
  match fmts with
  | None => (-1, ls)
  | Some fs =>
      if negb (ncurses_available st) then (-1, ls)
      else
        let ls1 :=
          match formats ls with
          | None =>
              {| visible_start := 0; visible_lines := visible_lines ls;
                 selected_index := 0; total_formats := json_array_size fs;
                 formats := Some fs |}
          | Some _ => ls
          end in
        let content_height := content_height st in
        (0, set_visible_lines (int_sub content_height 4) ls1)
  end.

(** The indices of the rows drawn by the loop of [ui_display_formats]. *)
Fixpoint visible_rows (ls : FormatListState) (i : Z) (fuel : nat) : list Z :=
  match fuel with
  | O => []
  | S k =>
      if (i <? visible_lines ls)
         && (int_add (visible_start ls) i <? total_formats ls)
      then int_add (visible_start ls) i :: visible_rows ls (int_add i 1) k
      else []
  end.

Definition drawn_rows (ls : FormatListState) : list Z :=
  visible_rows ls 0 (Z.to_nat (visible_lines ls)).

Definition update_format_display (st : UIState) (ls : FormatListState)
    : FormatListState :=
  let ls1 :=
    if selected_index ls <? visible_start ls then
      set_visible_start (selected_index ls) ls
    else if selected_index ls
            >=? int_add (visible_start ls) (visible_lines ls) then
      set_visible_start
        (int_add (int_sub (selected_index ls) (visible_lines ls)) 1) ls
    else ls in
  snd (ui_display_formats st (formats ls1) ls1).

(** [strstr (haystack, needle) != NULL]. *)
Definition strstr (haystack needle : string) : bool :=
  match String.index 0 needle haystack with
  | Some _ => true
  | None => false
  end.

(** The resolution string the ['a'] shortcut looks at: the field of the
    object when it is a string, ["N/A"] otherwise (also for a NULL
    object). *)
Definition resolution_or_na (f : option format) : string :=
  match f with
  | Some fmt =>
      match resolution fmt with
      | Some r => r
      | None => "N/A"
      end
  | None => "N/A"
  end.

Definition is_audio_resolution (r : string) : bool :=
  String.eqb r "N/A" || strstr r "audio".

(** The loop of the ['a'] case, from index [i]; it runs at most
    [total_formats] times. *)
Fixpoint first_audio_from (ls : FormatListState) (i : Z) (fuel : nat)
    : option Z :=
  match fuel with
  | O => None
  | S k =>
      if i <? total_formats ls then
        if is_audio_resolution (resolution_or_na (json_array_get (formats ls) i))
        then Some i
        else first_audio_from ls (int_add i 1) k
      else None
  end.

(** [handle_format_shortcut]: the return value (1 handled, 0 not) and
    the list state it leaves. *)
Definition handle_format_shortcut (ch : Z) (ls : FormatListState)
    : Z * FormatListState :=
  if (ch =? chr "b") || (ch =? chr "B") then
    (1, set_selected_index 0 ls)
  else if (ch =? chr "w") || (ch =? chr "W") then
    (1, set_selected_index (int_sub (total_formats ls) 1) ls)
  else if (ch =? chr "a") || (ch =? chr "A") then
    match first_audio_from ls 0 (Z.to_nat (total_formats ls)) with
    | Some i => (1, set_selected_index i ls)
    | None => (0, ls)
    end
  else if (ch >=? chr "1") && (ch <=? chr "9") then
    let index := int_sub ch (chr "1") in
    if index <? total_formats ls then (1, set_selected_index index ls)
    else (0, ls)
  else (0, ls).

(** The navigation actions of the selection loop. Arrow and page keys
    have the same body whether curses decodes them ([KEY_UP], ...) or
    they arrive as a raw escape sequence. *)
Definition arrow_up (st : UIState) (ls : FormatListState) : FormatListState :=
  if selected_index ls >? 0 then
    update_format_display st
      (set_selected_index (int_sub (selected_index ls) 1) ls)
  else ls.

Definition arrow_down (st : UIState) (ls : FormatListState) : FormatListState :=
  if selected_index ls <? int_sub (total_formats ls) 1 then
    update_format_display st
      (set_selected_index (int_add (selected_index ls) 1) ls)
  else ls.

Definition page_up (st : UIState) (ls : FormatListState) : FormatListState :=
  let s := int_sub (selected_index ls) (visible_lines ls) in
  let s := if s <? 0 then 0 else s in
  update_format_display st (set_selected_index s ls).

Definition page_down (st : UIState) (ls : FormatListState) : FormatListState :=
  let s := int_add (selected_index ls) (visible_lines ls) in
  let s := if s >=? total_formats ls then int_sub (total_formats ls) 1 else s in
  update_format_display st (set_selected_index s ls).

Definition key_home (st : UIState) (ls : FormatListState) : FormatListState :=
  update_format_display st (set_selected_index 0 ls).

Definition key_end (st : UIState) (ls : FormatListState) : FormatListState :=
  update_format_display st
    (set_selected_index (int_sub (total_formats ls) 1) ls).

(** The Enter case: a copy of the [format_id] string of the selected
    entry, NULL when there is no such string. Allocation is taken to
    succeed. *)
Definition confirm_selection (ls : FormatListState) : option string :=
  match json_array_get (formats ls) (selected_index ls) with
  | Some fmt => format_id fmt
  | None => None
  end.

(** One pass through the body of the [while] loop. *)
Inductive step_result :=
| Continue (st : UIState) (ls : FormatListState) (rest : input)
| Stop (selected_format : option string) (st : UIState)
       (ls : FormatListState) (rest : input)
| Blocked (st : UIState) (ls : FormatListState).

(** What follows [ESC '['] once the third code is read. *)
Definition escape_bracket (st : UIState) (ls : FormatListState)
    (third_ch : Z) (rest : input) : option (FormatListState * input) :=
  if third_ch =? chr "A" then Some (arrow_up st ls, rest)
  else if third_ch =? chr "B" then Some (arrow_down st ls, rest)
  else if third_ch =? chr "C" then Some (ls, rest)
  else if third_ch =? chr "D" then Some (ls, rest)
  else if third_ch =? chr "5" then
    match wgetch (content_delay st) rest with
    | None => None
    | Some (c, rest') =>
        Some (if c =? chr "~" then page_up st ls else ls, rest')
    end
  else if third_ch =? chr "6" then
    match wgetch (content_delay st) rest with
    | None => None
    | Some (c, rest') =>
        Some (if c =? chr "~" then page_down st ls else ls, rest')
    end
  else Some (ls, rest).

(** The [case 27] block: the content window waits 100 ms for what
    follows the escape byte and is set back to blocking reads at the
    end. *)
Definition escape_key (st : UIState) (ls : FormatListState) (rest : input)
    : step_result :=
  let st1 := set_content_delay 100 st in
  match wgetch (content_delay st1) rest with
  | None => Blocked st1 ls
  | Some (next_ch, rest1) =>
      if next_ch =? ERR then
        Stop None (set_content_delay (-1) st1) ls rest1
      else if next_ch =? chr "[" then
        match wgetch (content_delay st1) rest1 with
        | None => Blocked st1 ls
        | Some (third_ch, rest2) =>
            match escape_bracket st1 ls third_ch rest2 with
            | None => Blocked st1 ls
            | Some (ls', rest3) =>
                Continue (set_content_delay (-1) st1) ls' rest3
            end
        end
      else Continue (set_content_delay (-1) st1) ls rest1
  end.

Definition select_step (st0 : UIState) (ls : FormatListState) (inp : input)
    : step_result :=
  let st := ui_handle_resize st0 in
  match wgetch (content_delay st) inp with
  | None => Blocked st ls
  | Some (ch, rest) =>
      if ch =? KEY_UP then Continue st (arrow_up st ls) rest
      else if ch =? KEY_DOWN then Continue st (arrow_down st ls) rest
      else if ch =? KEY_PPAGE then Continue st (page_up st ls) rest
      else if ch =? KEY_NPAGE then Continue st (page_down st ls) rest
      else if ch =? KEY_HOME then Continue st (key_home st ls) rest
      else if ch =? KEY_END then Continue st (key_end st ls) rest
      else if (ch =? 10) || (ch =? 13) || (ch =? KEY_ENTER) then
        Stop (confirm_selection ls) st ls rest
      else if ch =? 27 then escape_key st ls rest
      else if (ch =? chr "q") || (ch =? chr "Q") then Stop None st ls rest
      else
        let (handled, ls') := handle_format_shortcut ch ls in
        if handled =? 0 then Continue st ls rest
        else Continue st (update_format_display st ls') rest
  end.

(** How a selection session ends. *)
Inductive outcome :=
| Returned (selected_format : option string)
| Waiting
| OutOfFuel.

Record session := {
  sel_outcome : outcome;
  sel_ui : UIState;
  sel_list : FormatListState;
  (** the list state after each pass of the loop, oldest first *)
  sel_history : list FormatListState
}.

(** The epilogue: [stdscr] goes back to its 100 ms polling delay. *)
Definition leave_selection (st : UIState) : UIState :=
  set_stdscr_delay UI_UPDATE_INTERVAL_MS st.

Fixpoint select_loop (fuel : nat) (st : UIState) (ls : FormatListState)
    (inp : input) : session :=
  match fuel with
  | O => {| sel_outcome := OutOfFuel; sel_ui := st; sel_list := ls;
            sel_history := [] |}
  | S k =>
      if shutdown_pending st then
        {| sel_outcome := Returned None; sel_ui := leave_selection st;
           sel_list := ls; sel_history := [] |}
      else
        match select_step st ls inp with
        | Blocked st' ls' =>
            {| sel_outcome := Waiting; sel_ui := st'; sel_list := ls';
               sel_history := [] |}
        | Stop r st' ls' _ =>
            {| sel_outcome := Returned r; sel_ui := leave_selection st';
               sel_list := ls'; sel_history := [ls'] |}
        | Continue st' ls' rest =>
            let s := select_loop k st' ls' rest in
            {| sel_outcome := sel_outcome s; sel_ui := sel_ui s;
               sel_list := sel_list s;
               sel_history := ls' :: sel_history s |}
        end
  end.

(** [ui_select_format_interactive]. The two pointer arguments are the
    addresses of locals of main.c and are not NULL; the guard at the
    entry is left with [ncurses_available]. Every pass of the loop
    consumes at least one pending code, so [S (length inp)] passes are
    enough. *)
Definition ui_select_format_interactive (st : UIState) (ls : FormatListState)
    (inp : input) : session :=
  if negb (ncurses_available st) then
    {| sel_outcome := Returned None; sel_ui := st; sel_list := ls;
       sel_history := [] |}
  else
    select_loop (S (length inp)) (set_stdscr_delay (-1) st) ls inp.

(** ** ui_progress.c *)

Record sample := Sample { timestamp : Z; bytes : Z }.

Record DownloadProgress := {
  downloaded_bytes : Z;
  total_bytes : Z;
  download_speed : Q;
  start_time : Z;
  estimated_completion : Z;
  current_stage : string;
  samples : list sample;
  sample_index : Z;
  last_update : Z
}.

(** [DownloadProgress progress = { 0 }] of main.c. *)
Definition progress_zero : DownloadProgress :=
  {| downloaded_bytes := 0; total_bytes := 0; download_speed := 0%Q;
     start_time := 0; estimated_completion := 0; current_stage := EmptyString;
     samples := replicate (Z.to_nat SPEED_SAMPLE_SIZE) (Sample 0 0);
     sample_index := 0; last_update := 0 |}.

(** [progress->samples[i]]; the program only uses indices in
    [0 .. SPEED_SAMPLE_SIZE - 1]. *)
Definition sample_at (p : DownloadProgress) (i : Z) : sample :=
  default (Sample 0 0) (samples p !! Z.to_nat i).

(** [difftime (t1, t0)]: the difference in seconds as a double. *)
Definition difftime (t1 t0 : Z) : Q := Double.of_Z (t1 - t0).

Definition ui_calculate_speed (p : DownloadProgress) : Q :=
  if sample_index p =? 0 then 0%Q
  else
    let oldest_idx := 0 in
    let newest_idx :=
      Z.rem (int_add (int_sub (sample_index p) 1) SPEED_SAMPLE_SIZE)
            SPEED_SAMPLE_SIZE in
    if (timestamp (sample_at p oldest_idx) =? 0)
       || (timestamp (sample_at p newest_idx) =? 0) then 0%Q
    else
      let time_diff :=
        difftime (timestamp (sample_at p newest_idx))
                 (timestamp (sample_at p oldest_idx)) in
      if Qle_bool time_diff 0 then 0%Q
      else
        let byte_diff :=
          llong_sub (bytes (sample_at p newest_idx))
                    (bytes (sample_at p oldest_idx)) in
        if byte_diff <? 0 then 0%Q
        else Double.div (Double.of_Z byte_diff) time_diff.

(** The ring-buffer step of [ui_update_progress]. *)
Definition record_sample (now downloaded : Z) (p : DownloadProgress)
    : DownloadProgress :=
  if negb (now =? timestamp (sample_at p (sample_index p))) then
    let idx := Z.rem (int_add (sample_index p) 1) SPEED_SAMPLE_SIZE in
    {| downloaded_bytes := downloaded_bytes p; total_bytes := total_bytes p;
       download_speed := download_speed p; start_time := start_time p;
       estimated_completion := estimated_completion p;
       current_stage := current_stage p;
       samples := <[Z.to_nat idx := Sample now downloaded]> (samples p);
       sample_index := idx; last_update := last_update p |}
  else p.

(** [ui_update_progress], with [now] the value [time (NULL)] returns. *)
Definition ui_update_progress (now : Z) (p : DownloadProgress)
    (downloaded total : Z) : DownloadProgress :=
  let p1 :=
    {| downloaded_bytes := downloaded; total_bytes := total;
       download_speed := download_speed p; start_time := start_time p;
       estimated_completion := estimated_completion p;
       current_stage := current_stage p; samples := samples p;
       sample_index := sample_index p; last_update := last_update p |} in
  let p2 := record_sample now downloaded p1 in
  let speed := ui_calculate_speed p2 in
  let eta :=
    if Qgtb speed 0 && (total >? downloaded) then
      let remaining := llong_sub total downloaded in
      let eta_seconds :=
        double_to_int (Double.div (Double.of_Z remaining) speed) in
      time_add now eta_seconds
    else estimated_completion p2 in
  {| downloaded_bytes := downloaded_bytes p2; total_bytes := total_bytes p2;
     download_speed := speed; start_time := start_time p2;
     estimated_completion := eta; current_stage := current_stage p2;
     samples := samples p2; sample_index := sample_index p2;
     last_update := now |}.

(** What a rendering routine puts in the content window, row by row:
    each command stands for one call of [mvwprintw] (or, for the bar,
    of [draw_progress_bar]) with the position it is given. Curses shows
    the text of a call whose position lies inside the window. *)
Inductive draw :=
| DrawTitle (title : string)
| DrawStage (y : Z) (stage : string)
| DrawDownloaded (y : Z) (downloaded total : Z)
| DrawBar (y x width filled : Z) (percent : Q)
| DrawSpeed (y : Z) (bytes_per_second : Z)
| DrawEta (y : Z) (seconds : Z)
| DrawElapsed (y : Z) (seconds : Z)
| DrawSpinner (y x : Z) (message : string) (spinner : option ascii).

(** [draw_progress_bar]: [filled] cells out of [width], then the
    percentage as a number. *)
Definition draw_progress_bar (y x width : Z) (percent : Q) : draw :=
  let filled :=
    double_to_int (Double.mul (Double.div percent 100) (Double.of_Z width)) in
  let filled := if filled >? width then width else filled in
  let filled := if filled <? 0 then 0 else filled in
  DrawBar y x width filled percent.

(** [ui_show_progress], with [now] the clock during the rendering.
    [None]: nothing is drawn. *)
Definition ui_show_progress (st : UIState) (now : Z) (p : DownloadProgress)
    : option (list draw) :=
  if negb (ncurses_available st) then None
  else
    let y := 2 in
    let content_width := int_sub (content_cols st) 4 in
    let '(stage, y) :=
      if (0 <? Z.of_nat (String.length (current_stage p))) then
        ([DrawStage y (current_stage p)], int_add y 2)
      else ([], y) in
    let downloaded := [DrawDownloaded y (downloaded_bytes p) (total_bytes p)] in
    let y := int_add y 1 in
    let percent :=
      if total_bytes p >? 0 then
        Double.mul (Double.div (Double.of_Z (downloaded_bytes p))
                               (Double.of_Z (total_bytes p))) 100
      else 0%Q in
    let y := int_add y 1 in
    let bar := [draw_progress_bar y 2 (int_sub content_width 10) percent] in
    let y := int_add y 1 in
    let '(speed, y) :=
      if Qgtb (download_speed p) 0 then
        let y := int_add y 1 in
        let line := [DrawSpeed y (double_to_llong (download_speed p))] in
        let y := int_add y 1 in
        if estimated_completion p >? 0 then
          let eta_seconds :=
            double_to_int (difftime (estimated_completion p) now) in
          if eta_seconds >? 0 then
            (line ++ [DrawEta y eta_seconds], int_add y 1)
          else (line, y)
        else (line, y)
      else ([], y) in
    let elapsed :=
      if start_time p >? 0 then
        [DrawElapsed (int_add y 1) (double_to_int (difftime now (start_time p)))]
      else [] in
    Some (DrawTitle " Download Progress "
            :: stage ++ downloaded ++ bar ++ speed ++ elapsed).

(** [get_spinner_char]: [frame % 4] indexes the four-character array;
    [None] stands for a read outside the array. *)
Definition spinner : list ascii := ["|"; "/"; "-"; "\"]%char.

Definition get_spinner_char (frame : Z) : option ascii :=
  let i := Z.rem frame 4 in
  if i <? 0 then None else spinner !! Z.to_nat i.

(** [ui_show_indeterminate_progress]. The column is computed in
    [size_t] arithmetic (64 bits, unsigned) because of [strlen]. *)
Definition ui_show_indeterminate_progress (st : UIState) (message : string)
    (frame : Z) : option (list draw) :=
  if negb (ncurses_available st) then None
  else
    let y := Z.quot (content_height st) 2 in
    let x :=
      int_of (((content_cols st - Z.of_nat (String.length message) - 4)
                 mod 2 ^ 64) / 2) in
    Some [DrawTitle " Processing ";
          DrawSpinner y x message (get_spinner_char frame)].

(** The two rendering modes of the content window during a download. *)
Definition is_bar (d : draw) : bool :=
  match d with DrawBar _ _ _ _ _ => true | _ => false end.

Definition is_spinner (d : draw) : bool :=
  match d with DrawSpinner _ _ _ _ => true | _ => false end.

Definition numeric_mode (out : option (list draw)) : bool :=
  match out with Some ds => existsb is_bar ds | None => false end.

Definition indeterminate_mode (out : option (list draw)) : bool :=
  match out with
  | Some ds => existsb is_spinner ds && negb (existsb is_bar ds)
  | None => false
  end.

(** * The code around the selection and progress routines *)

(** ** The C library functions the program relies on *)

Module CLib.

(** [isspace] and [isdigit] in the C locale. *)
Definition isspace (c : ascii) : bool :=
  (chr c =? 32) || ((9 <=? chr c) && (chr c <=? 13)).

Definition isdigit (c : ascii) : bool :=
  (48 <=? chr c) && (chr c <=? 57).

Fixpoint skip_space (s : string) : string :=
  match s with
  | String c r => if isspace c then skip_space r else s
  | EmptyString => s
  end.

(** The value of the leading decimal digits of [s], added to [acc]
    shifted. *)
Fixpoint digits_value (s : string) (acc : Z) : Z :=
  match s with
  | String c r =>
      if isdigit c then digits_value r (acc * 10 + (chr c - 48)) else acc
  | EmptyString => acc
  end.

(** [strtol (s, NULL, 10)]: white space, an optional sign, digits; the
    value is clamped to the range of [long]. *)
Definition strtol10 (s : string) : Z :=
  let s := skip_space s in
  let v :=
    match s with
    | String c r =>
        if Ascii.eqb c "-" then - digits_value r 0
        else if Ascii.eqb c "+" then digits_value r 0
        else digits_value s 0
    | EmptyString => 0
    end in
  Z.max LLONG_MIN (Z.min LLONG_MAX v).

(** [atoi (s)] is [(int) strtol (s, NULL, 10)]. *)
Definition atoi (s : string) : Z := int_of (strtol10 s).

(** [strchr (s, c)] for a character [c] other than NUL: the suffix of
    [s] that starts at the first [c]. *)
Fixpoint strchr (s : string) (c : ascii) : option string :=
  match s with
  | String a r => if Ascii.eqb a c then Some s else strchr r c
  | EmptyString => None
  end.

(** What [printf ("%d", n)] writes. *)
Definition digit_char (d : Z) : ascii := ascii_of_N (Z.to_N (48 + d)).

Fixpoint decimal_digits (fuel : nat) (n : Z) (acc : string) : string :=
  match fuel with
  | O => acc
  | S k =>
      let acc' := String (digit_char (n mod 10)) acc in
      if n <? 10 then acc' else decimal_digits k (n / 10) acc'
  end.

Definition decimal_nat (n : Z) : string :=
  decimal_digits (S (Z.to_nat (Z.log2 n))) n EmptyString.

Definition decimal (n : Z) : string :=
  if n <? 0 then String "-" (decimal_nat (- n)) else decimal_nat n.

End CLib.
Import CLib.

(** ** terminal_ui.c: formatting helpers *)

(** [ui_format_time]: the text written to the buffer. The callers pass
    buffers of 32 bytes. *)
Definition ui_format_time (seconds : Z) : string :=
  if seconds <? 60 then decimal seconds ++ "s"
  else if seconds <? 3600 then
    decimal (Z.quot seconds 60) ++ "m " ++ decimal (Z.rem seconds 60) ++ "s"
  else
    decimal (Z.quot seconds 3600) ++ "h "
      ++ decimal (Z.quot (Z.rem seconds 3600) 60) ++ "m".

Definition units : list string := ["B"; "KB"; "MB"; "GB"; "TB"].

(** The loop of [ui_format_bytes]; its body runs at most four times. *)
Fixpoint scale_size (fuel : nat) (size : Q) (unit_index : Z) : Q * Z :=
  match fuel with
  | O => (size, unit_index)
  | S k =>
      if Qle_bool 1024 size && (unit_index <? 4) then
        scale_size k (Double.div size 1024) (int_add unit_index 1)
      else (size, unit_index)
  end.

(** What [ui_format_bytes] hands to [snprintf]: the byte count itself
    for the unit B, otherwise the scaled size (printed with one
    decimal) and the index of its unit. *)
Inductive bytes_text :=
| PlainBytes (bytes : Z)
| ScaledBytes (size : Q) (unit_index : Z).

Definition ui_format_bytes (bytes : Z) : bytes_text :=
  let '(size, unit_index) := scale_size 5 (Double.of_Z bytes) 0 in
  if unit_index =? 0 then PlainBytes bytes else ScaledBytes size unit_index.

Definition unit_name (t : bytes_text) : option string :=
  match t with
  | PlainBytes _ => units !! 0%nat
  | ScaledBytes _ i => if i <? 0 then None else units !! Z.to_nat i
  end.

(** ** ui_format_display.c: the table *)

(** [get_format_info] on an array element; [None] is the return value
    -1 (NULL, or no object), otherwise the four outputs with their
    defaults. *)
Definition get_format_info (f : option format)
    : option (string * string * string * Z) :=
  match f with
  | None => None
  | Some fmt =>
      if negb (is_object fmt) then None
      else
        Some (default "N/A" (format_id fmt), default "N/A" (resolution fmt),
              default "N/A" (ext fmt), default 0 (filesize fmt))
  end.

Definition audio_label (ext : option string) : string :=
  match ext with
  | Some e =>
      if String.eqb e "m4a" || String.eqb e "webm" || String.eqb e "opus"
      then "Audio Only" else EmptyString
  | None => EmptyString
  end.

Definition height_label (height : Z) : string :=
  if height >=? 2160 then "4K UHD"
  else if height >=? 1440 then "2K QHD"
  else if height >=? 1080 then "Full HD"
  else if height >=? 720 then "HD"
  else if height >=? 480 then "SD"
  else EmptyString.

Definition get_quality_label (resolution ext : option string) : string :=
  match resolution with
  | None => audio_label ext
  | Some r =>
      if String.eqb r "N/A" then audio_label ext
      else
        match strchr r "x" with
        | Some (String _ after_x) => height_label (atoi after_x)
        | _ => EmptyString
        end
  end.

(** The colour pairs of terminal_ui.h that a table row is printed in. *)
Inductive UIColorPair :=
| COLOR_PAIR_SUCCESS
| COLOR_PAIR_WARNING
| COLOR_PAIR_SELECTED.

(** The colour [draw_format_entry] prints the quality label in when the
    row is not highlighted. *)
Definition quality_color (quality : string) : option UIColorPair :=
  if 0 <? Z.of_nat (String.length quality) then
    if strstr quality "4K" || strstr quality "Full HD" then
      Some COLOR_PAIR_SUCCESS
    else if strstr quality "Audio" then Some COLOR_PAIR_WARNING
    else None
  else None.

(** One line of the table as [draw_format_entry] prints it: the entry
    number is the index plus one, the size is absent ("N/A") unless the
    file size is positive. [row_highlight]: the line is printed in the
    selection colour, bold; [row_quality_color]: the colour of the
    quality label on a line that is not. *)
Record format_row := {
  row_y : Z;
  row_number : Z;
  row_format_id : string;
  row_resolution : string;
  row_ext : string;
  row_size : option bytes_text;
  row_quality : string;
  row_highlight : bool;
  row_quality_color : option UIColorPair
}.

Definition draw_format_entry (y index : Z) (f : option format)
    (selected colors_supported : bool) : option format_row :=
  match get_format_info f with
  | None => None
  | Some (format_id, resolution, ext, filesize) =>
      let quality := get_quality_label (Some resolution) (Some ext) in
      Some {| row_y := y;
              row_number := int_add index 1;
              row_format_id := format_id;
              row_resolution := resolution;
              row_ext := ext;
              row_size :=
                if filesize >? 0 then Some (ui_format_bytes filesize)
                else None;
              row_quality := quality;
              row_highlight := selected && colors_supported;
              row_quality_color :=
                if negb selected && colors_supported then
                  quality_color quality
                else None |}
  end.

(** The loop of [ui_display_formats] that draws the visible entries,
    from the counter value [i]. *)
Fixpoint draw_visible_formats (colors_supported : bool)
    (fmts : option (list format))
    (ls : FormatListState) (i : Z) (fuel : nat) : list format_row :=
  match fuel with
  | O => []
  | S k =>
      if (i <? visible_lines ls)
         && (int_add (visible_start ls) i <? total_formats ls)
      then
        let format_index := int_add (visible_start ls) i in
        let selected := format_index =? selected_index ls in
        match draw_format_entry (int_add 4 i) format_index
                (json_array_get fmts format_index) selected
                colors_supported with
        | Some row =>
            row :: draw_visible_formats colors_supported fmts ls (int_add i 1) k
        | None => draw_visible_formats colors_supported fmts ls (int_add i 1) k
        end
      else []
  end.

(** What [ui_display_formats] puts in the content window: the count in
    the title, the rows, and the two scroll marks. *)
Record format_screen := {
  title_total : Z;
  rows : list format_row;
  scroll_up : bool;
  scroll_down : bool
}.

Definition ui_display_formats_screen (st : UIState)
    (fmts : option (list format)) (ls : FormatListState)
    : option format_screen :=
  let (rc, ls') := ui_display_formats st fmts ls in
  if rc =? 0 then
    Some {| title_total := total_formats ls';
            rows := draw_visible_formats (colors_supported st) fmts ls' 0
                      (Z.to_nat (visible_lines ls'));
            scroll_up := visible_start ls' >? 0;
            scroll_down :=
              int_add (visible_start ls') (visible_lines ls')
              <? total_formats ls' |}
  else None.

(** The test of the ['a'] shortcut on the entry at index [k]. *)
Definition audio_at (ls : FormatListState) (k : Z) : bool :=
  is_audio_resolution (resolution_or_na (json_array_get (formats ls) k)).

(** ** format_parsing.c *)

(** A decoded JSON value, as [json_loads] builds it. The members of an
    object have distinct keys. *)
#[warnings="-register-all"]
Inductive json :=
| JNull
| JTrue
| JFalse
| JInteger (v : Z)
| JReal (v : Q)
| JString (s : string)
| JArray (items : list json)
| JObject (members : list (string * json)).

Fixpoint member (key : string) (members : list (string * json))
    : option json :=
  match members with
  | [] => None
  | (k, v) :: rest => if String.eqb k key then Some v else member key rest
  end.

(** [json_object_get]: NULL unless the value is an object that has the
    key. *)
Definition json_object_get (j : option json) (key : string) : option json :=
  match j with
  | Some (JObject members) => member key members
  | _ => None
  end.

Definition json_is_object (j : option json) : bool :=
  match j with Some (JObject _) => true | _ => false end.

Definition safe_json_string_value (obj : option json) (key : string)
    : option string :=
  if negb (json_is_object obj) then None
  else
    match json_object_get obj key with
    | Some (JString s) => Some s
    | _ => None
    end.

Definition INT64_MAX : Z := 2 ^ 63 - 1.

(** [safe_json_integer_value]: the return value and what [*result]
    holds afterwards. *)
Definition safe_json_integer_value (obj : option json) (key : string)
    (result : Z) : Z * Z :=
  if negb (json_is_object obj) then (-1, result)
  else
    match json_object_get obj key with
    | Some (JInteger v) =>
        if (v <? 0) || (v >? Z.quot INT64_MAX 2) then (-1, v) else (0, v)
    | _ => (-1, result)
    end.

Definition MAX_JSON_LENGTH : Z := 1024 * 1024.

(** [parse_formats], with the decoder [json_loads] of the jansson
    library as an argument ([None]: the text does not parse). The value
    returned is always an array; its items stand for it. *)
Definition parse_formats (json_loads : string -> option json)
    (json_str : option string) : option (list json) :=
  match json_str with
  | None => None
  | Some s =>
      let json_len := Z.of_nat (String.length s) in
      if json_len =? 0 then None
      else if json_len >? MAX_JSON_LENGTH then None
      else
        match json_loads s with
        | None => None
        | Some root =>
            if negb (json_is_object (Some root)) then None
            else
              match json_object_get (Some root) "formats" with
              | Some (JArray items) =>
                  if Z.of_nat (length items) =? 0 then None else Some items
              | _ => None
              end
        end
  end.

(** One line of the plain-text table of [display_formats]: the three
    texts, and the file size when it is valid. *)
Record text_line := {
  line_format_id : string;
  line_resolution : string;
  line_ext : string;
  line_filesize : option Z
}.

Definition display_format_line (f : json) : option text_line :=
  if negb (json_is_object (Some f)) then None
  else
    let '(filesize_valid, filesize) :=
      safe_json_integer_value (Some f) "filesize" 0 in
    Some {| line_format_id :=
              default "N/A" (safe_json_string_value (Some f) "format_id");
            line_resolution :=
              default "N/A" (safe_json_string_value (Some f) "resolution");
            line_ext := default "N/A" (safe_json_string_value (Some f) "ext");
            line_filesize :=
              if filesize_valid =? 0 then Some filesize else None |}.

(** [display_formats]: [None] when the argument is not an array. *)
Definition display_formats (formats : option json) : option (list text_line) :=
  match formats with
  | Some (JArray items) => Some (omap display_format_line items)
  | _ => None
  end.

(** The array element as the interactive table reads it, field by
    field, with [json_object_get] and the type tests. An element that
    is not an object has no member, so every field is [None]; the table
    itself is drawn for objects only. *)
Definition format_of_json (j : json) : format :=
  {| is_object := json_is_object (Some j);
     format_id :=
       match json_object_get (Some j) "format_id" with
       | Some (JString s) => Some s | _ => None end;
     resolution :=
       match json_object_get (Some j) "resolution" with
       | Some (JString s) => Some s | _ => None end;
     ext :=
       match json_object_get (Some j) "ext" with
       | Some (JString s) => Some s | _ => None end;
     filesize :=
       match json_object_get (Some j) "filesize" with
       | Some (JInteger v) => Some v | _ => None end |}.

(** ** user_interaction.c *)

(** [isalnum] in the C locale. *)
Definition isalnum (c : ascii) : bool :=
  isdigit c
  || ((65 <=? chr c) && (chr c <=? 90))
  || ((97 <=? chr c) && (chr c <=? 122)).

(** The second loop of [trim_whitespace]: [e] is [end - start], the
    offset of the last character that is kept. *)
Fixpoint trim_end (fuel : nat) (start : string) (e : Z) : Z :=
  match fuel with
  | O => e
  | S k =>
      if (e >? 0)
         && match String.get (Z.to_nat e) start with
            | Some c => isspace c
            | None => false
            end
      then trim_end k start (e - 1)
      else e
  end.

(** [trim_whitespace] on a buffer (not NULL): the string it returns,
    which starts after the leading white space and ends where the NUL
    is written. *)
Definition trim_whitespace (str : string) : string :=
  let start := skip_space str in
  let e := trim_end (String.length start) start
             (Z.of_nat (String.length start) - 1) in
  substring 0 (Z.to_nat (e + 1)) start.

(** The loop of [validate_format_code] over the characters. *)
Fixpoint format_code_loop (input : string) : Z :=
  match input with
  | EmptyString => 0
  | String c rest =>
      if negb (isalnum c) && negb (Ascii.eqb c "-")
         && negb (Ascii.eqb c "_") && negb (Ascii.eqb c ".")
      then -1
      else format_code_loop rest
  end.

(** [validate_format_code]. The constant [FORMAT_CODE_LENGTH] comes from
    ytdl.h; it is a parameter here. *)
Definition validate_format_code (FORMAT_CODE_LENGTH : Z)
    (input : option string) : Z :=
  match input with
  | None => -1
  | Some s =>
      let len := Z.of_nat (String.length s) in
      if len =? 0 then 0
      else if len >=? FORMAT_CODE_LENGTH then -1
      else format_code_loop s
  end.

(** [strcspn (s, "\n")]. *)
Fixpoint strcspn_newline (s : string) : nat :=
  match s with
  | String c rest => if Ascii.eqb c "010" then 0%nat else S (strcspn_newline rest)
  | EmptyString => 0%nat
  end.

(** [prompt_for_format] from the return of [fgets] on: [line] is what
    [fgets] left in the buffer ([None] when it returned NULL),
    [at_eof] the value of [feof (stdin)] afterwards. Allocation is
    taken to succeed; [snprintf] copies at most
    [FORMAT_CODE_LENGTH - 1] characters. *)
Definition prompt_for_format (FORMAT_CODE_LENGTH : Z) (line : option string)
    (at_eof : bool) : option string :=
  match line with
  | None => None
  | Some input_buffer =>
      let input_len := String.length input_buffer in
      if (Z.of_nat input_len >? 0)
         && match String.get (input_len - 1) input_buffer with
            | Some c => negb (Ascii.eqb c "010")
            | None => false
            end
         && negb at_eof
      then None
      else
        let cut := substring 0 (strcspn_newline input_buffer) input_buffer in
        let trimmed_input := trim_whitespace cut in
        if negb (validate_format_code FORMAT_CODE_LENGTH (Some trimmed_input)
                 =? 0)
        then None
        else Some (substring 0 (Z.to_nat (FORMAT_CODE_LENGTH - 1))
                     trimmed_input)
  end.

(** ** video_info.c *)

(** [strncmp (a, b, n) == 0]. *)
Fixpoint strncmp_eq (a b : string) (n : nat) : bool :=
  match n with
  | O => true
  | S k =>
      match a, b with
      | EmptyString, EmptyString => true
      | String x a', String y b' => Ascii.eqb x y && strncmp_eq a' b' k
      | _, _ => false
      end
  end.

(** The loop of [validate_url] over the characters. *)
Fixpoint url_loop (url : string) : Z :=
  match url with
  | EmptyString => 0
  | String c rest =>
      if negb (isalnum c) && negb (Ascii.eqb c "/") && negb (Ascii.eqb c ":")
         && negb (Ascii.eqb c ".") && negb (Ascii.eqb c "-")
         && negb (Ascii.eqb c "_") && negb (Ascii.eqb c "?")
         && negb (Ascii.eqb c "=") && negb (Ascii.eqb c "&")
         && negb (Ascii.eqb c "%") && negb (Ascii.eqb c "+")
         && negb (Ascii.eqb c "#")
      then -1
      else url_loop rest
  end.

(** [validate_url]. The constant [MAX_URL_LENGTH] comes from ytdl.h; it
    is a parameter here. *)
Definition validate_url (MAX_URL_LENGTH : Z) (url : option string) : Z :=
  match url with
  | None => -1
  | Some u =>
      let url_len := Z.of_nat (String.length u) in
      if url_len =? 0 then -1
      else if url_len >=? MAX_URL_LENGTH then -1
      else if (url_len <? 7)
              || (negb (strncmp_eq u "http://" 7)
                  && negb (strncmp_eq u "https://" 8))
      then -1
      else url_loop u
  end.

(** [get_video_info]: the text yt-dlp printed, or NULL.
    [execute_command_with_output] is an argument; it gets the argument
    vector without the terminating NULL. *)
Definition get_video_info (MAX_URL_LENGTH : Z)
    (execute_command_with_output : string -> list string -> option string)
    (url : option string) : option string :=
  if negb (validate_url MAX_URL_LENGTH url =? 0) then None
  else
    match url with
    | Some u => execute_command_with_output "yt-dlp" ["yt-dlp"; "-j"; u]
    | None => None
    end.

(** The characters [validate_url] lets through. *)
Definition url_char (c : ascii) : bool :=
  isalnum c || Ascii.eqb c "/" || Ascii.eqb c ":" || Ascii.eqb c "."
  || Ascii.eqb c "-" || Ascii.eqb c "_" || Ascii.eqb c "?"
  || Ascii.eqb c "=" || Ascii.eqb c "&" || Ascii.eqb c "%"
  || Ascii.eqb c "+" || Ascii.eqb c "#".

(** ** main.c *)

(** main.c, the branch with the terminal UI: the formats parsed from
    the text that yt-dlp printed are displayed from a zeroed list state
    and the selection loop runs on them. [None] is the exit with
    "Failed to parse video formats". *)
Definition main_select_format (json_loads : string -> option json)
    (st : UIState) (json_str : option string) (inp : input)
    : option session :=
  match parse_formats json_loads json_str with
  | None => None
  | Some items =>
      let fs := map format_of_json items in
      let list_state := snd (ui_display_formats st (Some fs) list_state_zero) in
      Some (ui_select_format_interactive st list_state inp)
  end.

(** ** States and predicates used in the statements *)

(** The text does not start with a decimal digit. *)
Definition no_leading_digit (s : string) : bool :=
  match s with
  | String c _ => negb (isdigit c)
  | EmptyString => true
  end.

Definition sample_format : format :=
  Format (Some "137") (Some "1920x1080") (Some "mp4") (Some 1500).

(** The state [ui_init] leaves for a terminal of [rows] rows and
    [cols] columns. *)
Definition ui_for_terminal (rows cols : Z) : UIState :=
  create_windows
    {| ncurses_available := true; colors_supported := true;
       term_height := 0; screen_rows := rows;
       content_height := 0; content_cols := cols; content_delay := -1;
       stdscr_delay := UI_UPDATE_INTERVAL_MS; resize_pending := false;
       shutdown_pending := false |}.

(** The list state main.c passes to the selection loop: a zeroed
    [FormatListState] after the first [ui_display_formats]. *)
Definition initial_list (st : UIState) (fs : list format) : FormatListState :=
  snd (ui_display_formats st (Some fs) list_state_zero).

(** The invariant of the list state: the selected entry lies in the
    viewport and in the list. *)
Definition list_invariant (ls : FormatListState) : Prop :=
  visible_start ls <= selected_index ls
    < visible_start ls + visible_lines ls
  /\ 0 <= selected_index ls <= total_formats ls - 1.

Definition index_in_range (ls : FormatListState) : Prop :=
  0 <= selected_index ls <= total_formats ls - 1.

(** No resize is pending and the content window reads in blocking mode,
    as [create_windows] leaves it. *)
Definition steady (st : UIState) : Prop :=
  resize_pending st = false /\ content_delay st = -1.

(** The list state a pass of the loop leaves, when the pass completes. *)
Definition list_after (r : step_result) : option FormatListState :=
  match r with
  | Continue _ ls _ => Some ls
  | Stop _ _ ls _ => Some ls
  | Blocked _ _ => None
  end.

(** A session on the formats [fs] in a terminal of [rows] rows, the way
    main.c runs it. *)
Definition run_selection (rows : Z) (fs : list format) (inp : input)
    : session :=
  let st := ui_for_terminal rows 80 in
  ui_select_format_interactive st (initial_list st fs) inp.


(** What the proofs carry along a session in a content window of [h]
    rows: the viewport has [h - 4] lines, starts at a valid row and
    contains the selected entry, and the sums the code forms fit an
    [int]. *)
Definition list_ok (h : Z) (ls : FormatListState) : Prop :=
  visible_lines ls = h - 4
  /\ 0 <= visible_start ls
  /\ list_invariant ls
  /\ total_formats ls + h <= INT_MAX.

Definition ui_ok (h : Z) (st : UIState) : Prop :=
  resize_pending st = false /\ content_height st = h.

(** A state in which curses could not be started: the error path of the
    UI entry points. *)
Definition ui_unavailable : UIState :=
  {| ncurses_available := false; colors_supported := false;
     term_height := 0; screen_rows := 24;
     content_height := 0; content_cols := 0; content_delay := -1;
     stdscr_delay := -1; resize_pending := false;
     shutdown_pending := false |}.

Definition five_formats : list format :=
  [ Format (Some "137") (Some "1920x1080") (Some "mp4") (Some 1500);
    Format (Some "136") (Some "1280x720") (Some "mp4") (Some 313);
    Format (Some "135") (Some "854x480") (Some "mp4") (Some 157);
    Format (Some "140") (Some "audio only") (Some "m4a") (Some 111);
    Format (Some "251") None (Some "webm") None ].

(** The two samples [ui_calculate_speed] compares. *)
Definition oldest_sample (p : DownloadProgress) : sample := sample_at p 0.

Definition newest_sample (p : DownloadProgress) : sample :=
  sample_at p
    (Z.rem (int_add (int_sub (sample_index p) 1) SPEED_SAMPLE_SIZE)
           SPEED_SAMPLE_SIZE).

(** [ui_update_progress] called once per element of [calls], each a
    clock value with the byte count reported at that time. *)
Definition feed (total : Z) (calls : list (Z * Z)) (p : DownloadProgress)
    : DownloadProgress :=
  fold_left (fun q '(now, downloaded) => ui_update_progress now q downloaded total)
            calls p.

(** One call per second from [t0] on, 1000 more bytes each time. *)
Definition steady_calls (t0 : Z) (n : nat) : list (Z * Z) :=
  map (fun k => (t0 + Z.of_nat k, 1000 * Z.of_nat k)) (seq 0 n).

(** A download of unknown size: 500 bytes received, total 0. *)
Definition progress_unknown_total : DownloadProgress :=
  {| downloaded_bytes := 500; total_bytes := 0; download_speed := 0%Q;
     start_time := 1700000000; estimated_completion := 0;
     current_stage := "Starting download...";
     samples := replicate (Z.to_nat SPEED_SAMPLE_SIZE) (Sample 0 0);
     sample_index := 0; last_update := 0 |}.

(** A download under way: twelve calls, one per second, 1000 bytes per
    second out of 50000. *)
Definition warm_progress : DownloadProgress :=
  feed 50000 (steady_calls 100 12) progress_zero.

(** A terminal of 24 rows and 80 columns showing [five_formats], with
    the entry [i] selected. *)
Definition demo_ui : UIState := ui_for_terminal 24 80.

Definition demo_list (i : Z) : FormatListState :=
  set_selected_index i (initial_list demo_ui five_formats).

Definition fifteen_formats : list format :=
  five_formats ++ five_formats ++ five_formats.

(** The viewport is as far up as the selected entry allows. *)
Definition scrolled_down (ls : FormatListState) : Prop :=
  visible_start ls
  = Z.max 0 (selected_index ls - visible_lines ls + 1).

(** What a pass of the loop does to the state of the terminal. *)
Definition modes_kept (st st' : UIState) : Prop :=
  content_delay st' = -1
  /\ stdscr_delay st' = stdscr_delay st
  /\ resize_pending st' = false
  /\ shutdown_pending st' = shutdown_pending st.

(** The viewport recorded in the list state is no taller than a content
    window of [h] rows allows; apart from that, as [list_ok]. *)
Definition list_fits (h : Z) (ls : FormatListState) : Prop :=
  visible_lines ls <= h - 4
  /\ 0 <= visible_start ls
  /\ list_invariant ls
  /\ total_formats ls + h <= INT_MAX.

(** The content window has [h] rows once the pending resize, if any, is
    handled. *)
Definition ui_at (h : Z) (st : UIState) : Prop :=
  content_height (ui_handle_resize st) = h.

(** The terminal after its size changed to [rows] rows, with the
    [SIGWINCH] recorded by [ui_signal_handler]. *)
Definition resized_to (rows : Z) (st : UIState) : UIState :=
  {| ncurses_available := ncurses_available st;
     colors_supported := colors_supported st; term_height := term_height st;
     screen_rows := rows; content_height := content_height st;
     content_cols := content_cols st; content_delay := content_delay st;
     stdscr_delay := stdscr_delay st; resize_pending := true;
     shutdown_pending := shutdown_pending st |}.

(** What yt-dlp reports for a video with two formats, decoded. *)
Definition demo_json : json :=
  JObject
    [("title"%string, JString "A video");
     ("formats"%string,
      JArray
        [JObject [("format_id"%string, JString "137");
                  ("resolution"%string, JString "1920x1080");
                  ("ext"%string, JString "mp4");
                  ("filesize"%string, JInteger 1500)];
         JObject [("format_id"%string, JString "140");
                  ("ext"%string, JString "m4a");
                  ("filesize"%string, JInteger 0)]])].

(** Every character of the string passes the test. *)
Fixpoint string_forallb (p : ascii -> bool) (s : string) : bool :=
  match s with
  | EmptyString => true
  | String c rest => p c && string_forallb p rest
  end.

(** The characters of a format code: letters, digits, hyphen,
    underscore and dot. *)
Definition format_code_char (c : ascii) : bool :=
  isalnum c || Ascii.eqb c "-" || Ascii.eqb c "_" || Ascii.eqb c ".".

(** The buffer holds a whole line: it is empty, ends with the newline,
    or the input ended. *)
Definition complete_line (buf : string) (at_eof : bool) : Prop :=
  buf = EmptyString
  \/ String.get (String.length buf - 1) buf = Some "010"%char
  \/ at_eof = true.

(** A line as typed at the prompt, with its newline. *)
Definition typed_line (text : string) : string :=
  text +:+ String "010" EmptyString.

(** What [draw_format_entry] prints for an object. *)
Definition row_of (y index : Z) (f : format) (selected colors : bool)
    : format_row :=
  let resolution := default "N/A" (resolution f) in
  let ext := default "N/A" (ext f) in
  let size := default 0 (filesize f) in
  let quality := get_quality_label (Some resolution) (Some ext) in
  {| row_y := y;
     row_number := index + 1;
     row_format_id := default "N/A" (format_id f);
     row_resolution := resolution;
     row_ext := ext;
     row_size := if size >? 0 then Some (ui_format_bytes size) else None;
     row_quality := quality;
     row_highlight := selected && colors;
     row_quality_color :=
       if negb selected && colors then quality_color quality else None |}.

(** The same terminal with or without colours. *)
Definition set_colors_supported (c : bool) (st : UIState) : UIState :=
  {| ncurses_available := ncurses_available st;
     colors_supported := c; term_height := term_height st;
     screen_rows := screen_rows st; content_height := content_height st;
     content_cols := content_cols st; content_delay := content_delay st;
     stdscr_delay := stdscr_delay st; resize_pending := resize_pending st;
     shutdown_pending := shutdown_pending st |}.

(** [q] is a double, and it is [(double) bytes] over [2 ^ e]: the size
    in the loop of [ui_format_bytes] after [e / 10] steps. *)
Definition scaled (bytes : Z) (e : Z) (q : Q) : Prop :=
  (q * inject_Z (2 ^ e) == Double.of_Z bytes)%Q /\ (Double.round q == q)%Q.

(** * Properties *)

(** ** Doubles: rounding to the nearest binary64 number *)

Module DoubleFacts.
Import Double.

Lemma pow2_pos (k : Z) : (0 < pow2 k)%Q.
Proof. apply Qpower_0_lt. reflexivity. Qed.

Lemma pow2_add (a b : Z) : (pow2 (a + b) == pow2 a * pow2 b)%Q.
Proof. apply Qpower_plus. discriminate. Qed.

Lemma pow2_Z (k : Z) : 0 <= k -> (pow2 k == inject_Z (2 ^ k))%Q.
Proof. intros Hk. unfold pow2. now rewrite Zpower_Qpower. Qed.

Lemma pow2_le (a b : Z) : a <= b -> (pow2 a <= pow2 b)%Q.
Proof. intros H. apply Qpower_le_compat_l; [exact H | discriminate]. Qed.

Lemma pow2_lt (a b : Z) : a < b -> (pow2 a < pow2 b)%Q.
Proof. intros H. apply Qpower_lt_compat_l; [exact H | reflexivity]. Qed.

Lemma pow2_cancel (a : Z) : (pow2 a * pow2 (- a) == 1)%Q.
Proof. rewrite <- pow2_add. now replace (a + - a) with 0 by lia. Qed.

(** ** Nearest integer *)

Lemma rne_bounds (q : Q) : Qfloor q <= rne q <= Qfloor q + 1.
Proof.
  unfold rne. destruct (_ ?= _)%Q; [destruct (Z.even _) | |]; lia.
Qed.

Lemma rne_Z (z : Z) : rne (inject_Z z) = z.
Proof.
  unfold rne. rewrite Qfloor_Z.
  assert (E : (inject_Z z - inject_Z z ?= 1 # 2)%Q = Lt).
  { apply Qlt_alt.
    assert (H0 : (inject_Z z - inject_Z z == 0)%Q) by ring.
    rewrite H0. reflexivity. }
  now rewrite E.
Qed.

Lemma rne_mono (q1 q2 : Q) : (q1 <= q2)%Q -> rne q1 <= rne q2.
Proof.
  intros Hle. pose proof (Qfloor_resp_le _ _ Hle) as Hf.
  pose proof (rne_bounds q1) as B1. pose proof (rne_bounds q2) as B2.
  destruct (Z.eq_dec (Qfloor q1) (Qfloor q2)) as [E | N]; [| lia].
  unfold rne. rewrite <- E.
  assert (Hr : (q1 - inject_Z (Qfloor q1) <= q2 - inject_Z (Qfloor q1))%Q).
  { apply Qplus_le_l with (z := inject_Z (Qfloor q1)). ring_simplify. exact Hle. }
  destruct (q1 - inject_Z (Qfloor q1) ?= 1 # 2)%Q eqn:C1;
    destruct (q2 - inject_Z (Qfloor q1) ?= 1 # 2)%Q eqn:C2;
    try (destruct (Z.even (Qfloor q1)); lia); try lia; exfalso.
  - apply Qeq_alt in C1. apply Qlt_alt in C2. rewrite C1 in Hr.
    exact (Qlt_not_le _ _ C2 Hr).
  - apply Qgt_alt in C1. apply Qeq_alt in C2. rewrite C2 in Hr.
    exact (Qlt_not_le _ _ C1 Hr).
  - apply Qgt_alt in C1. apply Qlt_alt in C2.
    apply (Qlt_not_le _ _ C2). eapply Qle_trans; [| exact Hr].
    apply Qlt_le_weak. exact C1.
Qed.

Lemma rne_proper (q1 q2 : Q) : (q1 == q2)%Q -> rne q1 = rne q2.
Proof.
  intros E. apply Z.le_antisymm; apply rne_mono; rewrite E; apply Qle_refl.
Qed.

Lemma rne_ge (a : Z) (q : Q) : (inject_Z a <= q)%Q -> a <= rne q.
Proof. intros H. rewrite <- (rne_Z a). now apply rne_mono. Qed.

Lemma rne_le (a : Z) (q : Q) : (q <= inject_Z a)%Q -> rne q <= a.
Proof. intros H. rewrite <- (rne_Z a). now apply rne_mono. Qed.

(** The nearest integer is at most one half away. *)
Lemma rne_nearest (q : Q) :
  (inject_Z (rne q) - q <= 1 # 2)%Q /\ (q - inject_Z (rne q) <= 1 # 2)%Q.
Proof.
  pose proof (Qfloor_le q) as Hlo. pose proof (Qlt_floor q) as Hhi.
  unfold rne. rewrite inject_Z_plus in Hhi.
  change (inject_Z 1) with 1%Q in Hhi.
  destruct (q - inject_Z (Qfloor q) ?= 1 # 2)%Q eqn:E.
  - apply Qeq_alt in E.
    destruct (Z.even (Qfloor q)); [| rewrite inject_Z_plus;
                                      change (inject_Z 1) with 1%Q]; lra.
  - apply Qlt_alt in E. lra.
  - apply Qgt_alt in E. rewrite inject_Z_plus.
    change (inject_Z 1) with 1%Q. lra.
Qed.

(** ** The binade of a positive number *)

Lemma Qpos_num (q : Q) : (0 < q)%Q <-> 0 < Qnum q.
Proof. unfold Qlt. simpl. rewrite Z.mul_1_r. reflexivity. Qed.

Lemma mag_rough (q : Q) :
  (0 < q)%Q ->
  let k := Z.log2 (Qnum q) - Z.log2 (Zpos (Qden q)) in
  (pow2 (k - 1) < q < pow2 (k + 1))%Q.
Proof.
  intros Hq k. destruct q as [n d].
  change (Z.log2 n - Z.log2 (Zpos d)) in (value of k).
  apply Qpos_num in Hq. simpl in Hq.
  destruct (Z.log2_spec n Hq) as [Hn1 Hn2].
  destruct (Z.log2_spec (Zpos d) eq_refl) as [Hd1 Hd2].
  set (a := Z.log2 n) in *. set (b := Z.log2 (Zpos d)) in *.
  assert (Ha : 0 <= a) by apply Z.log2_nonneg.
  assert (Hb : 0 <= b) by apply Z.log2_nonneg.
  assert (Hdpos : (0 < inject_Z (Zpos d))%Q) by reflexivity.
  rewrite (Qmake_Qdiv n d).
  split.
  - apply Qlt_shift_div_l; [exact Hdpos |].
    apply Qlt_le_trans with (y := (pow2 (k - 1) * pow2 (b + 1))%Q).
    + apply Qmult_lt_l; [apply pow2_pos |].
      rewrite pow2_Z by lia. rewrite <- Zlt_Qlt.
      replace (Z.succ b) with (b + 1) in Hd2 by lia. exact Hd2.
    + rewrite <- pow2_add. replace (k - 1 + (b + 1)) with a by (subst k; lia).
      rewrite pow2_Z by lia. rewrite <- Zle_Qle. exact Hn1.
  - apply Qlt_shift_div_r; [exact Hdpos |].
    apply Qlt_le_trans with (y := (pow2 (k + 1) * pow2 b)%Q).
    + rewrite <- pow2_add. replace (k + 1 + b) with (a + 1) by (subst k; lia).
      rewrite pow2_Z by lia. rewrite <- Zlt_Qlt.
      replace (Z.succ a) with (a + 1) in Hn2 by lia. exact Hn2.
    + apply Qmult_le_l; [apply pow2_pos |].
      rewrite pow2_Z by lia. rewrite <- Zle_Qle. exact Hd1.
Qed.

Lemma mag_spec (q : Q) :
  (0 < q)%Q -> (pow2 (mag q - 1) <= q < pow2 (mag q))%Q.
Proof.
  intros Hq. destruct (mag_rough q Hq) as [Hlo Hhi]. unfold mag.
  set (k := Z.log2 (Qnum q) - Z.log2 (Zpos (Qden q))) in *.
  destruct (Qle_bool (pow2 k) q) eqn:E.
  - apply Qle_bool_iff in E. replace (k + 1 - 1) with k by lia. auto.
  - split; [apply Qlt_le_weak; exact Hlo |].
    apply Qnot_le_lt. intros H. apply Qle_bool_iff in H. congruence.
Qed.

Lemma mag_unique (q : Q) (k : Z) :
  (pow2 (k - 1) <= q < pow2 k)%Q -> mag q = k.
Proof.
  intros [Hlo Hhi].
  assert (Hq : (0 < q)%Q) by (eapply Qlt_le_trans; [apply pow2_pos | exact Hlo]).
  destruct (mag_spec q Hq) as [Mlo Mhi].
  destruct (Z.lt_trichotomy (mag q) k) as [H | [H | H]]; [| exact H |]; exfalso.
  - apply (Qlt_irrefl q). eapply Qlt_le_trans; [exact Mhi |].
    eapply Qle_trans; [| exact Hlo]. apply pow2_le. lia.
  - apply (Qlt_irrefl q). eapply Qlt_le_trans; [exact Hhi |].
    eapply Qle_trans; [| exact Mlo]. apply pow2_le. lia.
Qed.

Lemma mag_mono (q1 q2 : Q) :
  (0 < q1)%Q -> (q1 <= q2)%Q -> mag q1 <= mag q2.
Proof.
  intros H1 Hle.
  assert (H2 : (0 < q2)%Q) by (eapply Qlt_le_trans; eassumption).
  destruct (mag_spec q1 H1) as [L1 U1]. destruct (mag_spec q2 H2) as [L2 U2].
  destruct (Z.le_gt_cases (mag q1) (mag q2)) as [H | H]; [exact H | exfalso].
  apply (Qlt_irrefl q2). eapply Qlt_le_trans; [exact U2 |].
  eapply Qle_trans; [| exact Hle]. eapply Qle_trans; [| exact L1].
  apply pow2_le. lia.
Qed.

(** ** Rounding a positive number *)

Lemma round_pos_scaled (q : Q) :
  (0 < q)%Q ->
  2 ^ 52 <= rne (q * pow2 (53 - mag q)) <= 2 ^ 53.
Proof.
  intros Hq. destruct (mag_spec q Hq) as [Lo Hi]. split.
  - apply rne_ge. rewrite <- pow2_Z by lia.
    replace 52 with (mag q - 1 + (53 - mag q)) by lia.
    rewrite pow2_add. apply Qmult_le_r; [apply pow2_pos | exact Lo].
  - apply rne_le. rewrite <- pow2_Z by lia.
    replace 53 with (mag q + (53 - mag q)) at 2 by lia.
    rewrite pow2_add. apply Qlt_le_weak.
    apply Qmult_lt_r; [apply pow2_pos | exact Hi].
Qed.

Lemma round_pos_bounds (q : Q) :
  (0 < q)%Q -> (pow2 (mag q - 1) <= round_pos q <= pow2 (mag q))%Q.
Proof.
  intros Hq. destruct (round_pos_scaled q Hq) as [Lo Hi].
  unfold round_pos. rewrite Qred_correct. set (m := rne _) in *. split.
  - replace (mag q - 1) with (52 + - (53 - mag q)) by lia.
    rewrite pow2_add. apply Qmult_le_r; [apply pow2_pos |].
    rewrite pow2_Z by lia. rewrite <- Zle_Qle. exact Lo.
  - replace (mag q) with (53 + - (53 - mag q)) at 2 by lia.
    rewrite pow2_add. apply Qmult_le_r; [apply pow2_pos |].
    rewrite pow2_Z by lia. rewrite <- Zle_Qle. exact Hi.
Qed.

(** [round_pos q] is a number of 53 bits, within half a unit in the last
    place of [q]. *)
Lemma round_pos_nearest (q : Q) :
  (0 < q)%Q ->
  let s := 53 - mag q in
  exists m : Z,
    2 ^ 52 <= m <= 2 ^ 53
    /\ (round_pos q == inject_Z m * pow2 (- s))%Q
    /\ (round_pos q - q <= (1 # 2) * pow2 (- s))%Q
    /\ (q - round_pos q <= (1 # 2) * pow2 (- s))%Q.
Proof.
  intros Hq s. exists (rne (q * pow2 s)).
  split; [exact (round_pos_scaled q Hq) |].
  assert (E : (round_pos q == inject_Z (rne (q * pow2 s)) * pow2 (- s))%Q).
  { unfold round_pos. fold s. apply Qred_correct. }
  split; [exact E |].
  destruct (rne_nearest (q * pow2 s)) as [N1 N2].
  pose proof (pow2_pos (- s)) as Hp.
  pose proof (pow2_cancel s) as Hc.
  assert (Eq : (q == q * pow2 s * pow2 (- s))%Q).
  { rewrite <- Qmult_assoc, Hc. ring. }
  rewrite E. split.
  - rewrite Eq at 2.
    setoid_replace (inject_Z (rne (q * pow2 s)) * pow2 (- s)
                    - q * pow2 s * pow2 (- s))%Q
      with ((inject_Z (rne (q * pow2 s)) - q * pow2 s) * pow2 (- s))%Q
      using relation Qeq by ring.
    apply Qmult_le_compat_r; [exact N1 | now apply Qlt_le_weak].
  - rewrite Eq at 1.
    setoid_replace (q * pow2 s * pow2 (- s)
                    - inject_Z (rne (q * pow2 s)) * pow2 (- s))%Q
      with ((q * pow2 s - inject_Z (rne (q * pow2 s))) * pow2 (- s))%Q
      using relation Qeq by ring.
    apply Qmult_le_compat_r; [exact N2 | now apply Qlt_le_weak].
Qed.

Lemma round_pos_pos (q : Q) : (0 < q)%Q -> (0 < round_pos q)%Q.
Proof.
  intros Hq. eapply Qlt_le_trans; [apply pow2_pos |].
  exact (proj1 (round_pos_bounds q Hq)).
Qed.

Lemma round_pos_mono (q1 q2 : Q) :
  (0 < q1)%Q -> (q1 <= q2)%Q -> (round_pos q1 <= round_pos q2)%Q.
Proof.
  intros H1 Hle.
  assert (H2 : (0 < q2)%Q) by (eapply Qlt_le_trans; eassumption).
  pose proof (mag_mono q1 q2 H1 Hle) as Hm.
  destruct (Z.eq_dec (mag q1) (mag q2)) as [E | N].
  - unfold round_pos. rewrite E, !Qred_correct.
    apply Qmult_le_r; [apply pow2_pos |]. rewrite <- Zle_Qle.
    apply rne_mono. apply Qmult_le_r; [apply pow2_pos | exact Hle].
  - eapply Qle_trans; [exact (proj2 (round_pos_bounds q1 H1)) |].
    eapply Qle_trans; [| exact (proj1 (round_pos_bounds q2 H2))].
    apply pow2_le. lia.
Qed.

Lemma round_pos_proper (q1 q2 : Q) :
  (0 < q1)%Q -> (q1 == q2)%Q -> (round_pos q1 == round_pos q2)%Q.
Proof.
  intros H1 E.
  assert (H2 : (0 < q2)%Q) by (rewrite <- E; exact H1).
  apply Qle_antisym; apply round_pos_mono; try assumption;
    rewrite E; apply Qle_refl.
Qed.

(** ** Rounding *)

Lemma round_cases (q : Q) :
  (q == 0 /\ round q = 0)%Q \/
  ((0 < q)%Q /\ round q = round_pos q) \/
  ((q < 0)%Q /\ round q = (- round_pos (- q))%Q).
Proof.
  unfold round. destruct q as [[| n | n] d]; simpl.
  - left. split; reflexivity.
  - right. left. split; reflexivity.
  - right. right. split; reflexivity.
Qed.

Lemma Qopp_pos (q : Q) : (q < 0)%Q -> (0 < - q)%Q.
Proof. intros H. apply (Qopp_lt_compat q 0) in H. exact H. Qed.

Lemma round_zero (q : Q) : (q == 0)%Q -> round q = 0%Q.
Proof.
  intros E. destruct (round_cases q) as [[_ R] | [[H _] | [H _]]];
    [exact R | |]; rewrite E in H; discriminate H.
Qed.

Lemma round_of_pos (q : Q) : (0 < q)%Q -> round q = round_pos q.
Proof.
  intros Hq. destruct (round_cases q) as [[E _] | [[_ R] | [H _]]];
    [| exact R |].
  - rewrite E in Hq. discriminate Hq.
  - exfalso. apply (Qlt_irrefl q). eapply Qlt_trans; eassumption.
Qed.

Lemma round_of_neg (q : Q) : (q < 0)%Q -> round q = (- round_pos (- q))%Q.
Proof.
  intros Hq. destruct (round_cases q) as [[E _] | [[H _] | [_ R]]];
    [| | exact R].
  - rewrite E in Hq. discriminate Hq.
  - exfalso. apply (Qlt_irrefl q). eapply Qlt_trans; eassumption.
Qed.

Lemma round_pos_gt (q : Q) : (0 < q)%Q -> (0 < round q)%Q.
Proof. intros H. rewrite (round_of_pos q H). now apply round_pos_pos. Qed.

Lemma round_neg_lt (q : Q) : (q < 0)%Q -> (round q < 0)%Q.
Proof.
  intros H. rewrite (round_of_neg q H).
  pose proof (round_pos_pos (- q) (Qopp_pos q H)) as P.
  apply (Qopp_lt_compat 0 (round_pos (- q))) in P. exact P.
Qed.

Lemma round_nonneg (q : Q) : (0 <= q)%Q -> (0 <= round q)%Q.
Proof.
  intros H. destruct (round_cases q) as [[_ R] | [[P R] | [N _]]].
  - rewrite R. apply Qle_refl.
  - rewrite R. apply Qlt_le_weak. now apply round_pos_pos.
  - exfalso. apply (Qlt_irrefl q). eapply Qlt_le_trans; eassumption.
Qed.

Lemma round_nonpos (q : Q) : (q <= 0)%Q -> (round q <= 0)%Q.
Proof.
  intros H. destruct (round_cases q) as [[_ R] | [[P _] | [N _]]].
  - rewrite R. apply Qle_refl.
  - exfalso. apply (Qlt_irrefl q). eapply Qle_lt_trans; eassumption.
  - apply Qlt_le_weak. now apply round_neg_lt.
Qed.

Lemma round_mono (q1 q2 : Q) : (q1 <= q2)%Q -> (round q1 <= round q2)%Q.
Proof.
  intros Hle.
  destruct (Qlt_le_dec 0 q1) as [P1 | N1].
  - assert (P2 : (0 < q2)%Q) by exact (Qlt_le_trans _ _ _ P1 Hle).
    rewrite (round_of_pos q1 P1), (round_of_pos q2 P2).
    now apply round_pos_mono.
  - destruct (Qlt_le_dec q2 0) as [N2 | P2].
    + assert (N1' : (q1 < 0)%Q) by exact (Qle_lt_trans _ _ _ Hle N2).
      rewrite (round_of_neg q1 N1'), (round_of_neg q2 N2).
      apply Qopp_le_compat. apply round_pos_mono.
      * now apply Qopp_pos.
      * now apply Qopp_le_compat.
    + eapply Qle_trans; [apply round_nonpos; exact N1 |].
      apply round_nonneg; exact P2.
Qed.

Lemma round_proper (q1 q2 : Q) : (q1 == q2)%Q -> (round q1 == round q2)%Q.
Proof.
  intros E. apply Qle_antisym; apply round_mono; rewrite E; apply Qle_refl.
Qed.

#[global] Instance round_compat : Proper (Qeq ==> Qeq) round.
Proof. intros q1 q2 E. now apply round_proper. Qed.

Lemma round_opp (q : Q) : (round (- q) == - round q)%Q.
Proof.
  destruct (round_cases q) as [[E R] | [[P R] | [N R]]]; rewrite R.
  - rewrite round_zero; [reflexivity |]. rewrite E. reflexivity.
  - assert (N : (- q < 0)%Q) by (apply (Qopp_lt_compat 0 q) in P; exact P).
    rewrite (round_of_neg _ N).
    assert (E : (- - q == q)%Q) by apply Qopp_involutive.
    rewrite (round_pos_proper _ _ (Qopp_pos _ N) E). reflexivity.
  - rewrite (round_of_pos _ (Qopp_pos q N)).
    rewrite Qopp_involutive. reflexivity.
Qed.

(** Scaling by a power of two commutes with rounding (no exponent range). *)

Lemma mag_scale (q : Q) (j : Z) :
  (0 < q)%Q -> mag (q * pow2 j) = mag q + j.
Proof.
  intros Hq. destruct (mag_spec q Hq) as [Lo Hi]. apply mag_unique. split.
  - replace (mag q + j - 1) with (mag q - 1 + j) by lia. rewrite pow2_add.
    apply Qmult_le_r; [apply pow2_pos | exact Lo].
  - rewrite pow2_add. apply Qmult_lt_r; [apply pow2_pos | exact Hi].
Qed.

Lemma round_pos_scale (q : Q) (j : Z) :
  (0 < q)%Q -> (round_pos (q * pow2 j) == round_pos q * pow2 j)%Q.
Proof.
  intros Hq. unfold round_pos. rewrite !Qred_correct, (mag_scale q j Hq).
  assert (E : (q * pow2 j * pow2 (53 - (mag q + j)) == q * pow2 (53 - mag q))%Q).
  { rewrite <- Qmult_assoc, <- pow2_add.
    now replace (j + (53 - (mag q + j))) with (53 - mag q) by lia. }
  rewrite (rne_proper _ _ E).
  rewrite <- Qmult_assoc, <- pow2_add.
  now replace (- (53 - mag q) + j) with (- (53 - (mag q + j))) by lia.
Qed.

Lemma scale_pos (q : Q) (j : Z) : (0 < q)%Q -> (0 < q * pow2 j)%Q.
Proof.
  intros H. rewrite <- (Qmult_0_l (pow2 j)).
  apply Qmult_lt_r; [apply pow2_pos | exact H].
Qed.

Lemma round_scale (q : Q) (j : Z) :
  (round (q * pow2 j) == round q * pow2 j)%Q.
Proof.
  destruct (round_cases q) as [[E R] | [[P R] | [N R]]]; rewrite R.
  - rewrite round_zero; [reflexivity |]. rewrite E. reflexivity.
  - rewrite (round_of_pos _ (scale_pos q j P)). now apply round_pos_scale.
  - pose proof (Qopp_pos q N) as P.
    assert (E : (q * pow2 j == - (- q * pow2 j))%Q) by ring.
    rewrite E, round_opp, (round_of_pos _ (scale_pos _ j P)).
    rewrite (round_pos_scale _ j P). ring.
Qed.

(** Integers of at most 53 bits are doubles. *)

Lemma round_pos_exact_Z (z : Z) :
  0 < z <= 2 ^ 53 -> (round_pos (inject_Z z) == inject_Z z)%Q.
Proof.
  intros [Hz Hb].
  assert (Hq : (0 < inject_Z z)%Q) by (rewrite (Zlt_Qlt 0 z) in Hz; exact Hz).
  destruct (mag_spec _ Hq) as [Lo Hi].
  assert (Hm : mag (inject_Z z) <= 54).
  { destruct (Z.le_gt_cases (mag (inject_Z z)) 54) as [H | H]; [exact H |].
    exfalso. apply (Qlt_irrefl (inject_Z z)).
    eapply Qle_lt_trans with (y := pow2 53).
    - rewrite pow2_Z by lia. rewrite <- Zle_Qle. exact Hb.
    - eapply Qlt_le_trans; [| exact Lo]. apply pow2_lt. lia. }
  unfold round_pos. rewrite Qred_correct. set (s := 53 - mag (inject_Z z)) in *.
  destruct (Z.le_gt_cases 0 s) as [Hs | Hs].
  - assert (E : (inject_Z z * pow2 s == inject_Z (z * 2 ^ s))%Q).
    { rewrite pow2_Z by lia. now rewrite inject_Z_mult. }
    rewrite (rne_proper _ _ E), rne_Z, inject_Z_mult, <- pow2_Z by lia.
    rewrite <- Qmult_assoc, pow2_cancel. ring.
  - assert (s = -1) by lia. assert (Hg : mag (inject_Z z) = 54) by lia.
    rewrite Hg in Lo. change (54 - 1) with 53 in Lo.
    rewrite pow2_Z in Lo by lia. rewrite <- Zle_Qle in Lo.
    assert (z = 2 ^ 53) by lia. subst z. subst s. rewrite H. reflexivity.
Qed.

Lemma round_exact_Z (z : Z) :
  - 2 ^ 53 <= z <= 2 ^ 53 -> (round (inject_Z z) == inject_Z z)%Q.
Proof.
  intros [Lo Hi]. destruct (Z.lt_trichotomy z 0) as [N | [E | P]].
  - assert (Hq : (inject_Z z < 0)%Q) by (rewrite (Zlt_Qlt z 0) in N; exact N).
    rewrite (round_of_neg _ Hq).
    assert (E : (- inject_Z z == inject_Z (- z))%Q) by (now rewrite inject_Z_opp).
    rewrite (round_pos_proper _ _ (Qopp_pos _ Hq) E).
    rewrite round_pos_exact_Z by lia. rewrite inject_Z_opp. ring.
  - subst z. reflexivity.
  - assert (Hq : (0 < inject_Z z)%Q) by (rewrite (Zlt_Qlt 0 z) in P; exact P).
    rewrite (round_of_pos _ Hq). apply round_pos_exact_Z. lia.
Qed.

Lemma round_exact_scaled (m e : Z) :
  - 2 ^ 53 <= m <= 2 ^ 53 ->
  (round (inject_Z m * pow2 e) == inject_Z m * pow2 e)%Q.
Proof. intros H. now rewrite round_scale, round_exact_Z. Qed.

Lemma round_idempotent (q : Q) : (round (round q) == round q)%Q.
Proof.
  destruct (round_cases q) as [[E R] | [[P R] | [N R]]]; rewrite R.
  - reflexivity.
  - destruct (round_pos_scaled q P) as [Lo Hi].
    unfold round_pos. rewrite Qred_correct. apply round_exact_scaled. lia.
  - destruct (round_pos_scaled _ (Qopp_pos q N)) as [Lo Hi].
    rewrite round_opp. apply Qopp_comp.
    unfold round_pos. rewrite Qred_correct. apply round_exact_scaled. lia.
Qed.

(** Conversions and operations. *)

Lemma of_Z_exact (z : Z) :
  - 2 ^ 53 <= z <= 2 ^ 53 -> (of_Z z == inject_Z z)%Q.
Proof. apply round_exact_Z. Qed.

Lemma of_Z_mono (a b : Z) : a <= b -> (of_Z a <= of_Z b)%Q.
Proof. intros H. apply round_mono. now rewrite <- Zle_Qle. Qed.

Lemma of_Z_nonneg (z : Z) : 0 <= z -> (0 <= of_Z z)%Q.
Proof.
  intros H. apply round_nonneg. change 0%Q with (inject_Z 0).
  now rewrite <- Zle_Qle.
Qed.

Lemma of_Z_pos (z : Z) : 0 < z -> (0 < of_Z z)%Q.
Proof.
  intros H. apply round_pos_gt. change 0%Q with (inject_Z 0).
  now rewrite <- Zlt_Qlt.
Qed.

Lemma of_Z_nonpos (z : Z) : z <= 0 -> (of_Z z <= 0)%Q.
Proof.
  intros H. apply round_nonpos. change 0%Q with (inject_Z 0).
  now rewrite <- Zle_Qle.
Qed.

(** A double compares with a small integer as the integer it was
    converted from does. *)
Lemma of_Z_ge (k z : Z) :
  - 2 ^ 53 < k <= 2 ^ 53 -> ((inject_Z k <= of_Z z)%Q <-> k <= z).
Proof.
  intros Hk. split.
  - intros H. destruct (Z.le_gt_cases k z) as [Hle | Hgt]; [exact Hle |].
    exfalso. apply (Qlt_irrefl (inject_Z k)).
    eapply Qle_lt_trans; [exact H |].
    eapply Qle_lt_trans; [apply (of_Z_mono z (k - 1)); lia |].
    rewrite of_Z_exact by lia. rewrite <- Zlt_Qlt. lia.
  - intros H. rewrite <- (of_Z_exact k) by lia. now apply of_Z_mono.
Qed.

(** Rounding does not cross a small integer. *)
Lemma round_le_Z (q : Q) (k : Z) :
  - 2 ^ 53 <= k <= 2 ^ 53 -> (q <= inject_Z k)%Q -> (round q <= inject_Z k)%Q.
Proof.
  intros Hk H. rewrite <- (round_exact_Z k Hk). now apply round_mono.
Qed.

Lemma round_ge_Z (q : Q) (k : Z) :
  - 2 ^ 53 <= k <= 2 ^ 53 -> (inject_Z k <= q)%Q -> (inject_Z k <= round q)%Q.
Proof.
  intros Hk H. rewrite <- (round_exact_Z k Hk). now apply round_mono.
Qed.

Lemma of_Z_idempotent (z : Z) : (round (of_Z z) == of_Z z)%Q.
Proof. apply round_idempotent. Qed.

Lemma div_nonneg (a b : Q) : (0 <= a)%Q -> (0 < b)%Q -> (0 <= div a b)%Q.
Proof.
  intros Ha Hb. apply round_nonneg.
  apply Qle_shift_div_l; [exact Hb |]. now rewrite Qmult_0_l.
Qed.

Lemma div_pos (a b : Q) : (0 < a)%Q -> (0 < b)%Q -> (0 < div a b)%Q.
Proof.
  intros Ha Hb. apply round_pos_gt.
  apply Qlt_shift_div_l; [exact Hb |]. now rewrite Qmult_0_l.
Qed.

(** Dividing a double by 1024 is exact. *)
Lemma div_1024 (q : Q) : (div (round q) 1024 == round q / 1024)%Q.
Proof.
  unfold div.
  assert (E : forall x : Q, (x / 1024 == x * pow2 (-10))%Q).
  { intros x. unfold Qdiv. apply Qmult_comp; reflexivity. }
  rewrite !E, round_scale, round_idempotent. reflexivity.
Qed.

Lemma double_to_int_exact (q : Q) :
  in_int (Qtrunc q) -> double_to_int q = Qtrunc q.
Proof.
  unfold in_int, double_to_int. intros [Hlo Hhi]. cbv zeta.
  rewrite (proj2 (Z.leb_le _ _) Hlo), (proj2 (Z.leb_le _ _) Hhi).
  reflexivity.
Qed.

Lemma double_to_int_range (q : Q) : in_int (double_to_int q).
Proof.
  unfold in_int, double_to_int. cbv zeta.
  destruct (Z.leb_spec INT_MIN (Qtrunc q));
    destruct (Z.leb_spec (Qtrunc q) INT_MAX); simpl;
    unfold INT_MIN, INT_MAX in *; lia.
Qed.

Lemma double_to_int_cases (q : Q) :
  double_to_int q = Qtrunc q \/ double_to_int q = INT_MIN.
Proof.
  unfold double_to_int. cbv zeta. destruct (_ && _); auto.
Qed.

End DoubleFacts.

(** ** Machine arithmetic stays exact within range *)

Lemma INT_MAX_value : INT_MAX = 2147483647.
Proof. reflexivity. Qed.

Lemma INT_MIN_value : INT_MIN = -2147483648.
Proof. reflexivity. Qed.

Lemma int_of_id (z : Z) : INT_MIN <= z <= INT_MAX -> int_of z = z.
Proof.
  rewrite INT_MAX_value, INT_MIN_value. intros Hz.
  unfold int_of, wrap.
  change (2 ^ (32 - 1)) with 2147483648. change (2 ^ 32) with 4294967296.
  rewrite Z.mod_small; lia.
Qed.

Lemma int_of_in_int (z : Z) : in_int (int_of z).
Proof.
  unfold in_int. rewrite INT_MAX_value, INT_MIN_value.
  unfold int_of, wrap.
  change (2 ^ (32 - 1)) with 2147483648. change (2 ^ 32) with 4294967296.
  pose proof (Z.mod_pos_bound (z + 2147483648) 4294967296). lia.
Qed.

Lemma int_add_exact (a b : Z) :
  INT_MIN <= a + b <= INT_MAX -> int_add a b = a + b.
Proof. apply int_of_id. Qed.

Lemma int_sub_exact (a b : Z) :
  INT_MIN <= a - b <= INT_MAX -> int_sub a b = a - b.
Proof. apply int_of_id. Qed.

(** Replaces character and key constants by their codes, and the
    bounds of [int] by their values. *)
Ltac codes :=
  change (chr "b") with 98 in *; change (chr "B") with 66 in *;
  change (chr "w") with 119 in *; change (chr "W") with 87 in *;
  change (chr "a") with 97 in *; change (chr "A") with 65 in *;
  change (chr "1") with 49 in *; change (chr "9") with 57 in *;
  change (chr "q") with 113 in *; change (chr "Q") with 81 in *;
  change (chr "[") with 91 in *; change (chr "~") with 126 in *;
  change (chr "C") with 67 in *; change (chr "D") with 68 in *;
  change (chr "5") with 53 in *; change (chr "6") with 54 in *;
  change (chr "0") with 48 in *;
  change KEY_UP with 259 in *; change KEY_DOWN with 258 in *;
  change KEY_PPAGE with 339 in *; change KEY_NPAGE with 338 in *;
  change KEY_HOME with 262 in *; change KEY_END with 360 in *;
  change KEY_ENTER with 343 in *; change ERR with (-1) in *;
  change INT_MAX with 2147483647 in *;
  change INT_MIN with (-2147483648) in *.

(** Rewrites every integer comparison that linear arithmetic decides. *)
Ltac decide_tests :=
  repeat match goal with
  | |- context [?a >=? ?b] => rewrite (Z.geb_leb a b)
  | |- context [?a >? ?b] => rewrite (Z.gtb_ltb a b)
  | |- context [?a =? ?b] =>
      first [ rewrite (proj2 (Z.eqb_neq a b)) by lia
            | rewrite (proj2 (Z.eqb_eq a b)) by lia ]
  | |- context [?a <=? ?b] =>
      first [ rewrite (proj2 (Z.leb_le a b)) by lia
            | rewrite (proj2 (Z.leb_gt a b)) by lia ]
  | |- context [?a <? ?b] =>
      first [ rewrite (proj2 (Z.ltb_lt a b)) by lia
            | rewrite (proj2 (Z.ltb_ge a b)) by lia ]
  end.

(** ** The spinner *)

(** C10. For every frame number [frame >= 0], [get_spinner_char]
    returns one of the four characters [|], [/], [-], [\], the frame
    [frame + 4] gets the same character as [frame], and each of the four
    characters is the one of some frame. *)
Theorem get_spinner_char_period_four (frame : Z) :
  0 <= frame ->
  (exists c, get_spinner_char frame = Some c
             /\ (c = "|" \/ c = "/" \/ c = "-" \/ c = "\")%char)
  /\ get_spinner_char (frame + 4) = get_spinner_char frame
  /\ (forall c, In c ["|"; "/"; "-"; "\"]%char ->
        exists k, 0 <= k < 4 /\ get_spinner_char k = Some c).
Proof.
  intros Hf. unfold get_spinner_char.
  rewrite !Z.rem_mod_nonneg by lia.
  replace ((frame + 4) mod 4) with (frame mod 4)
    by (rewrite <- (Z.mul_1_l 4) at 2; now rewrite Z.mod_add).
  pose proof (Z.mod_pos_bound frame 4 ltac:(lia)) as Hb.
  repeat split.
  - assert (frame mod 4 = 0 \/ frame mod 4 = 1 \/ frame mod 4 = 2
            \/ frame mod 4 = 3) as [E | [E | [E | E]]] by lia;
      rewrite E; simpl; eauto 10.
  - intros c Hc. simpl in Hc.
    destruct Hc as [<- | [<- | [<- | [<- | []]]]];
      [exists 0 | exists 1 | exists 2 | exists 3]; split; try lia; reflexivity.
Qed.

Lemma get_spinner_char_period_four_at_6 :
  0 <= 6
  /\ get_spinner_char 6 = Some "-"%char
  /\ get_spinner_char (6 + 4) = get_spinner_char 6.
Proof.
  split; [lia |].
  split; [reflexivity |].
  exact (proj1 (proj2 (get_spinner_char_period_four 6 ltac:(lia)))).
Defined.

(** ** The viewport line count *)

(** C6, as the code has it. [ui_display_formats] sets [visible_lines]
    to the height of the content window minus 4, without a lower bound:
    the count is at least 1 exactly when the content window has at least
    5 rows. *)
Theorem ui_display_formats_visible_lines (st : UIState) (fs : list format)
    (ls : FormatListState) :
  ncurses_available st = true ->
  0 <= content_height st <= INT_MAX ->
  visible_lines (snd (ui_display_formats st (Some fs) ls))
    = content_height st - 4
  /\ (1 <= visible_lines (snd (ui_display_formats st (Some fs) ls))
      <-> 5 <= content_height st).
Proof.
  intros Hn Hh. unfold ui_display_formats. rewrite Hn. simpl.
  rewrite int_sub_exact by (codes; lia).
  split; [reflexivity | lia].
Qed.

Lemma ui_display_formats_visible_lines_24_rows :
  ncurses_available (ui_for_terminal 24 80) = true
  /\ 0 <= content_height (ui_for_terminal 24 80) <= INT_MAX
  /\ visible_lines (initial_list (ui_for_terminal 24 80) [sample_format]) = 15.
Proof.
  split; [reflexivity |].
  split; [vm_compute; split; discriminate |].
  exact (proj1 (ui_display_formats_visible_lines (ui_for_terminal 24 80)
                  [sample_format] list_state_zero eq_refl
                  ltac:(vm_compute; split; discriminate))).
Defined.

(** C6 fails as stated: on a terminal of 9 rows the content window has
    4 rows and the rendering sets [visible_lines] to 0. *)
Lemma visible_lines_zero_on_9_rows :
  content_height (ui_for_terminal 9 80) = 4
  /\ ~ 1 <= visible_lines (initial_list (ui_for_terminal 9 80) [sample_format]).
Proof. split; [reflexivity | vm_compute; intros H; apply H; reflexivity]. Qed.

(** ** Redrawing keeps the selection and brings it into view *)

Lemma ui_display_formats_frame (st : UIState) (ls : FormatListState) :
  let ls' := snd (ui_display_formats st (formats ls) ls) in
  selected_index ls' = selected_index ls
  /\ total_formats ls' = total_formats ls
  /\ visible_start ls' = visible_start ls
  /\ formats ls' = formats ls
  /\ (visible_lines ls' = visible_lines ls
      \/ visible_lines ls' = int_sub (content_height st) 4).
Proof.
  unfold ui_display_formats.
  destruct (formats ls) as [fs |] eqn:Hf; simpl; [| tauto].
  destruct (ncurses_available st); simpl; [| tauto].
  rewrite Hf. simpl. tauto.
Qed.

Lemma update_format_display_frame (st : UIState) (ls : FormatListState) :
  selected_index (update_format_display st ls) = selected_index ls
  /\ total_formats (update_format_display st ls) = total_formats ls
  /\ formats (update_format_display st ls) = formats ls.
Proof.
  unfold update_format_display.
  match goal with
  | |- context [ui_display_formats st (formats ?l) ?l] =>
      destruct (ui_display_formats_frame st l) as (Hs & Ht & _ & Hf & _);
      rewrite Hs, Ht, Hf
  end.
  repeat match goal with
  | |- context [if ?c then _ else _] => destruct c
  end; simpl; auto.
Qed.

(** After a move to any entry [s] of the list, [update_format_display]
    re-establishes the invariant. *)
Lemma update_format_display_ok (h : Z) (st : UIState) (ls : FormatListState)
    (s : Z) :
  5 <= h -> ui_ok h st -> list_ok h ls ->
  0 <= s <= total_formats ls - 1 ->
  list_ok h (update_format_display st (set_selected_index s ls)).
Proof.
  intros Hh [_ Hch] (Hvl & Hvs & [Hview Hsel] & Hmax) Hs.
  unfold update_format_display.
  match goal with
  | |- context [ui_display_formats st (formats ?l) ?l] =>
      destruct (ui_display_formats_frame st l) as (Es & Et & Ev & _ & El);
      set (ls' := snd (ui_display_formats st (formats l) l)) in *;
      assert (Hl : visible_lines ls' = h - 4)
  end.
  { destruct El as [El | El]; rewrite El.
    - repeat match goal with
      | |- context [if ?c then _ else _] => destruct c
      end; simpl; exact Hvl.
    - rewrite Hch. apply int_sub_exact. codes. lia. }
  unfold list_ok, list_invariant. rewrite Hl, Es, Et, Ev.
  clearbody ls'. clear Es Et Ev El Hl ls'.
  simpl. rewrite Hvl.
  rewrite (int_add_exact (visible_start ls) (h - 4)) by (codes; lia).
  rewrite (int_sub_exact s (h - 4)) by (codes; lia).
  rewrite (int_add_exact (s - (h - 4)) 1) by (codes; lia).
  rewrite Z.geb_leb.
  destruct (Z.ltb_spec s (visible_start ls));
    [| destruct (Z.leb_spec (visible_start ls + (h - 4)) s)];
    simpl; lia.
Qed.

Lemma list_ok_total (h : Z) (ls : FormatListState) :
  5 <= h -> list_ok h ls -> 1 <= total_formats ls <= INT_MAX - 5.
Proof. intros Hh (_ & _ & [_ Hsel] & Hmax). lia. Qed.

Lemma first_audio_from_range (ls : FormatListState) (fuel : nat) :
  forall i j, 0 <= i -> total_formats ls <= INT_MAX ->
  first_audio_from ls i fuel = Some j -> i <= j < total_formats ls.
Proof.
  induction fuel as [| k IH]; simpl; intros i j Hi Ht Hr; [discriminate |].
  destruct (Z.ltb_spec i (total_formats ls)); [| discriminate].
  destruct (is_audio_resolution _).
  - injection Hr as <-. lia.
  - apply IH in Hr; [| rewrite int_add_exact; codes; lia | exact Ht].
    rewrite int_add_exact in Hr by (codes; lia). lia.
Qed.

(** A shortcut either leaves the list state alone or selects an entry
    of the list. *)
Lemma handle_format_shortcut_cases (ch : Z) (ls : FormatListState) :
  1 <= total_formats ls <= INT_MAX ->
  (handle_format_shortcut ch ls = (0, ls))
  \/ (exists s, 0 <= s <= total_formats ls - 1
        /\ handle_format_shortcut ch ls = (1, set_selected_index s ls)).
Proof.
  intros Ht. unfold handle_format_shortcut.
  destruct ((ch =? chr "b") || (ch =? chr "B")).
  { right. exists 0. split; [lia | reflexivity]. }
  destruct ((ch =? chr "w") || (ch =? chr "W")).
  { right. exists (total_formats ls - 1).
    rewrite int_sub_exact by (codes; lia). split; [lia | reflexivity]. }
  destruct ((ch =? chr "a") || (ch =? chr "A")).
  { destruct (first_audio_from ls 0 _) as [j |] eqn:Hj; [| now left].
    right. exists j. split; [| reflexivity].
    apply first_audio_from_range in Hj; lia. }
  destruct ((ch >=? chr "1") && (ch <=? chr "9")) eqn:Hd; [| now left].
  apply andb_prop in Hd as [H1 H9]. codes.
  rewrite Z.geb_leb in H1. apply Z.leb_le in H1. apply Z.leb_le in H9.
  rewrite int_sub_exact by (codes; lia).
  destruct (Z.ltb_spec (ch - 49) (total_formats ls)); [| now left].
  right. exists (ch - 49). split; [lia | reflexivity].
Qed.

(** ** Every navigation action keeps the invariant *)

Section Navigation.

Variable h : Z.
Variable st : UIState.
Variable ls : FormatListState.
Hypothesis height : 5 <= h.
Hypothesis ui : ui_ok h st.
Hypothesis inv : list_ok h ls.

Let total_bounds := list_ok_total h ls height inv.

Lemma arrow_up_ok : list_ok h (arrow_up st ls).
Proof.
  unfold arrow_up. rewrite Z.gtb_ltb.
  destruct (Z.ltb_spec 0 (selected_index ls)); [| exact inv].
  pose proof inv as (_ & _ & [_ Hsel] & _).
  apply update_format_display_ok; auto.
  rewrite int_sub_exact; codes; lia.
Qed.

Lemma arrow_down_ok : list_ok h (arrow_down st ls).
Proof.
  unfold arrow_down. pose proof total_bounds as Ht.
  rewrite (int_sub_exact (total_formats ls) 1) by (codes; lia).
  destruct (Z.ltb_spec (selected_index ls) (total_formats ls - 1));
    [| exact inv].
  pose proof inv as (_ & _ & [_ Hsel] & _).
  apply update_format_display_ok; auto.
  rewrite int_add_exact; codes; lia.
Qed.

Lemma page_up_ok : list_ok h (page_up st ls).
Proof.
  unfold page_up. pose proof total_bounds as Ht.
  pose proof inv as (Hvl & _ & [_ Hsel] & Hmax).
  apply update_format_display_ok; auto.
  rewrite Hvl, int_sub_exact by (codes; lia).
  destruct (Z.ltb_spec (selected_index ls - (h - 4)) 0); lia.
Qed.

Lemma page_down_ok : list_ok h (page_down st ls).
Proof.
  unfold page_down. pose proof total_bounds as Ht.
  pose proof inv as (Hvl & _ & [_ Hsel] & Hmax).
  apply update_format_display_ok; auto.
  rewrite Hvl, int_add_exact by (codes; lia).
  rewrite (int_sub_exact (total_formats ls) 1) by (codes; lia).
  rewrite Z.geb_leb.
  destruct (Z.leb_spec (total_formats ls) (selected_index ls + (h - 4)));
    lia.
Qed.

Lemma key_home_ok : list_ok h (key_home st ls).
Proof.
  unfold key_home. pose proof total_bounds as Ht.
  apply update_format_display_ok; auto. lia.
Qed.

Lemma key_end_ok : list_ok h (key_end st ls).
Proof.
  unfold key_end. pose proof total_bounds as Ht.
  apply update_format_display_ok; auto.
  rewrite int_sub_exact; codes; lia.
Qed.

Lemma shortcut_ok (ch : Z) :
  list_ok h (if fst (handle_format_shortcut ch ls) =? 0 then ls
             else update_format_display st
                    (snd (handle_format_shortcut ch ls))).
Proof.
  pose proof total_bounds as Ht.
  destruct (handle_format_shortcut_cases ch ls) as [E | (s & Hs & E)];
    [codes; lia | |]; rewrite E; simpl; [exact inv |].
  apply update_format_display_ok; auto.
Qed.

End Navigation.

Lemma ui_ok_set_content_delay (h d : Z) (st : UIState) :
  ui_ok h st -> ui_ok h (set_content_delay d st).
Proof. intros [Hr Hc]. split; assumption. Qed.

Lemma ui_handle_resize_none (st : UIState) :
  resize_pending st = false -> ui_handle_resize st = st.
Proof. intros H. unfold ui_handle_resize. now rewrite H. Qed.

Lemma escape_bracket_ok (h : Z) (st : UIState) (ls : FormatListState)
    (third_ch : Z) (rest : input) :
  5 <= h -> ui_ok h st -> list_ok h ls ->
  match escape_bracket st ls third_ch rest with
  | Some (ls', _) => list_ok h ls'
  | None => True
  end.
Proof.
  intros Hh Hui Hls. unfold escape_bracket.
  repeat match goal with
  | |- context [if ?c =? ?k then _ else _] => destruct (c =? k)
  | |- context [match wgetch ?d ?i with _ => _ end] =>
      destruct (wgetch d i) as [[? ?] |]
  end;
  auto using arrow_up_ok, arrow_down_ok, page_up_ok, page_down_ok.
Qed.

Lemma escape_key_ok (h : Z) (st : UIState) (ls : FormatListState)
    (rest : input) :
  5 <= h -> ui_ok h st -> list_ok h ls ->
  match escape_key st ls rest with
  | Continue st' ls' _ | Stop _ st' ls' _ | Blocked st' ls' =>
      ui_ok h st' /\ list_ok h ls'
  end.
Proof.
  intros Hh Hui Hls. unfold escape_key.
  pose proof (ui_ok_set_content_delay h 100 st Hui) as Hui1.
  pose proof (ui_ok_set_content_delay h (-1) _ Hui1) as Hui2.
  destruct (wgetch _ rest) as [[next_ch rest1] |]; [| auto].
  destruct (next_ch =? ERR); [auto |].
  destruct (next_ch =? chr "["); [| auto].
  destruct (wgetch _ rest1) as [[third_ch rest2] |]; [| auto].
  pose proof (escape_bracket_ok h _ ls third_ch rest2 Hh Hui1 Hls) as Hb.
  destruct (escape_bracket _ ls third_ch rest2) as [[ls' rest3] |]; auto.
Qed.

(** One pass of the loop keeps the invariant, whatever is read. *)
Lemma select_step_ok (h : Z) (st : UIState) (ls : FormatListState)
    (inp : input) :
  5 <= h -> ui_ok h st -> list_ok h ls ->
  match select_step st ls inp with
  | Continue st' ls' _ | Stop _ st' ls' _ | Blocked st' ls' =>
      ui_ok h st' /\ list_ok h ls'
  end.
Proof.
  intros Hh Hui Hls. unfold select_step.
  rewrite (ui_handle_resize_none st (proj1 Hui)).
  destruct (wgetch _ inp) as [[ch rest] |]; [| auto].
  destruct (ch =? KEY_UP); [auto using arrow_up_ok |].
  destruct (ch =? KEY_DOWN); [auto using arrow_down_ok |].
  destruct (ch =? KEY_PPAGE); [auto using page_up_ok |].
  destruct (ch =? KEY_NPAGE); [auto using page_down_ok |].
  destruct (ch =? KEY_HOME); [auto using key_home_ok |].
  destruct (ch =? KEY_END); [auto using key_end_ok |].
  destruct ((ch =? 10) || (ch =? 13) || (ch =? KEY_ENTER)); [auto |].
  destruct (ch =? 27); [now apply escape_key_ok |].
  destruct ((ch =? chr "q") || (ch =? chr "Q")); [auto |].
  pose proof (shortcut_ok h st ls Hh Hui Hls ch) as Hk.
  destruct (handle_format_shortcut ch ls) as [handled ls'].
  simpl in Hk. destruct (handled =? 0); auto.
Qed.

Lemma select_loop_ok (h : Z) (fuel : nat) :
  5 <= h ->
  forall st ls inp, ui_ok h st -> list_ok h ls ->
  Forall (list_ok h) (sel_history (select_loop fuel st ls inp))
  /\ list_ok h (sel_list (select_loop fuel st ls inp)).
Proof.
  intros Hh. induction fuel as [| k IH]; intros st ls inp Hui Hls; simpl.
  - split; [constructor | exact Hls].
  - destruct (shutdown_pending st); simpl.
    { split; [constructor | exact Hls]. }
    pose proof (select_step_ok h st ls inp Hh Hui Hls) as Hstep.
    destruct (select_step st ls inp) as [st' ls' rest | r st' ls' rest | st' ls'];
      destruct Hstep as [Hui' Hls']; simpl.
    + destruct (IH st' ls' rest Hui' Hls') as [Hhist Hfin].
      split; [constructor; assumption | exact Hfin].
    + split; [constructor; [assumption | constructor] | exact Hls'].
    + split; [constructor | exact Hls'].
Qed.

(** ** The loop always gets enough passes *)

Lemma wgetch_length (d c : Z) (inp rest : input) :
  wgetch d inp = Some (c, rest) ->
  (length rest <= length inp)%nat
  /\ (d < 0 -> (length rest < length inp)%nat).
Proof.
  unfold wgetch. destruct inp as [| [g k] tl].
  - destruct (Z.ltb_spec d 0); [discriminate |].
    intros [= <- <-]. simpl. split; [lia | lia].
  - destruct (Z.ltb_spec d 0); simpl.
    + intros [= <- <-]. simpl. split; lia.
    + destruct (g <=? d); intros [= <- <-]; simpl; split; lia.
Qed.

Lemma escape_bracket_length (st : UIState) (ls ls' : FormatListState)
    (c : Z) (rest rest' : input) :
  escape_bracket st ls c rest = Some (ls', rest') ->
  (length rest' <= length rest)%nat.
Proof.
  unfold escape_bracket.
  repeat match goal with
  | |- context [if ?x =? ?k then _ else _] => destruct (x =? k)
  end;
  try (intros [= <- <-]; lia);
  destruct (wgetch _ rest) as [[k r] |] eqn:Hw; try discriminate;
  intros [= <- <-]; apply wgetch_length in Hw; lia.
Qed.

Lemma escape_key_length (st : UIState) (ls : FormatListState) (rest : input) :
  match escape_key st ls rest with
  | Continue st' _ rest' =>
      content_delay st' < 0 /\ (length rest' <= length rest)%nat
  | _ => True
  end.
Proof.
  unfold escape_key.
  destruct (wgetch _ rest) as [[next_ch rest1] |] eqn:H1; [| exact I].
  apply wgetch_length in H1 as [H1 _].
  destruct (next_ch =? ERR); [exact I |].
  destruct (next_ch =? chr "["); [| simpl; lia].
  destruct (wgetch _ rest1) as [[third_ch rest2] |] eqn:H2; [| exact I].
  apply wgetch_length in H2 as [H2 _].
  destruct (escape_bracket _ ls third_ch rest2) as [[ls' rest3] |] eqn:H3;
    [| exact I].
  apply escape_bracket_length in H3. simpl. lia.
Qed.

Lemma select_step_consumes (st : UIState) (ls : FormatListState)
    (inp : input) :
  content_delay st < 0 ->
  match select_step st ls inp with
  | Continue st' _ rest =>
      content_delay st' < 0 /\ (length rest < length inp)%nat
  | _ => True
  end.
Proof.
  intros Hd. unfold select_step.
  assert (Hd' : content_delay (ui_handle_resize st) < 0).
  { unfold ui_handle_resize. destruct (resize_pending st); simpl; lia. }
  destruct (wgetch _ inp) as [[ch rest] |] eqn:Hw; [| exact I].
  apply wgetch_length in Hw as [_ Hw]. specialize (Hw Hd').
  destruct (ch =? KEY_UP); [auto |].
  destruct (ch =? KEY_DOWN); [auto |].
  destruct (ch =? KEY_PPAGE); [auto |].
  destruct (ch =? KEY_NPAGE); [auto |].
  destruct (ch =? KEY_HOME); [auto |].
  destruct (ch =? KEY_END); [auto |].
  destruct ((ch =? 10) || (ch =? 13) || (ch =? KEY_ENTER)); [exact I |].
  destruct (ch =? 27).
  { pose proof (escape_key_length (ui_handle_resize st) ls rest) as He.
    destruct (escape_key _ ls rest); try exact I.
    destruct He as [He1 He2]. split; [exact He1 | lia]. }
  destruct ((ch =? chr "q") || (ch =? chr "Q")); [exact I |].
  destruct (handle_format_shortcut ch ls) as [handled ls'].
  destruct (handled =? 0); auto.
Qed.

Lemma select_loop_enough_fuel (fuel : nat) :
  forall st ls inp,
  content_delay st < 0 -> (length inp < fuel)%nat ->
  sel_outcome (select_loop fuel st ls inp) <> OutOfFuel.
Proof.
  induction fuel as [| k IH]; intros st ls inp Hd Hlen; [lia |].
  simpl. destruct (shutdown_pending st); [discriminate |].
  pose proof (select_step_consumes st ls inp Hd) as Hc.
  destruct (select_step st ls inp) as [st' ls' rest | r st' ls' rest | st' ls'];
    simpl; try discriminate.
  destruct Hc as [Hd' Hlt]. apply IH; [exact Hd' | lia].
Qed.

(** ** The selected entry stays in the viewport *)

Lemma initial_list_ok (st : UIState) (fs : list format) :
  fs <> [] -> ncurses_available st = true ->
  5 <= content_height st ->
  Z.of_nat (length fs) + content_height st <= INT_MAX ->
  list_ok (content_height st) (initial_list st fs).
Proof.
  intros Hfs Hn Hh Hmax.
  assert (1 <= Z.of_nat (length fs)) by (destruct fs; simpl; [easy | lia]).
  unfold initial_list, ui_display_formats. rewrite Hn. simpl.
  unfold list_ok, list_invariant, json_array_size. simpl.
  rewrite int_sub_exact by (codes; lia).
  rewrite int_of_id by (codes; lia). lia.
Qed.

(** C1, as the code has it. In a content window of at least 5 rows
    that is not resized during the session, for every non-empty format
    list and every input, the list state satisfies
    [visible_start <= selected_index < visible_start + visible_lines]
    and [0 <= selected_index <= total_formats - 1] when the loop is
    entered, after each pass of the loop (whatever key or escape
    sequence it handled) and at the end; the loop never needs more
    passes than there are pending codes. *)
Theorem selection_keeps_invariant (st : UIState) (fs : list format)
    (inp : input) :
  fs <> [] ->
  ncurses_available st = true ->
  steady st ->
  5 <= content_height st ->
  Z.of_nat (length fs) + content_height st <= INT_MAX ->
  list_invariant (initial_list st fs)
  /\ Forall list_invariant
       (sel_history (ui_select_format_interactive st (initial_list st fs) inp))
  /\ list_invariant
       (sel_list (ui_select_format_interactive st (initial_list st fs) inp))
  /\ sel_outcome (ui_select_format_interactive st (initial_list st fs) inp)
     <> OutOfFuel.
Proof.
  intros Hfs Hn [Hr Hd] Hh Hmax.
  pose proof (initial_list_ok st fs Hfs Hn Hh Hmax) as H0.
  unfold ui_select_format_interactive. rewrite Hn. simpl negb. cbv iota.
  assert (Hui : ui_ok (content_height st) (set_stdscr_delay (-1) st))
    by (split; [exact Hr | reflexivity]).
  destruct (select_loop_ok (content_height st) (S (length inp)) Hh
              _ (initial_list st fs) inp Hui H0) as [Hhist Hfin].
  split; [exact (proj1 (proj2 (proj2 H0))) |].
  split; [| split].
  - eapply Forall_impl; [exact Hhist |].
    intros ls Hls. exact (proj1 (proj2 (proj2 Hls))).
  - exact (proj1 (proj2 (proj2 Hfin))).
  - apply select_loop_enough_fuel; [simpl; lia | lia].
Qed.

Lemma selection_keeps_invariant_on_19_rows :
  Forall list_invariant
    (sel_history
       (run_selection 19 [sample_format; sample_format; sample_format]
          (typed [KEY_DOWN; KEY_NPAGE; chr "b"; 27; chr "["; chr "B"]))).
Proof.
  refine (proj1 (proj2
    (selection_keeps_invariant (ui_for_terminal 19 80)
       [sample_format; sample_format; sample_format]
       (typed [KEY_DOWN; KEY_NPAGE; chr "b"; 27; chr "["; chr "B"])
       _ _ _ _ _))).
  - discriminate.
  - reflexivity.
  - split; reflexivity.
  - vm_compute. discriminate.
  - vm_compute. discriminate.
Defined.

(** C1 fails as stated: on a terminal of 9 rows [visible_lines] is 0,
    and after the Home key the selected entry 0 is outside the viewport,
    which starts at row 1 and is empty. *)
Lemma invariant_broken_on_9_rows :
  ~ Forall list_invariant
      (sel_history (run_selection 9 [sample_format] (typed [KEY_HOME]))).
Proof.
  intros H.
  assert (E : sel_history (run_selection 9 [sample_format] (typed [KEY_HOME]))
              = [ {| visible_start := 1; visible_lines := 0;
                     selected_index := 0; total_formats := 1;
                     formats := Some [sample_format] |} ])
    by (vm_compute; reflexivity).
  rewrite E in H. apply Forall_inv in H.
  unfold list_invariant in H. simpl in H. lia.
Qed.

(** Fifteen formats in a viewport of ten lines: after twelve presses of
    Down the entry 12 is selected and the rows 3 to 12 are drawn. *)
Example twelve_times_down :
  let s := run_selection 19 fifteen_formats (typed (repeat KEY_DOWN 12)) in
  selected_index (sel_list s) = 12
  /\ visible_start (sel_list s) = 3
  /\ visible_lines (sel_list s) = 10
  /\ drawn_rows (sel_list s) = [3; 4; 5; 6; 7; 8; 9; 10; 11; 12].
Proof. vm_compute. auto. Qed.

(** ** Reading a key in the steady state *)

Lemma wgetch_blocking (g c : Z) (rest : input) :
  wgetch (-1) (Pending g c :: rest) = Some (c, rest).
Proof. reflexivity. Qed.

Lemma wgetch_in_time (g c : Z) (rest : input) :
  g <= 100 -> wgetch 100 (Pending g c :: rest) = Some (c, rest).
Proof. intros H. unfold wgetch. simpl. now decide_tests. Qed.

Lemma wgetch_timeout (g c : Z) (rest : input) :
  100 < g -> wgetch 100 (Pending g c :: rest)
             = Some (ERR, Pending (g - 100) c :: rest).
Proof. intros H. unfold wgetch. simpl. now decide_tests. Qed.

Lemma set_content_delay_restore (st : UIState) (d : Z) :
  content_delay st = -1 ->
  set_content_delay (-1) (set_content_delay d st) = st.
Proof. destruct st. simpl. intros ->. reflexivity. Qed.


Lemma index_in_range_update (st : UIState) (ls : FormatListState) (s : Z) :
  0 <= s <= total_formats ls - 1 ->
  index_in_range (update_format_display st (set_selected_index s ls)).
Proof.
  intros Hs. unfold index_in_range.
  destruct (update_format_display_frame st (set_selected_index s ls))
    as (-> & -> & _).
  exact Hs.
Qed.

(** ** Digit shortcuts *)

(** C9. For every list state and digit key ['1']..['9'] (code
    ['0' + d]), [handle_format_shortcut] selects the zero-based index
    [d - 1] when it is below [total_formats] and otherwise reports the
    key as not handled and leaves the state alone; in the loop the pass
    continues, with the index set to [d - 1] or the whole list state
    unchanged. *)
Theorem digit_shortcut_selects (ls : FormatListState) (d : Z) :
  1 <= d <= 9 ->
  handle_format_shortcut (chr "0" + d) ls
  = (if d - 1 <? total_formats ls
     then (1, set_selected_index (d - 1) ls) else (0, ls))
  /\ (forall st g rest, steady st ->
        exists ls',
          select_step st ls (Pending g (chr "0" + d) :: rest)
          = Continue st ls' rest
          /\ selected_index ls'
             = (if d - 1 <? total_formats ls then d - 1
                else selected_index ls)
          /\ (total_formats ls <= d - 1 -> ls' = ls)).
Proof.
  intros Hd.
  assert (E : handle_format_shortcut (chr "0" + d) ls
              = (if d - 1 <? total_formats ls
                 then (1, set_selected_index (d - 1) ls) else (0, ls))).
  { unfold handle_format_shortcut. codes. decide_tests. simpl.
    rewrite int_sub_exact by (codes; lia).
    replace (48 + d - 49) with (d - 1) by lia. reflexivity. }
  split; [exact E |].
  intros st g rest [Hr Hdl]. unfold select_step.
  rewrite (ui_handle_resize_none st Hr), Hdl, wgetch_blocking, E.
  codes. decide_tests. simpl.
  destruct (Z.ltb_spec (d - 1) (total_formats ls)); simpl.
  - eexists. split; [reflexivity |]. split; [| lia].
    apply update_format_display_frame.
  - exists ls. auto.
Qed.

Lemma digit_5_on_five_formats :
  handle_format_shortcut (chr "5") (demo_list 0)
  = (1, set_selected_index 4 (demo_list 0))
  /\ exists ls',
       select_step demo_ui (demo_list 0) (typed [chr "9"])
       = Continue demo_ui ls' []
       /\ selected_index ls' = 0.
Proof.
  split.
  - exact (proj1 (digit_shortcut_selects (demo_list 0) 5 ltac:(lia))).
  - destruct (proj2 (digit_shortcut_selects (demo_list 0) 9 ltac:(lia))
                demo_ui 0 [] (conj eq_refl eq_refl))
      as (ls' & Hstep & Hsel & _).
    exists ls'. split; [exact Hstep | exact Hsel].
Defined.

Example digit_5_selects_index_4 :
  selected_index
    (sel_list (run_selection 24 five_formats (typed [chr "5"]))) = 4.
Proof. reflexivity. Qed.

Example digit_9_is_ignored :
  sel_list (run_selection 24 five_formats (typed [KEY_DOWN; chr "9"]))
  = sel_list (run_selection 24 five_formats (typed [KEY_DOWN])).
Proof. reflexivity. Qed.

(** ** Navigation keeps the index in the list *)

(** C8, as the code has it. For a list of at least one format whose
    selected index is in [0 .. total_formats - 1]: the Down key at the
    last index leaves the whole list state (index and viewport start)
    unchanged; Up, Down, Home and End leave the index in range; Page Up
    and Page Down leave it in range when [visible_lines] is not
    negative. *)
Theorem navigation_keeps_index_in_range (st : UIState) (ls : FormatListState)
    (g : Z) (rest : input) :
  steady st ->
  1 <= total_formats ls <= INT_MAX ->
  index_in_range ls ->
  (selected_index ls = total_formats ls - 1 ->
     select_step st ls (Pending g KEY_DOWN :: rest) = Continue st ls rest)
  /\ (forall ch, In ch [KEY_UP; KEY_DOWN; KEY_HOME; KEY_END] ->
        exists ls',
          select_step st ls (Pending g ch :: rest) = Continue st ls' rest
          /\ index_in_range ls')
  /\ (0 <= visible_lines ls ->
      total_formats ls + visible_lines ls <= INT_MAX ->
      forall ch, In ch [KEY_PPAGE; KEY_NPAGE] ->
        exists ls',
          select_step st ls (Pending g ch :: rest) = Continue st ls' rest
          /\ index_in_range ls').
Proof.
  intros [Hr Hd] Ht Hsel. unfold index_in_range in Hsel.
  unfold select_step.
  rewrite !(ui_handle_resize_none st Hr), Hd.
  split; [| split].
  - intros Hlast. rewrite wgetch_blocking. codes. decide_tests.
    unfold arrow_down. rewrite int_sub_exact by (codes; lia).
    now decide_tests.
  - intros ch Hch. rewrite wgetch_blocking. simpl in Hch.
    destruct Hch as [<- | [<- | [<- | [<- | []]]]]; codes; decide_tests;
      eexists; (split; [reflexivity |]).
    + unfold arrow_up. rewrite Z.gtb_ltb.
      destruct (Z.ltb_spec 0 (selected_index ls)); [| exact Hsel].
      apply index_in_range_update. rewrite int_sub_exact; codes; lia.
    + unfold arrow_down. rewrite int_sub_exact by (codes; lia).
      destruct (Z.ltb_spec (selected_index ls) (total_formats ls - 1));
        [| exact Hsel].
      apply index_in_range_update. rewrite int_add_exact; codes; lia.
    + apply index_in_range_update. lia.
    + apply index_in_range_update. rewrite int_sub_exact; codes; lia.
  - intros Hvl Hmax ch Hch. rewrite wgetch_blocking. simpl in Hch.
    destruct Hch as [<- | [<- | []]]; codes; decide_tests;
      eexists; (split; [reflexivity |]); apply index_in_range_update.
    + rewrite int_sub_exact by (codes; lia).
      destruct (Z.ltb_spec (selected_index ls - visible_lines ls) 0); lia.
    + rewrite int_add_exact by (codes; lia).
      rewrite (int_sub_exact (total_formats ls) 1) by (codes; lia).
      rewrite Z.geb_leb.
      destruct (Z.leb_spec (total_formats ls)
                  (selected_index ls + visible_lines ls)); lia.
Qed.

Lemma down_at_last_index_is_no_op :
  select_step demo_ui (demo_list 4) (typed [KEY_DOWN])
  = Continue demo_ui (demo_list 4) []
  /\ (exists ls',
        select_step demo_ui (demo_list 4) (typed [KEY_UP])
        = Continue demo_ui ls' []
        /\ index_in_range ls')
  /\ (exists ls',
        select_step demo_ui (demo_list 4) (typed [KEY_NPAGE])
        = Continue demo_ui ls' []
        /\ index_in_range ls').
Proof.
  destruct (navigation_keeps_index_in_range demo_ui (demo_list 4) 0 []
              (conj eq_refl eq_refl)
              ltac:(vm_compute; split; discriminate)
              ltac:(vm_compute; split; discriminate))
    as (Hlast & Harrow & Hpage).
  split; [| split].
  - apply Hlast. reflexivity.
  - apply Harrow. simpl. auto.
  - apply Hpage.
    + vm_compute. discriminate.
    + vm_compute. discriminate.
    + simpl. auto.
Defined.

(** C8 fails as stated for paging: on a terminal of 8 rows
    [visible_lines] is -1, and Page Up on a one-entry list moves the
    selected index from 0 to 1, past the last index 0. *)
Lemma page_up_leaves_range_on_8_rows :
  index_in_range (initial_list (ui_for_terminal 8 80) [sample_format])
  /\ ~ index_in_range
         (sel_list (run_selection 8 [sample_format] (typed [KEY_PPAGE]))).
Proof.
  split.
  - vm_compute. split; discriminate.
  - assert (E : sel_list (run_selection 8 [sample_format] (typed [KEY_PPAGE]))
                = {| visible_start := 3; visible_lines := -1;
                     selected_index := 1; total_formats := 1;
                     formats := Some [sample_format] |})
      by (vm_compute; reflexivity).
    rewrite E. unfold index_in_range. simpl. lia.
Qed.

(** ** Keys that end the loop *)

Lemma select_loop_stop (k : nat) (st st' : UIState) (ls ls' : FormatListState)
    (inp rest : input) (r : option string) :
  shutdown_pending st = false ->
  select_step st ls inp = Stop r st' ls' rest ->
  sel_outcome (select_loop (S k) st ls inp) = Returned r
  /\ sel_list (select_loop (S k) st ls inp) = ls'.
Proof. intros Hs Hstep. simpl. rewrite Hs, Hstep. simpl. auto. Qed.

Lemma steady_set_stdscr_delay (st : UIState) (d : Z) :
  steady st -> steady (set_stdscr_delay d st).
Proof. intros [Hr Hd]. split; assumption. Qed.

Lemma select_step_escape (st : UIState) (ls : FormatListState) (g : Z)
    (rest : input) :
  steady st ->
  select_step st ls (Pending g 27 :: rest) = escape_key st ls rest.
Proof.
  intros [Hr Hd]. unfold select_step.
  rewrite (ui_handle_resize_none st Hr), Hd, wgetch_blocking. reflexivity.
Qed.

Lemma lone_escape_stops (st : UIState) (ls : FormatListState) (g : Z) :
  steady st -> select_step st ls [Pending g 27] = Stop None st ls [].
Proof.
  intros Hst. rewrite (select_step_escape st ls g [] Hst).
  unfold escape_key. simpl.
  now rewrite (set_content_delay_restore st 100 (proj2 Hst)).
Qed.

Lemma enter_stops (st : UIState) (ls : FormatListState) (g ch : Z)
    (rest : input) :
  steady st -> In ch [10; 13; KEY_ENTER] ->
  select_step st ls (Pending g ch :: rest)
  = Stop (confirm_selection ls) st ls rest.
Proof.
  intros [Hr Hd] Hch. unfold select_step.
  rewrite (ui_handle_resize_none st Hr), Hd, wgetch_blocking.
  simpl in Hch. destruct Hch as [<- | [<- | [<- | []]]];
    codes; now decide_tests.
Qed.

Lemma quit_stops (st : UIState) (ls : FormatListState) (g ch : Z)
    (rest : input) :
  steady st -> In ch [chr "q"; chr "Q"] ->
  select_step st ls (Pending g ch :: rest) = Stop None st ls rest.
Proof.
  intros [Hr Hd] Hch. unfold select_step.
  rewrite (ui_handle_resize_none st Hr), Hd, wgetch_blocking.
  simpl in Hch. destruct Hch as [<- | [<- | []]];
    codes; now decide_tests.
Qed.

(** The value a one-key session returns when that key ends the loop. *)
Lemma one_key_session (st : UIState) (ls : FormatListState) (inp : input)
    (r : option string) :
  ncurses_available st = true -> shutdown_pending st = false ->
  (forall st', steady st' -> exists rest,
     select_step st' ls inp = Stop r st' ls rest) ->
  steady st ->
  sel_outcome (ui_select_format_interactive st ls inp) = Returned r.
Proof.
  intros Hn Hs Hstep Hst. unfold ui_select_format_interactive. rewrite Hn.
  simpl negb. cbv iota.
  destruct (Hstep _ (steady_set_stdscr_delay st (-1) Hst)) as [rest E].
  eapply select_loop_stop; [exact Hs | exact E].
Qed.

(** ** Escape: cancel key or start of a sequence *)



Example lone_escape_cancels :
  sel_outcome (run_selection 24 five_formats (typed [KEY_DOWN; 27]))
  = Returned None.
Proof. reflexivity. Qed.

Example escape_sequence_moves_up :
  selected_index
    (sel_list (run_selection 24 five_formats
                 (typed [KEY_DOWN; KEY_DOWN; 27; chr "["; chr "A"]))) = 1
  /\ sel_outcome (run_selection 24 five_formats
                    (typed [KEY_DOWN; KEY_DOWN; 27; chr "["; chr "A"]))
     = Waiting.
Proof. split; reflexivity. Qed.

Example escape_then_other_byte_is_dropped :
  sel_list (run_selection 24 five_formats (typed [KEY_DOWN; 27; chr "x"]))
  = sel_list (run_selection 24 five_formats (typed [KEY_DOWN]))
  /\ sel_outcome (run_selection 24 five_formats (typed [KEY_DOWN; 27; chr "x"]))
     = Waiting.
Proof. split; reflexivity. Qed.

(** ** What the selection returns *)

(** C5, as the code has it. In the steady state, Enter (line feed,
    carriage return or [KEY_ENTER]) ends the loop with a copy of the
    [format_id] string of the entry at [selected_index], and NULL when
    that entry has no such string; the quit keys and a lone escape end
    it with NULL; a session that cannot start because curses is not
    available returns the same NULL, so the return value does not tell a
    cancellation from that error. *)
Theorem selection_result (st : UIState) (ls : FormatListState) (g : Z)
    (rest : input) :
  steady st ->
  (forall ch, In ch [10; 13; KEY_ENTER] ->
     select_step st ls (Pending g ch :: rest)
     = Stop (confirm_selection ls) st ls rest)
  /\ (forall fs fmt, formats ls = Some fs -> 0 <= selected_index ls ->
        fs !! Z.to_nat (selected_index ls) = Some fmt ->
        confirm_selection ls = format_id fmt)
  /\ (forall ch, In ch [chr "q"; chr "Q"] ->
        select_step st ls (Pending g ch :: rest) = Stop None st ls rest)
  /\ select_step st ls [Pending g 27] = Stop None st ls []
  /\ (ncurses_available st = true -> shutdown_pending st = false ->
      sel_outcome (ui_select_format_interactive st ls [Pending g 10])
      = Returned (confirm_selection ls)
      /\ sel_outcome (ui_select_format_interactive st ls [Pending g (chr "q")])
         = Returned None
      /\ sel_outcome (ui_select_format_interactive st ls [Pending g 27])
         = Returned None)
  /\ (forall st' inp, ncurses_available st' = false ->
        sel_outcome (ui_select_format_interactive st' ls inp)
        = Returned None).
Proof.
  intros Hst.
  split; [| split; [| split; [| split; [| split]]]].
  - intros ch Hch. now apply enter_stops.
  - intros fs fmt Hf Hs Hl. unfold confirm_selection, json_array_get.
    rewrite Hf. decide_tests. now rewrite Hl.
  - intros ch Hch. now apply quit_stops.
  - now apply lone_escape_stops.
  - intros Hn Hs.
    split; [| split]; apply one_key_session; auto; intros st' Hst'; exists [].
    + apply enter_stops; [exact Hst' | simpl; auto].
    + apply quit_stops; [exact Hst' | simpl; auto].
    + now apply lone_escape_stops.
  - intros st' inp Hn. unfold ui_select_format_interactive.
    now rewrite Hn.
Qed.

Lemma enter_returns_selected_format_id :
  sel_outcome (ui_select_format_interactive demo_ui (demo_list 3) (typed [10]))
  = Returned (confirm_selection (demo_list 3))
  /\ confirm_selection (demo_list 3) = Some "140"
  /\ sel_outcome
       (ui_select_format_interactive demo_ui (demo_list 3) (typed [chr "q"]))
     = Returned None
  /\ sel_outcome
       (ui_select_format_interactive ui_unavailable (demo_list 3) (typed [10]))
     = Returned None.
Proof.
  destruct (selection_result demo_ui (demo_list 3) 0 [] (conj eq_refl eq_refl))
    as (_ & Hid & _ & _ & Hsession & Herror).
  destruct (Hsession eq_refl eq_refl) as (Henter & Hquit & _).
  split; [exact Henter |]. split; [| split; [exact Hquit |]].
  - apply (Hid five_formats
             (Format (Some "140") (Some "audio only") (Some "m4a") (Some 111)));
      [reflexivity | vm_compute; discriminate | reflexivity].
  - apply Herror. reflexivity.
Defined.

(** C5 fails as stated: quitting a session and failing to start one
    (curses not available) return the same value, NULL. *)
Lemma cancel_and_error_return_the_same :
  sel_outcome (run_selection 24 five_formats (typed [chr "q"]))
  = Returned None
  /\ sel_outcome
       (ui_select_format_interactive ui_unavailable
          (initial_list (ui_for_terminal 24 80) five_formats)
          (typed [10]))
     = Returned None
  /\ ~ (sel_outcome (run_selection 24 five_formats (typed [chr "q"]))
        <> sel_outcome
             (ui_select_format_interactive ui_unavailable
                (initial_list (ui_for_terminal 24 80) five_formats)
                (typed [10]))).
Proof.
  split; [reflexivity |]. split; [reflexivity |].
  intros H. apply H. reflexivity.
Qed.

(** ** The speed estimate *)

Lemma ui_calculate_speed_nonneg (p : DownloadProgress) :
  (0 <= ui_calculate_speed p)%Q.
Proof.
  unfold ui_calculate_speed.
  destruct (sample_index p =? 0); [apply Qle_refl |].
  destruct (_ || _); [apply Qle_refl |].
  destruct (Qle_bool _ 0) eqn:Ht; [apply Qle_refl |].
  destruct (Z.ltb_spec (llong_sub (bytes (sample_at p
              (Z.rem (int_add (int_sub (sample_index p) 1) SPEED_SAMPLE_SIZE)
                     SPEED_SAMPLE_SIZE)))
              (bytes (sample_at p 0))) 0) as [Hb | Hb]; [apply Qle_refl |].
  apply DoubleFacts.div_nonneg.
  - now apply DoubleFacts.of_Z_nonneg.
  - apply Qnot_le_lt. intros Hle. apply Qle_bool_iff in Hle. congruence.
Qed.

Lemma llong_of_id (z : Z) : LLONG_MIN <= z <= LLONG_MAX -> llong_of z = z.
Proof.
  unfold LLONG_MIN, LLONG_MAX, llong_of, wrap.
  change (2 ^ (64 - 1)) with 9223372036854775808.
  change (2 ^ 63) with 9223372036854775808.
  change (2 ^ 64) with 18446744073709551616.
  intros Hz. rewrite Z.mod_small; lia.
Qed.

(** The ring is only ever indexed inside its ten slots. *)
Lemma ring_indices_in_range (now : Z) (p : DownloadProgress)
    (downloaded total : Z) :
  0 <= sample_index p < SPEED_SAMPLE_SIZE ->
  0 <= sample_index (ui_update_progress now p downloaded total)
    < SPEED_SAMPLE_SIZE
  /\ 0 <= Z.rem (int_add (int_sub (sample_index p) 1) SPEED_SAMPLE_SIZE)
               SPEED_SAMPLE_SIZE
       < SPEED_SAMPLE_SIZE.
Proof.
  unfold SPEED_SAMPLE_SIZE. intros Hi.
  rewrite (int_sub_exact (sample_index p) 1) by (codes; lia).
  rewrite (int_add_exact (sample_index p - 1) 10) by (codes; lia).
  split.
  - unfold ui_update_progress, record_sample. simpl.
    destruct (negb _); simpl; [| exact Hi].
    unfold SPEED_SAMPLE_SIZE.
    rewrite int_add_exact by (codes; lia).
    rewrite Z.rem_mod_nonneg by lia.
    apply Z.mod_pos_bound. lia.
  - rewrite Z.rem_mod_nonneg by lia. apply Z.mod_pos_bound. lia.
Qed.

(** C2. What the code returns on the inputs of the claim, at every
    clock. On a zeroed progress record the estimate after two calls of
    [ui_update_progress] is 0 whatever the two clock values and byte
    counts are, also where two samples one second and 1000 bytes apart
    should give 1000: the two samples go to slots 1 and 2 of the ring,
    while [ui_calculate_speed] compares slot 0, which is still empty,
    with the slot before the write position. The other parts of the
    claim hold: after a single call the estimate is 0; on every
    progress record it is 0 when the newer of the two compared samples
    has fewer bytes than the older one, and it is never negative. *)
Theorem speed_estimate_first_calls (p : DownloadProgress)
    (total t1 b1 t2 b2 : Z) :
  ui_calculate_speed (feed total [(t1, b1); (t2, b2)] progress_zero) = 0%Q
  /\ ui_calculate_speed (feed total [(t1, b1)] progress_zero) = 0%Q
  /\ (LLONG_MIN <= bytes (newest_sample p) - bytes (oldest_sample p) < 0 ->
      ui_calculate_speed p = 0%Q)
  /\ (0 <= ui_calculate_speed p)%Q.
Proof.
  split; [| split; [| split]].
  - unfold feed. cbn [fold_left].
    unfold ui_update_progress at 2. unfold record_sample. simpl.
    destruct (Z.eqb_spec t1 0) as [-> | H1]; simpl;
      unfold ui_update_progress, record_sample; simpl.
    + destruct (Z.eqb_spec t2 0) as [-> | H2]; simpl; reflexivity.
    + destruct (Z.eqb_spec t2 t1) as [-> | H2]; simpl; reflexivity.
  - unfold feed. cbn [fold_left].
    unfold ui_update_progress, record_sample. simpl.
    destruct (Z.eqb_spec t1 0) as [-> | H1]; simpl; reflexivity.
  - unfold newest_sample, oldest_sample. intros Hb.
    unfold ui_calculate_speed.
    destruct (sample_index p =? 0); [reflexivity |].
    destruct (_ || _); [reflexivity |].
    destruct (Qle_bool _ 0); [reflexivity |].
    unfold llong_sub. rewrite llong_of_id by (unfold LLONG_MAX; lia).
    now decide_tests.
  - apply ui_calculate_speed_nonneg.
Qed.

Lemma speed_estimate_first_calls_at_a_real_clock :
  ui_calculate_speed
    (feed 5000 [(1700000000, 0); (1700000001, 1000)] progress_zero) = 0%Q
  /\ ui_calculate_speed
       (feed 50000 [(112, 0); (113, 0)]
          (feed 50000 (steady_calls 100 12) progress_zero)) = 0%Q.
Proof.
  split.
  - exact (proj1 (speed_estimate_first_calls progress_zero 5000
                    1700000000 0 1700000001 1000)).
  - refine (proj1 (proj2 (proj2
      (speed_estimate_first_calls
         (feed 50000 [(112, 0); (113, 0)]
            (feed 50000 (steady_calls 100 12) progress_zero))
         0 0 0 0 0))) _).
    vm_compute. split; [discriminate | reflexivity].
Defined.

(** The read position lags the write position: [ui_update_progress]
    writes at the incremented [sample_index] while [ui_calculate_speed]
    reads at [sample_index - 1] and always compares with slot 0. With a
    clock that starts at 100, the first eleven calls give no rate and
    the twelfth is the first to give one. *)
Example estimate_needs_twelve_calls :
  map (fun n => ui_calculate_speed
                  (feed 50000 (steady_calls 100 n) progress_zero))
      (seq 0 13)
  = [0; 0; 0; 0; 0; 0; 0; 0; 0; 0; 0; 0; 1000]%Q.
Proof. vm_compute. reflexivity. Qed.

(** ** The estimated completion time *)

Lemma Qtrunc_le_0 (q : Q) : (q <= 0)%Q -> Qtrunc q <= 0.
Proof.
  unfold Qle, Qtrunc. simpl. intros H.
  apply Z.quot_le_upper_bound; lia.
Qed.

Lemma Qtrunc_ge (w : Z) (q : Q) : (inject_Z w <= q)%Q -> w <= Qtrunc q.
Proof.
  unfold Qle, Qtrunc. simpl. intros H.
  apply Z.quot_le_lower_bound; lia.
Qed.

Lemma Qgtb_true (q1 q2 : Q) : Qgtb q1 q2 = true <-> (q2 < q1)%Q.
Proof.
  unfold Qgtb. rewrite negb_true_iff. split.
  - intros H. apply Qnot_le_lt. intros Hle.
    apply Qle_bool_iff in Hle. congruence.
  - intros H. destruct (Qle_bool q1 q2) eqn:E; [| reflexivity].
    apply Qle_bool_iff in E. exfalso. exact (Qlt_not_le _ _ H E).
Qed.

(** C7. For every call of [ui_update_progress]: when the computed rate
    is not positive or [total <= downloaded], [estimated_completion]
    keeps its previous value; when the rate is positive and
    [total > downloaded], it becomes [now] plus the remaining bytes
    divided by the rate, the division being the one of doubles and its
    result truncated to whole seconds (the plain sum when nothing
    overflows). In every case the two byte counters are stored as
    given, [last_update] is [now], the rate is the estimate over the
    updated ring, the start time and the stage are untouched, and the
    ring takes the new sample exactly when [now] differs from the
    timestamp at the write position. *)
Theorem ui_update_progress_fields (now : Z) (p : DownloadProgress)
    (downloaded total : Z) :
  let p' := ui_update_progress now p downloaded total in
  (~ (0 < download_speed p')%Q \/ total <= downloaded ->
     estimated_completion p' = estimated_completion p)
  /\ ((0 < download_speed p')%Q -> downloaded < total ->
      estimated_completion p'
      = time_add now
          (double_to_int
             (Double.div (Double.of_Z (llong_sub total downloaded))
                         (download_speed p'))))
  /\ ((0 < download_speed p')%Q -> downloaded < total ->
      in_llong (total - downloaded) ->
      in_int (Qtrunc (Double.div (Double.of_Z (total - downloaded))
                                 (download_speed p'))) ->
      in_llong
        (now + Qtrunc (Double.div (Double.of_Z (total - downloaded))
                                  (download_speed p'))) ->
      estimated_completion p'
      = now + Qtrunc (Double.div (Double.of_Z (total - downloaded))
                                 (download_speed p'))
      /\ now <= estimated_completion p')
  /\ downloaded_bytes p' = downloaded
  /\ total_bytes p' = total
  /\ last_update p' = now
  /\ start_time p' = start_time p
  /\ current_stage p' = current_stage p
  /\ (now = timestamp (sample_at p (sample_index p)) ->
      samples p' = samples p /\ sample_index p' = sample_index p)
  /\ (now <> timestamp (sample_at p (sample_index p)) ->
      sample_index p'
      = Z.rem (int_add (sample_index p) 1) SPEED_SAMPLE_SIZE
      /\ samples p'
         = <[Z.to_nat (Z.rem (int_add (sample_index p) 1) SPEED_SAMPLE_SIZE)
             := Sample now downloaded]> (samples p))
  /\ (download_speed p' = ui_calculate_speed p')%type.
Proof.
  intros p'.
  assert (Heta : estimated_completion p'
                 = if Qgtb (download_speed p') 0 && (total >? downloaded)
                   then time_add now
                          (double_to_int
                             (Double.div
                                (Double.of_Z (llong_sub total downloaded))
                                (download_speed p')))
                   else estimated_completion p).
  { subst p'. unfold ui_update_progress, record_sample. simpl.
    destruct (negb _); reflexivity. }
  assert (Hcase : (0 < download_speed p')%Q -> downloaded < total ->
            Qgtb (download_speed p') 0 && (total >? downloaded) = true).
  { intros Hr Hlt. apply andb_true_intro. split.
    - now apply Qgtb_true.
    - rewrite Z.gtb_ltb. now apply Z.ltb_lt. }
  split; [| split; [| split]].
  - intros Hno. rewrite Heta.
    destruct (Qgtb (download_speed p') 0) eqn:Hq; simpl; [| reflexivity].
    rewrite Z.gtb_ltb.
    destruct (Z.ltb_spec downloaded total); [| reflexivity].
    apply Qgtb_true in Hq. destruct Hno as [Hno | Hno]; [tauto | lia].
  - intros Hr Hlt. rewrite Heta, (Hcase Hr Hlt). reflexivity.
  - intros Hr Hlt Hrem Hsec Hsum.
    rewrite Heta, (Hcase Hr Hlt).
    unfold llong_sub, time_add.
    rewrite (llong_of_id (total - downloaded)) by exact Hrem.
    rewrite DoubleFacts.double_to_int_exact by exact Hsec.
    rewrite llong_of_id by exact Hsum.
    split; [reflexivity |].
    assert (Hq : (0 <= Double.div (Double.of_Z (total - downloaded))
                                  (download_speed p'))%Q).
    { apply DoubleFacts.div_nonneg; [| exact Hr].
      apply DoubleFacts.of_Z_nonneg. lia. }
    pose proof (Qtrunc_ge 0 _ Hq). lia.
  - subst p'. unfold ui_update_progress, record_sample. simpl.
    repeat match goal with
    | |- context [sample_at ?q (sample_index p)] =>
        progress change (sample_at q (sample_index p))
          with (sample_at p (sample_index p))
    end.
    destruct (Z.eqb_spec now (timestamp (sample_at p (sample_index p))))
      as [E | E]; simpl; repeat split; try reflexivity; try tauto.
Qed.

Lemma ui_update_progress_fields_at_second_112 :
  estimated_completion (ui_update_progress 113 warm_progress 50000 50000)
  = estimated_completion warm_progress
  /\ estimated_completion (ui_update_progress 112 warm_progress 12000 50000)
     = time_add 112
         (double_to_int
            (Double.div (Double.of_Z (llong_sub 50000 12000))
               (download_speed
                  (ui_update_progress 112 warm_progress 12000 50000))))
  /\ estimated_completion (ui_update_progress 112 warm_progress 12000 50000)
     = 112 + Qtrunc (Double.div (Double.of_Z (50000 - 12000))
                       (download_speed
                          (ui_update_progress 112 warm_progress 12000 50000))).
Proof.
  split; [| split].
  - apply (proj1 (ui_update_progress_fields 113 warm_progress 50000 50000)).
    right. lia.
  - apply (proj1 (proj2
             (ui_update_progress_fields 112 warm_progress 12000 50000))).
    + vm_compute. reflexivity.
    + lia.
  - apply (proj1 (proj2 (proj2
             (ui_update_progress_fields 112 warm_progress 12000 50000)))).
    + vm_compute. reflexivity.
    + lia.
    + vm_compute. split; discriminate.
    + vm_compute. split; discriminate.
    + vm_compute. split; discriminate.
Defined.

Example stale_estimate_is_kept :
  estimated_completion warm_progress = 150
  /\ estimated_completion (ui_update_progress 112 warm_progress 12000 50000)
     = 150
  /\ estimated_completion (ui_update_progress 113 warm_progress 50000 50000)
     = 150.
Proof. vm_compute. auto. Qed.

(** The quotient is the one of doubles. A rate of 7 bytes in 3 seconds
    is stored as the double nearest to 7/3, which lies above it; with 35
    bytes left the quotient rounds to the double just below 15, and 14
    whole seconds are added to the clock, not 15. *)
Example eta_divides_in_double :
  let p := feed 1000 (map (fun t => (t, 0)) [91; 92; 93; 94; 95; 96; 97; 98; 99;
                                             100]
                      ++ [(103, 7)]) progress_zero in
  let p' := ui_update_progress 113 p 965 1000 in
  (download_speed p' == Double.div 7 3)%Q
  /\ (7 # 3 < download_speed p')%Q
  /\ Qtrunc (35 / (7 # 3)) = 15
  /\ estimated_completion p' = 113 + 14.
Proof. vm_compute. repeat split. Qed.

(** ** Rendering the progress *)

Lemma draw_progress_bar_zero (y x width : Z) :
  draw_progress_bar y x width 0 = DrawBar y x width 0 0.
Proof.
  unfold draw_progress_bar, double_to_int, Qtrunc. simpl.
  rewrite Z.quot_0_l by discriminate.
  change (int_of 0) with 0.
  rewrite Z.gtb_ltb.
  destruct (Z.ltb_spec width 0) as [Hw | Hw]; [| reflexivity].
  now rewrite (proj2 (Z.ltb_lt width 0) Hw).
Qed.

(** C3, as the code has it. For every progress record with
    [total_bytes = 0], whatever [downloaded_bytes] is, [ui_show_progress]
    draws the numeric bar with nothing filled and the percentage 0, and
    no spinner; the spinner is drawn by
    [ui_show_indeterminate_progress] alone, which is given a message and
    a frame number and does not look at the byte counters. *)
Theorem ui_show_progress_unknown_total (st : UIState) (now : Z)
    (p : DownloadProgress) :
  ncurses_available st = true ->
  total_bytes p = 0 ->
  (exists items y,
     ui_show_progress st now p = Some items
     /\ In (DrawBar y 2 (int_sub (int_sub (content_cols st) 4) 10) 0 0%Q) items
     /\ existsb is_spinner items = false)
  /\ numeric_mode (ui_show_progress st now p) = true
  /\ indeterminate_mode (ui_show_progress st now p) = false
  /\ (forall message frame,
        indeterminate_mode (ui_show_indeterminate_progress st message frame)
        = true).
Proof.
  intros Hn Ht.
  assert (Hshow : exists items y,
            ui_show_progress st now p = Some items
            /\ In (DrawBar y 2 (int_sub (int_sub (content_cols st) 4) 10) 0 0%Q)
                  items
            /\ existsb is_spinner items = false
            /\ existsb is_bar items = true).
  { unfold ui_show_progress. rewrite Hn, Ht. simpl negb. cbv iota.
    change (0 >? 0) with false. cbv iota.
    destruct (0 <? Z.of_nat (String.length (current_stage p)));
      destruct (Qgtb (download_speed p) 0);
      destruct (estimated_completion p >? 0);
      destruct (double_to_int (difftime (estimated_completion p) now) >? 0);
      destruct (start_time p >? 0);
      cbv beta iota zeta; rewrite draw_progress_bar_zero;
      do 2 eexists; (split; [reflexivity |]); simpl; auto 10. }
  destruct Hshow as (items & y & E & Hin & Hsp & Hbar).
  split; [exists items, y; auto |].
  rewrite E. simpl. rewrite Hsp, Hbar. simpl.
  split; [reflexivity |]. split; [reflexivity |].
  intros message frame. unfold ui_show_indeterminate_progress.
  rewrite Hn. reflexivity.
Qed.

Lemma ui_show_progress_unknown_total_on_80_columns :
  numeric_mode
    (ui_show_progress (ui_for_terminal 24 80) 1700000005 progress_unknown_total)
  = true.
Proof.
  exact (proj1 (proj2
    (ui_show_progress_unknown_total (ui_for_terminal 24 80) 1700000005
       progress_unknown_total eq_refl eq_refl))).
Defined.

(** C3 fails as stated: with 500 bytes received and a total of 0,
    [ui_show_progress] draws the bar at 0 percent, not the spinner. *)
Lemma unknown_total_draws_a_bar :
  total_bytes progress_unknown_total = 0
  /\ ui_show_progress (ui_for_terminal 24 80) 1700000005 progress_unknown_total
     = Some [DrawTitle " Download Progress ";
             DrawStage 2 "Starting download...";
             DrawDownloaded 4 500 0;
             DrawBar 6 2 66 0 0%Q;
             DrawElapsed 8 5]
  /\ ~ indeterminate_mode
         (ui_show_progress (ui_for_terminal 24 80) 1700000005
            progress_unknown_total) = true.
Proof.
  split; [reflexivity |]. split; [vm_compute; reflexivity |].
  vm_compute. discriminate.
Qed.

(** * Further properties of the terminal UI and its callers *)

(** ** The progress bar *)

Lemma draw_progress_bar_filled (y x width : Z) (percent : Q) :
  exists filled,
    draw_progress_bar y x width percent = DrawBar y x width filled percent
    /\ filled
       = (let f :=
            double_to_int
              (Double.mul (Double.div percent 100) (Double.of_Z width)) in
          let f := if f >? width then width else f in
          if f <? 0 then 0 else f).
Proof. eexists. split; reflexivity. Qed.

Lemma clamp_filled (f width : Z) :
  let c := (let f0 := if f >? width then width else f in
            if f0 <? 0 then 0 else f0) in
  (0 <= width -> 0 <= c <= width)
  /\ (width < 0 -> c = 0)
  /\ (0 <= width -> f <= 0 -> c = 0)
  /\ (0 <= width -> width <= f -> c = width).
Proof.
  cbv zeta. rewrite Z.gtb_ltb.
  destruct (Z.ltb_spec width f);
    [destruct (Z.ltb_spec width 0) | destruct (Z.ltb_spec f 0)]; lia.
Qed.

(** X1. [draw_progress_bar] never fills more cells than the bar has:
    for a bar of non-negative width the filled count lies between 0 and
    the width whatever the percentage is; for a negative width nothing
    is filled. When the product fits an [int], a percentage of at most
    0 fills nothing and one of at least 100 fills the whole bar. *)
Theorem draw_progress_bar_within_width (y x width : Z) (percent : Q) :
  exists filled,
    draw_progress_bar y x width percent = DrawBar y x width filled percent
    /\ (0 <= width -> 0 <= filled <= width)
    /\ (width < 0 -> filled = 0)
    /\ (in_int (Qtrunc (Double.mul (Double.div percent 100)
                                   (Double.of_Z width))) ->
        0 <= width ->
        ((percent <= 0)%Q -> filled = 0)
        /\ ((100 <= percent)%Q -> filled = width)).
Proof.
  destruct (draw_progress_bar_filled y x width percent) as (filled & E & Hf).
  exists filled. split; [exact E |]. subst filled.
  set (f := double_to_int
              (Double.mul (Double.div percent 100) (Double.of_Z width))).
  destruct (clamp_filled f width) as (Hin & Hneg & Hlow & Hhigh).
  split; [exact Hin |]. split; [exact Hneg |].
  intros Hfit Hw.
  assert (Ef : f = Qtrunc (Double.mul (Double.div percent 100)
                                      (Double.of_Z width)))
    by (apply DoubleFacts.double_to_int_exact; exact Hfit).
  assert (Hwq : (0 <= Double.of_Z width)%Q)
    by now apply DoubleFacts.of_Z_nonneg.
  split; intros Hp.
  - apply Hlow; [exact Hw |]. rewrite Ef. apply Qtrunc_le_0.
    apply DoubleFacts.round_nonpos.
    assert (Hd : (Double.div percent 100 <= 0)%Q).
    { apply DoubleFacts.round_nonpos.
      apply Qle_shift_div_r; [reflexivity |]. now rewrite Qmult_0_l. }
    assert (H : (Double.div percent 100 * Double.of_Z width
                 <= 0 * Double.of_Z width)%Q)
      by (apply Qmult_le_compat_r; assumption).
    now rewrite Qmult_0_l in H.
  - apply Hhigh; [exact Hw |]. rewrite Ef.
    assert (Hd : (1 <= Double.div percent 100)%Q).
    { change 1%Q with (Double.round 1).
      apply DoubleFacts.round_mono.
      apply Qle_shift_div_l; [reflexivity |]. now rewrite Qmult_1_l. }
    assert (Hm : (Double.of_Z width
                  <= Double.mul (Double.div percent 100) (Double.of_Z width))%Q).
    { rewrite <- (DoubleFacts.of_Z_idempotent width) at 1.
      apply DoubleFacts.round_mono.
      assert (H : (1 * Double.of_Z width
                   <= Double.div percent 100 * Double.of_Z width)%Q)
        by (apply Qmult_le_compat_r; assumption).
      now rewrite Qmult_1_l in H. }
    destruct (Z.le_gt_cases width (2 ^ 53)) as [Hsmall | Hbig].
    + apply Qtrunc_ge. rewrite <- (DoubleFacts.of_Z_exact width) by lia.
      exact Hm.
    + exfalso.
      assert (Hb : (inject_Z (2 ^ 53)
                    <= Double.mul (Double.div percent 100)
                                  (Double.of_Z width))%Q).
      { eapply Qle_trans; [| exact Hm].
        apply DoubleFacts.of_Z_ge; lia. }
      apply Qtrunc_ge in Hb. destruct Hfit as [_ Hfit].
      unfold INT_MAX in Hfit. lia.
Qed.

Lemma draw_progress_bar_within_width_at_150_percent :
  draw_progress_bar 4 2 66 150 = DrawBar 4 2 66 66 150
  /\ draw_progress_bar 4 2 66 (-20) = DrawBar 4 2 66 0 (-20).
Proof.
  split.
  - destruct (draw_progress_bar_within_width 4 2 66 150)
      as (filled & E & _ & _ & Hfull).
    destruct (Hfull ltac:(vm_compute; split; discriminate) ltac:(lia))
      as [_ Hw].
    rewrite E, (Hw ltac:(vm_compute; discriminate)). reflexivity.
  - destruct (draw_progress_bar_within_width 4 2 66 (-20))
      as (filled & E & _ & _ & Hfull).
    destruct (Hfull ltac:(vm_compute; split; discriminate) ltac:(lia))
      as [Hz _].
    rewrite E, (Hz ltac:(vm_compute; discriminate)). reflexivity.
Defined.

(** ** The ring of samples *)

Lemma rem_next_index (i : Z) :
  0 <= i < SPEED_SAMPLE_SIZE ->
  Z.rem (int_add i 1) SPEED_SAMPLE_SIZE = (i + 1) mod 10
  /\ 0 <= (i + 1) mod 10 < 10.
Proof.
  unfold SPEED_SAMPLE_SIZE. intros Hi.
  rewrite int_add_exact by (codes; lia).
  rewrite Z.rem_mod_nonneg by lia.
  split; [reflexivity | apply Z.mod_pos_bound; lia].
Qed.

Lemma ui_update_progress_ring (now : Z) (p : DownloadProgress)
    (downloaded total : Z) :
  let p' := ui_update_progress now p downloaded total in
  let next := Z.rem (int_add (sample_index p) 1) SPEED_SAMPLE_SIZE in
  sample_index p'
  = (if now =? timestamp (sample_at p (sample_index p))
     then sample_index p else next)
  /\ samples p'
     = (if now =? timestamp (sample_at p (sample_index p))
        then samples p
        else <[Z.to_nat next := Sample now downloaded]> (samples p))
  /\ download_speed p' = ui_calculate_speed p'
  /\ downloaded_bytes p' = downloaded
  /\ total_bytes p' = total.
Proof.
  cbv zeta. unfold ui_update_progress, record_sample. simpl.
  repeat match goal with
  | |- context [sample_at ?q (sample_index p)] =>
      progress change (sample_at q (sample_index p))
        with (sample_at p (sample_index p))
  end.
  destruct (now =? timestamp (sample_at p (sample_index p))); simpl; auto.
Qed.

(** X2. A call of [ui_update_progress] whose clock value differs from
    the timestamp at the write position advances the position by one
    slot, round the ten slots, stores the clock value with the byte
    count there, and leaves the other nine slots and the size of the
    ring as they were. *)
Theorem ui_update_progress_writes_one_slot (now : Z) (p : DownloadProgress)
    (downloaded total : Z) :
  0 <= sample_index p < SPEED_SAMPLE_SIZE ->
  length (samples p) = Z.to_nat SPEED_SAMPLE_SIZE ->
  now <> timestamp (sample_at p (sample_index p)) ->
  let p' := ui_update_progress now p downloaded total in
  sample_index p' = (sample_index p + 1) mod 10
  /\ sample_at p' (sample_index p') = Sample now downloaded
  /\ length (samples p') = Z.to_nat SPEED_SAMPLE_SIZE
  /\ (forall j, 0 <= j < SPEED_SAMPLE_SIZE -> j <> sample_index p' ->
        sample_at p' j = sample_at p j).
Proof.
  intros Hi Hlen Hnow p'.
  destruct (ui_update_progress_ring now p downloaded total)
    as (Ei & Es & _). fold p' in Ei, Es.
  rewrite (proj2 (Z.eqb_neq _ _) Hnow) in Ei, Es.
  destruct (rem_next_index _ Hi) as [En Hn]. rewrite En in Ei, Es.
  unfold SPEED_SAMPLE_SIZE in *.
  split; [exact Ei |]. unfold sample_at. rewrite Es, Ei.
  split; [| split].
  - rewrite list_lookup_insert_eq; [reflexivity |]. rewrite Hlen. lia.
  - now rewrite length_insert.
  - intros j Hj Hne. rewrite list_lookup_insert_ne; [reflexivity |]. lia.
Qed.

Lemma ui_update_progress_writes_one_slot_on_zero :
  sample_index (ui_update_progress 100 progress_zero 500 9000) = 1
  /\ sample_at (ui_update_progress 100 progress_zero 500 9000) 1
     = Sample 100 500
  /\ sample_at (ui_update_progress 100 progress_zero 500 9000) 0
     = Sample 0 0.
Proof.
  destruct (ui_update_progress_writes_one_slot 100 progress_zero 500 9000
              ltac:(vm_compute; split; [discriminate | reflexivity])
              eq_refl ltac:(vm_compute; discriminate))
    as (Hi & Hat & _ & Hother).
  split; [exact Hi |].
  split; [rewrite <- Hat; reflexivity |].
  apply Hother; vm_compute; [split; [discriminate | reflexivity] | discriminate].
Defined.

(** X3. Calls within one clock tick are coalesced: a second call of
    [ui_update_progress] with the same clock value leaves the ring and
    its write position as the first call left them, while the byte
    counters take the new values. *)
Theorem ui_update_progress_same_tick (now : Z) (p : DownloadProgress)
    (d1 t1 d2 t2 : Z) :
  0 <= sample_index p < SPEED_SAMPLE_SIZE ->
  length (samples p) = Z.to_nat SPEED_SAMPLE_SIZE ->
  let p1 := ui_update_progress now p d1 t1 in
  let p2 := ui_update_progress now p1 d2 t2 in
  samples p2 = samples p1
  /\ sample_index p2 = sample_index p1
  /\ downloaded_bytes p2 = d2
  /\ total_bytes p2 = t2.
Proof.
  intros Hi Hlen p1 p2.
  assert (Hts : timestamp (sample_at p1 (sample_index p1)) = now).
  { destruct (ui_update_progress_ring now p d1 t1) as (Ei & Es & _).
    fold p1 in Ei, Es. unfold sample_at at 1. rewrite Es, Ei.
    destruct (Z.eqb_spec now (timestamp (sample_at p (sample_index p))))
      as [E | E].
    - symmetry. exact E.
    - destruct (rem_next_index _ Hi) as [En Hn]. rewrite En.
      rewrite list_lookup_insert_eq; [reflexivity |].
      rewrite Hlen. unfold SPEED_SAMPLE_SIZE. lia. }
  destruct (ui_update_progress_ring now p1 d2 t2) as (Ei & Es & _ & Ed & Et).
  fold p2 in Ei, Es, Ed, Et.
  rewrite Hts, Z.eqb_refl in Ei, Es. auto.
Qed.

Lemma ui_update_progress_same_tick_on_zero :
  samples (ui_update_progress 100 (ui_update_progress 100 progress_zero 500 0)
             900 0)
  = samples (ui_update_progress 100 progress_zero 500 0).
Proof.
  exact (proj1 (ui_update_progress_same_tick 100 progress_zero 500 0 900 0
                  ltac:(vm_compute; split; [discriminate | reflexivity])
                  eq_refl)).
Defined.

Lemma ui_calculate_speed_skips_cursor (p q : DownloadProgress) (s : sample) :
  0 <= sample_index p < SPEED_SAMPLE_SIZE ->
  sample_index q = sample_index p ->
  samples q = <[Z.to_nat (sample_index p) := s]> (samples p) ->
  ui_calculate_speed q = ui_calculate_speed p.
Proof.
  unfold SPEED_SAMPLE_SIZE. intros Hi Ei Es. unfold ui_calculate_speed.
  rewrite Ei.
  destruct (Z.eqb_spec (sample_index p) 0) as [E0 | E0]; [reflexivity |].
  unfold SPEED_SAMPLE_SIZE.
  rewrite (int_sub_exact (sample_index p) 1) by (codes; lia).
  rewrite (int_add_exact (sample_index p - 1) 10) by (codes; lia).
  rewrite Z.rem_mod_nonneg by lia.
  replace ((sample_index p - 1 + 10) mod 10) with (sample_index p - 1)
    by (apply (Z.mod_unique_pos _ 10 1); lia).
  assert (H0 : sample_at q 0 = sample_at p 0).
  { unfold sample_at. rewrite Es, list_lookup_insert_ne; [reflexivity |].
    lia. }
  assert (H1 : sample_at q (sample_index p - 1)
               = sample_at p (sample_index p - 1)).
  { unfold sample_at. rewrite Es, list_lookup_insert_ne; [reflexivity |].
    lia. }
  now rewrite H0, H1.
Qed.

(** X4. The rate a call of [ui_update_progress] stores never reflects
    the byte count of that call: the estimate reads the slot before the
    write position and slot 0, not the slot just written, so two calls
    that differ only in the counters passed store the same rate. *)
Theorem ui_update_progress_speed_ignores_new_bytes (now : Z)
    (p : DownloadProgress) (d1 t1 d2 t2 : Z) :
  0 <= sample_index p < SPEED_SAMPLE_SIZE ->
  download_speed (ui_update_progress now p d1 t1)
  = download_speed (ui_update_progress now p d2 t2).
Proof.
  intros Hi.
  destruct (ui_update_progress_ring now p d1 t1) as (Ei1 & Es1 & Ev1 & _).
  destruct (ui_update_progress_ring now p d2 t2) as (Ei2 & Es2 & Ev2 & _).
  rewrite Ev1, Ev2.
  destruct (now =? timestamp (sample_at p (sample_index p))).
  - unfold ui_calculate_speed, sample_at. now rewrite Ei1, Ei2, Es1, Es2.
  - destruct (rem_next_index _ Hi) as [En Hn].
    apply (ui_calculate_speed_skips_cursor _ _ (Sample now d1)).
    + rewrite Ei2, En. exact Hn.
    + now rewrite Ei1, Ei2.
    + rewrite Es1, Es2, Ei2. now rewrite list_insert_insert_eq.
Qed.

Lemma ui_update_progress_speed_ignores_new_bytes_when_warm :
  download_speed (ui_update_progress 112 warm_progress 12000 50000)
  = download_speed (ui_update_progress 112 warm_progress 49000 50000).
Proof.
  exact (ui_update_progress_speed_ignores_new_bytes 112 warm_progress
           12000 50000 49000 50000
           ltac:(vm_compute; split; [discriminate | reflexivity])).
Defined.

(** ** What [ui_show_progress] draws *)

Lemma percent_in_range (downloaded total : Z) :
  0 <= downloaded <= total -> 0 < total ->
  (0 <= Double.mul (Double.div (Double.of_Z downloaded) (Double.of_Z total))
                   100 <= 100)%Q.
Proof.
  intros Hd Ht.
  assert (Htq : (0 < Double.of_Z total)%Q) by now apply DoubleFacts.of_Z_pos.
  assert (Hdq : (0 <= Double.of_Z downloaded)%Q)
    by (apply DoubleFacts.of_Z_nonneg; lia).
  assert (Hle : (Double.of_Z downloaded <= Double.of_Z total)%Q)
    by (apply DoubleFacts.of_Z_mono; lia).
  assert (H0 : (0 <= Double.div (Double.of_Z downloaded) (Double.of_Z total))%Q)
    by now apply DoubleFacts.div_nonneg.
  assert (H1 : (Double.div (Double.of_Z downloaded) (Double.of_Z total) <= 1)%Q).
  { apply (DoubleFacts.round_le_Z _ 1); [lia |].
    apply Qle_shift_div_r; [exact Htq |]. now rewrite Qmult_1_l. }
  split.
  - apply DoubleFacts.round_nonneg.
    apply Qmult_le_0_compat; [exact H0 | discriminate].
  - apply (DoubleFacts.round_le_Z _ 100); [lia |].
    assert (H : (Double.div (Double.of_Z downloaded) (Double.of_Z total) * 100
                 <= 1 * 100)%Q)
      by (apply Qmult_le_compat_r; [exact H1 | discriminate]).
    exact H.
Qed.

(** X5. With a known total ([total_bytes > 0]) [ui_show_progress] draws
    one bar at column 2, of the width of the window minus 14, showing
    [downloaded / total * 100] as the doubles compute it; its filled
    part lies between 0 and that width (when the width is not
    negative), and the percentage lies between 0 and 100 when
    [0 <= downloaded <= total]. *)
Theorem ui_show_progress_bar (st : UIState) (now : Z) (p : DownloadProgress) :
  ncurses_available st = true ->
  0 < total_bytes p ->
  let width := int_sub (int_sub (content_cols st) 4) 10 in
  let percent :=
    Double.mul (Double.div (Double.of_Z (downloaded_bytes p))
                           (Double.of_Z (total_bytes p))) 100 in
  exists items y filled,
    ui_show_progress st now p = Some items
    /\ In (DrawBar y 2 width filled percent) items
    /\ (0 <= width -> 0 <= filled <= width)
    /\ (0 <= downloaded_bytes p <= total_bytes p ->
        (0 <= percent <= 100)%Q).
Proof.
  intros Hn Ht width percent.
  assert (Hbar : forall y, exists filled,
            draw_progress_bar y 2 width percent
            = DrawBar y 2 width filled percent
            /\ (0 <= width -> 0 <= filled <= width)).
  { intros y.
    destruct (draw_progress_bar_filled y 2 width percent) as (f & E & Ef).
    exists f. split; [exact E |]. subst f.
    exact (proj1 (clamp_filled _ width)). }
  unfold ui_show_progress. rewrite Hn. simpl negb. cbv iota.
  rewrite (Z.gtb_ltb (total_bytes p) 0), (proj2 (Z.ltb_lt 0 (total_bytes p)) Ht).
  fold width. fold percent.
  destruct (0 <? Z.of_nat (String.length (current_stage p)));
    destruct (Qgtb (download_speed p) 0);
    destruct (estimated_completion p >? 0);
    destruct (double_to_int (difftime (estimated_completion p) now) >? 0);
    destruct (start_time p >? 0);
    cbv beta iota zeta;
    match goal with
    | |- context [draw_progress_bar ?y 2 width percent] =>
        destruct (Hbar y) as (filled & -> & Hf);
        eexists; exists y, filled
    end;
    (split; [reflexivity |]);
    (split; [simpl; auto 10 |]);
    (split; [exact Hf |]);
    intros Hd; apply percent_in_range; assumption.
Qed.

Lemma ui_show_progress_bar_when_warm :
  exists items y filled,
    ui_show_progress demo_ui 112 warm_progress = Some items
    /\ In (DrawBar y 2 66 filled
             (Double.mul (Double.div (Double.of_Z 11000) (Double.of_Z 50000))
                         100)) items
    /\ 0 <= filled <= 66.
Proof.
  destruct (ui_show_progress_bar demo_ui 112 warm_progress eq_refl
              ltac:(vm_compute; reflexivity))
    as (items & y & filled & E & Hin & Hf & _).
  exists items, y, filled.
  split; [exact E |]. split; [exact Hin |].
  apply Hf. vm_compute. discriminate.
Defined.

Ltac in_drawn :=
  repeat match goal with
  | H : In _ (_ :: _) |- _ => destruct H as [H | H]
  | H : In _ [] |- _ => destruct H
  | H : _ \/ _ |- _ => destruct H as [H | H]
  | H : False |- _ => destruct H
  | H : _ /\ _ |- _ => destruct H
  | H : exists _, _ |- _ => destruct H
  | H : @eq draw _ _ |- _ => try discriminate H; injection H as ? ?; subst
  end.

(** X6. [ui_show_progress] shows the remaining time only when it has
    something to show: the ETA line is drawn exactly when the stored
    rate is positive, an estimate is stored and that estimate lies more
    than zero whole seconds after the clock, and it then shows that
    number of seconds; the speed line is drawn exactly when the rate is
    positive, the elapsed line exactly when a start time is stored. *)
Theorem ui_show_progress_lines (st : UIState) (now : Z) (p : DownloadProgress) :
  ncurses_available st = true ->
  let eta := double_to_int (difftime (estimated_completion p) now) in
  exists items,
    ui_show_progress st now p = Some items
    /\ ((exists y s, In (DrawEta y s) items)
        <-> (0 < download_speed p)%Q /\ 0 < estimated_completion p
            /\ 0 < eta)
    /\ (forall y s, In (DrawEta y s) items -> s = eta /\ 0 < s)
    /\ ((exists y v, In (DrawSpeed y v) items) <-> (0 < download_speed p)%Q)
    /\ ((exists y e, In (DrawElapsed y e) items) <-> 0 < start_time p).
Proof.
  intros Hn eta. unfold ui_show_progress. rewrite Hn. simpl negb. cbv iota.
  fold eta. unfold draw_progress_bar.
  assert (Hrate : Qgtb (download_speed p) 0 = false ->
                  ~ (0 < download_speed p)%Q)
    by (intros Hf Hc; apply Qgtb_true in Hc; congruence).
  destruct (Qgtb (download_speed p) 0) eqn:Hs;
    [apply Qgtb_true in Hs | specialize (Hrate eq_refl)];
    destruct (estimated_completion p >? 0) eqn:He;
    destruct (eta >? 0) eqn:Ht;
    destruct (start_time p >? 0) eqn:Hst;
    rewrite Z.gtb_ltb in He, Ht, Hst;
    repeat match goal with
    | H : (_ <? _) = true |- _ => apply Z.ltb_lt in H
    | H : (_ <? _) = false |- _ => apply Z.ltb_ge in H
    end;
    destruct (0 <? Z.of_nat (String.length (current_stage p)));
    cbv beta iota zeta; eexists; (split; [reflexivity |]);
    simpl;
    repeat split; intros; in_drawn;
    try tauto; try lia; try (do 2 eexists; tauto).
Qed.

Lemma ui_show_progress_lines_when_warm :
  exists items,
    ui_show_progress demo_ui 113
      (ui_update_progress 112 warm_progress 12000 50000) = Some items
    /\ (exists y s, In (DrawEta y s) items)
    /\ (forall y s, In (DrawEta y s) items -> 0 < s).
Proof.
  destruct (ui_show_progress_lines demo_ui 113
              (ui_update_progress 112 warm_progress 12000 50000) eq_refl)
    as (items & E & Heta & Hsec & _).
  exists items. split; [exact E |]. split.
  - apply Heta. vm_compute. auto.
  - intros y s Hin. exact (proj2 (Hsec y s Hin)).
Defined.

(** ** The spinner line *)

(** X7. [ui_show_indeterminate_progress] centres a message that fits
    the content window, that is, whose text with the four columns the
    code reserves is not wider than the window: the message, a space
    and the spinner character are printed on the middle row, starting
    at the column [(cols - len - 4) / 2] rounded down; that position
    lies inside the window, and the text ends before the right edge
    with at least as much room on its right as on its left. *)
Theorem ui_show_indeterminate_progress_centred (st : UIState)
    (message : string) (frame : Z) :
  ncurses_available st = true ->
  1 <= content_height st ->
  content_cols st <= INT_MAX ->
  Z.of_nat (String.length message) + 4 <= content_cols st ->
  let len := Z.of_nat (String.length message) in
  let y := content_height st / 2 in
  let x := (content_cols st - len - 4) / 2 in
  ui_show_indeterminate_progress st message frame
  = Some [DrawTitle " Processing ";
          DrawSpinner y x message (get_spinner_char frame)]
  /\ 0 <= y < content_height st
  /\ 0 <= x
  /\ x + (len + 2) <= content_cols st - 2 - x.
Proof.
  intros Hn Hh Hc Hl len y x. unfold ui_show_indeterminate_progress.
  rewrite Hn. simpl negb. cbv iota.
  rewrite Z.quot_div_nonneg by lia.
  fold len. set (d := content_cols st - len - 4).
  assert (Hd : 0 <= d <= 2147483647) by (codes; lia).
  assert (Hx : int_of (d mod 2 ^ 64 / 2) = d / 2).
  { change (2 ^ 64) with 18446744073709551616.
    rewrite Z.mod_small by lia. apply int_of_id. codes.
    pose proof (Z.div_pos d 2 ltac:(lia) ltac:(lia)).
    pose proof (Z.div_le_upper_bound d 2 1073741824 ltac:(lia) ltac:(lia)).
    lia. }
  rewrite Hx. split; [reflexivity |].
  pose proof (Z.div_pos d 2 ltac:(lia) ltac:(lia)) as Hx0.
  pose proof (Z.mul_div_le d 2 ltac:(lia)) as Hx1.
  pose proof (Z.div_pos (content_height st) 2 ltac:(lia) ltac:(lia)) as Hy0.
  pose proof (Z.div_lt (content_height st) 2 ltac:(lia) ltac:(lia)) as Hy1.
  subst x y. fold d. subst d. repeat split; lia.
Qed.

Lemma ui_show_indeterminate_progress_centred_on_80_columns :
  ui_show_indeterminate_progress (ui_for_terminal 24 80)
    "Fetching video information" 5
  = Some [DrawTitle " Processing ";
          DrawSpinner 9 25 "Fetching video information" (Some "/"%char)].
Proof.
  exact (proj1 (ui_show_indeterminate_progress_centred (ui_for_terminal 24 80)
           "Fetching video information" 5 eq_refl
           ltac:(vm_compute; discriminate)
           ltac:(vm_compute; discriminate)
           ltac:(vm_compute; discriminate))).
Defined.

(** ** Decimal numerals *)

Lemma digit_char_code (d : Z) :
  0 <= d <= 9 -> isdigit (digit_char d) = true /\ chr (digit_char d) = 48 + d.
Proof.
  intros Hd.
  assert (d = 0 \/ d = 1 \/ d = 2 \/ d = 3 \/ d = 4 \/ d = 5 \/ d = 6
          \/ d = 7 \/ d = 8 \/ d = 9) as Hc by lia.
  repeat (destruct Hc as [-> | Hc]; [split; reflexivity |]).
  subst d. split; reflexivity.
Qed.

Lemma isdigit_not_sign (c : ascii) :
  isdigit c = true ->
  isspace c = false /\ Ascii.eqb c "-" = false /\ Ascii.eqb c "+" = false.
Proof.
  unfold isdigit, isspace. intros H. apply andb_prop in H as [H1 H2].
  apply Z.leb_le in H1. apply Z.leb_le in H2.
  split; [| split].
  - apply orb_false_iff. split; [apply Z.eqb_neq; lia |].
    apply andb_false_iff. right. apply Z.leb_gt. lia.
  - destruct (Ascii.eqb_spec c "-") as [-> | _]; [| reflexivity].
    vm_compute in H1. now contradiction H1.
  - destruct (Ascii.eqb_spec c "+") as [-> | _]; [| reflexivity].
    vm_compute in H1. now contradiction H1.
Qed.

(** Reading back the digits [decimal_digits] writes in front of [rest]. *)
Lemma digits_value_decimal_digits (fuel : nat) :
  forall n rest a,
  0 <= n < 2 ^ Z.of_nat fuel ->
  exists k, 0 <= k
    /\ digits_value (decimal_digits fuel n rest) a
       = digits_value rest (a * 10 ^ k + n).
Proof.
  induction fuel as [| f IH]; intros n rest a Hn.
  - exists 0. simpl in *. split; [lia |]. f_equal. lia.
  - simpl decimal_digits.
    pose proof (Z.mod_pos_bound n 10 ltac:(lia)) as Hm.
    destruct (digit_char_code (n mod 10) ltac:(lia)) as [Hdig Hcode].
    destruct (Z.ltb_spec n 10) as [Hs | Hl].
    + exists 1. split; [lia |]. simpl. rewrite Hdig, Hcode.
      rewrite Z.mod_small by lia. f_equal. lia.
    + assert (Hq : 0 <= n / 10 < 2 ^ Z.of_nat f).
      { split; [apply Z.div_pos; lia |].
        apply Z.div_lt_upper_bound; [lia |].
        rewrite Nat2Z.inj_succ, Z.pow_succ_r in Hn by lia. lia. }
      destruct (IH (n / 10) (String (digit_char (n mod 10)) rest) a Hq)
        as (k & Hk & E).
      exists (k + 1). split; [lia |]. rewrite E. simpl.
      rewrite Hdig, Hcode. f_equal.
      rewrite Z.pow_add_r by lia.
      pose proof (Z.div_mod n 10 ltac:(lia)). lia.
Qed.

Lemma decimal_digits_head (fuel : nat) :
  forall n rest,
  0 <= n ->
  (0 < fuel)%nat ->
  exists c r, decimal_digits fuel n rest = String c r /\ isdigit c = true.
Proof.
  induction fuel as [| f IH]; intros n rest Hn Hf; [lia |].
  simpl. pose proof (Z.mod_pos_bound n 10 ltac:(lia)) as Hm.
  destruct (digit_char_code (n mod 10) ltac:(lia)) as [Hdig _].
  destruct (n <? 10); [eauto |].
  destruct f as [| f'].
  - simpl. eauto.
  - apply IH; [apply Z.div_pos; lia | lia].
Qed.

Lemma decimal_nat_fuel (n : Z) :
  0 <= n -> 0 <= n < 2 ^ Z.of_nat (S (Z.to_nat (Z.log2 n))).
Proof.
  intros Hn. split; [exact Hn |].
  rewrite Nat2Z.inj_succ, Z2Nat.id by apply Z.log2_nonneg.
  destruct (Z.eq_dec n 0) as [-> | Hne]; [reflexivity |].
  apply Z.log2_spec. lia.
Qed.

(** [atoi] reads back what ["%d"] prints: for every [n] from 0 to
    [INT_MAX], [atoi] of the decimal numeral of [n] is [n], also when
    the numeral is followed by text that does not start with a digit. *)
Lemma atoi_decimal (n : Z) (rest : string) :
  0 <= n <= INT_MAX ->
  no_leading_digit rest = true ->
  atoi (decimal n +:+ rest) = n.
Proof.
  intros Hn Hnd.
  assert (Hrest : forall a, digits_value rest a = a).
  { intros a. destruct rest as [| c r]; [reflexivity |]. simpl in *.
    now destruct (isdigit c). }
  unfold decimal.
  rewrite (proj2 (Z.ltb_ge n 0)) by lia.
  unfold decimal_nat.
  assert (Happ : forall fuel m acc,
            decimal_digits fuel m acc +:+ rest
            = decimal_digits fuel m (acc +:+ rest)).
  { induction fuel as [| f IH]; intros m acc; simpl; [reflexivity |].
    destruct (m <? 10); [reflexivity |]. now rewrite IH. }
  rewrite Happ. change (EmptyString +:+ rest) with rest.
  destruct (decimal_digits_head (S (Z.to_nat (Z.log2 n))) n rest
              ltac:(lia) ltac:(lia)) as (c & r & E & Hc).
  destruct (digits_value_decimal_digits _ n rest 0
              (decimal_nat_fuel n ltac:(lia))) as (k & _ & Hv).
  rewrite Hrest, E in Hv. replace (0 * 10 ^ k + n) with n in Hv by lia.
  destruct (isdigit_not_sign c Hc) as (Hsp & Hm & Hp).
  unfold atoi, strtol10. rewrite E. simpl skip_space. rewrite Hsp.
  rewrite Hm, Hp, Hv.
  rewrite Z.min_r, Z.max_r by (unfold LLONG_MAX, LLONG_MIN; codes; lia).
  apply int_of_id. codes. lia.
Qed.

Example atoi_decimal_1080 :
  atoi "1080" = 1080 /\ atoi "1080p60" = 1080 /\ atoi "  -12abc" = -12.
Proof. vm_compute. auto. Qed.

(** ** The formatting helpers of terminal_ui.c *)

Lemma string_length_append (s1 s2 : string) :
  String.length (s1 +:+ s2) = (String.length s1 + String.length s2)%nat.
Proof. induction s1 as [| c s IH]; simpl; [reflexivity | now rewrite IH]. Qed.

Lemma decimal_digits_length (fuel : nat) :
  forall n k acc,
  0 <= n < 10 ^ Z.of_nat (S k) ->
  (String.length (decimal_digits fuel n acc) <= S k + String.length acc)%nat.
Proof.
  induction fuel as [| f IH]; intros n k acc Hn; simpl; [lia |].
  destruct (Z.ltb_spec n 10) as [Hs | Hl]; simpl; [lia |].
  destruct k as [| k'].
  - simpl in Hn. lia.
  - assert (Hq : 0 <= n / 10 < 10 ^ Z.of_nat (S k')).
    { split; [apply Z.div_pos; lia |].
      apply Z.div_lt_upper_bound; [lia |].
      rewrite (Nat2Z.inj_succ (S k')), Z.pow_succ_r in Hn by lia. lia. }
    specialize (IH (n / 10) k' (String (digit_char (n mod 10)) acc) Hq).
    simpl in IH. lia.
Qed.

Lemma decimal_length (n : Z) (k : nat) :
  - 10 ^ Z.of_nat (S k) < n < 10 ^ Z.of_nat (S k) ->
  (String.length (decimal n) <= S (S k))%nat.
Proof.
  intros Hn. unfold decimal, decimal_nat.
  destruct (Z.ltb_spec n 0).
  - pose proof (decimal_digits_length (S (Z.to_nat (Z.log2 (- n))))
                  (- n) k EmptyString ltac:(lia)) as H1.
    change (String.length EmptyString) with 0%nat in H1.
    cbn [String.length]. lia.
  - pose proof (decimal_digits_length (S (Z.to_nat (Z.log2 n)))
                  n k EmptyString ltac:(lia)) as H1.
    change (String.length EmptyString) with 0%nat in H1. lia.
Qed.

(** X8. [ui_format_time] shows a duration without inventing time: below
    60 it prints the seconds; from 60 to 3599 it prints [m] minutes and
    [r] seconds with [60 m + r] the duration and [r < 60]; from 3600 on
    it prints [h] hours and [m] minutes, dropping less than a minute.
    For every [int] the text is shorter than the 32-byte buffers of the
    callers, so it is never cut. *)
Theorem ui_format_time_parts (seconds : Z) :
  (seconds < 60 -> ui_format_time seconds = decimal seconds +:+ "s")
  /\ (60 <= seconds < 3600 ->
      exists m r,
        ui_format_time seconds
        = decimal m +:+ "m " +:+ decimal r +:+ "s"
        /\ seconds = 60 * m + r /\ 1 <= m < 60 /\ 0 <= r < 60)
  /\ (3600 <= seconds ->
      exists h m,
        ui_format_time seconds = decimal h +:+ "h " +:+ decimal m +:+ "m"
        /\ 3600 * h + 60 * m <= seconds < 3600 * h + 60 * m + 60
        /\ 1 <= h /\ 0 <= m < 60)
  /\ (INT_MIN <= seconds <= INT_MAX ->
      (String.length (ui_format_time seconds) < 32)%nat).
Proof.
  assert (Hmin : 60 <= seconds < 3600 ->
            let m := Z.quot seconds 60 in
            let r := Z.rem seconds 60 in
            seconds = 60 * m + r /\ 1 <= m < 60 /\ 0 <= r < 60).
  { intros Hs. cbv zeta.
    rewrite Z.quot_div_nonneg, Z.rem_mod_nonneg by lia.
    pose proof (Z.div_mod seconds 60 ltac:(lia)).
    pose proof (Z.mod_pos_bound seconds 60 ltac:(lia)). lia. }
  assert (Hhour : 3600 <= seconds ->
            let h := Z.quot seconds 3600 in
            let m := Z.quot (Z.rem seconds 3600) 60 in
            3600 * h + 60 * m <= seconds < 3600 * h + 60 * m + 60
            /\ 1 <= h /\ 0 <= m < 60
            /\ (seconds <= INT_MAX -> h < 10 ^ 6)).
  { intros Hs. cbv zeta.
    rewrite (Z.rem_mod_nonneg seconds 3600) by lia.
    pose proof (Z.mod_pos_bound seconds 3600 ltac:(lia)) as Hm.
    rewrite !Z.quot_div_nonneg by lia.
    pose proof (Z.div_mod seconds 3600 ltac:(lia)).
    pose proof (Z.div_mod (seconds mod 3600) 60 ltac:(lia)).
    pose proof (Z.mod_pos_bound (seconds mod 3600) 60 ltac:(lia)).
    codes. lia. }
  unfold ui_format_time.
  split; [| split; [| split]].
  - intros Hs. now rewrite (proj2 (Z.ltb_lt seconds 60) Hs).
  - intros Hs. rewrite (proj2 (Z.ltb_ge seconds 60)) by lia.
    rewrite (proj2 (Z.ltb_lt seconds 3600)) by lia.
    do 2 eexists. split; [reflexivity | exact (Hmin Hs)].
  - intros Hs. rewrite (proj2 (Z.ltb_ge seconds 60)) by lia.
    rewrite (proj2 (Z.ltb_ge seconds 3600)) by lia.
    destruct (Hhour Hs) as (H1 & H2 & H3 & _).
    do 2 eexists. split; [reflexivity | auto].
  - intros Hi. codes.
    destruct (Z.ltb_spec seconds 60) as [Hs | Hs];
      [| destruct (Z.ltb_spec seconds 3600) as [Hm | Hm]];
      rewrite !string_length_append; simpl String.length.
    + pose proof (decimal_length seconds 9 ltac:(simpl; lia)). lia.
    + destruct (Hmin ltac:(lia)) as (_ & H2 & H3).
      pose proof (decimal_length (Z.quot seconds 60) 1 ltac:(simpl; lia)).
      pose proof (decimal_length (Z.rem seconds 60) 1 ltac:(simpl; lia)).
      lia.
    + destruct (Hhour Hm) as (_ & H2 & H3 & H4).
      pose proof (decimal_length (Z.quot seconds 3600) 5
                    ltac:(simpl; lia)).
      pose proof (decimal_length (Z.quot (Z.rem seconds 3600) 60) 1
                    ltac:(simpl; lia)).
      lia.
Qed.

Lemma ui_format_time_parts_of_7325 :
  (String.length (ui_format_time 7325) < 32)%nat
  /\ exists h m,
       ui_format_time 7325 = decimal h +:+ "h " +:+ decimal m +:+ "m"
       /\ 3600 * h + 60 * m <= 7325 < 3600 * h + 60 * m + 60.
Proof.
  destruct (ui_format_time_parts 7325) as (_ & _ & Hh & Hlen).
  split.
  - apply Hlen. vm_compute. split; discriminate.
  - destruct (Hh ltac:(lia)) as (h & m & E & Hb & _).
    exists h, m. split; [exact E | exact Hb].
Defined.

Ltac unit_steps :=
  change (int_add 0 1) with 1;
  change (int_add 1 1) with 2;
  change (int_add 2 1) with 3;
  change (int_add 3 1) with 4;
  change (int_add 4 1) with 5;
  change (Z.pos (1 * 1024)) with 1024;
  change (Z.pos (1 * 1024 * 1024)) with 1048576;
  change (Z.pos (1 * 1024 * 1024 * 1024)) with 1073741824;
  change (Z.pos (1 * 1024 * 1024 * 1024 * 1024)) with 1099511627776.

Lemma scaled_start (bytes : Z) : scaled bytes 0 (Double.of_Z bytes).
Proof.
  split; [change (inject_Z (2 ^ 0)) with 1%Q; ring |].
  apply DoubleFacts.round_idempotent.
Qed.

Lemma scaled_step (bytes e : Z) (q : Q) :
  0 <= e -> scaled bytes e q -> scaled bytes (e + 10) (Double.div q 1024).
Proof.
  intros He [Hv Hr]. split; [| apply DoubleFacts.round_idempotent].
  assert (E : (Double.div q 1024 == q / 1024)%Q).
  { unfold Double.div.
    assert (Eq : (q / 1024 == Double.round q / 1024)%Q) by now rewrite Hr.
    rewrite (DoubleFacts.round_proper _ _ Eq).
    rewrite (DoubleFacts.div_1024 q). now rewrite Hr. }
  rewrite E, <- Hv, Z.pow_add_r, inject_Z_mult by lia.
  change (inject_Z (2 ^ 10)) with 1024%Q. field.
Qed.

Lemma scaled_ge (bytes e k : Z) (q : Q) :
  0 <= e -> 0 <= k -> 2 ^ k * 2 ^ e <= 2 ^ 53 ->
  scaled bytes e q ->
  Qle_bool (inject_Z (2 ^ k)) q = (2 ^ k * 2 ^ e <=? bytes).
Proof.
  intros He Hk Hb [Hv _].
  assert (Hpos : (0 < inject_Z (2 ^ e))%Q).
  { change 0%Q with (inject_Z 0). rewrite <- Zlt_Qlt.
    apply Z.pow_pos_nonneg; lia. }
  assert (Hpk : 0 < 2 ^ k * 2 ^ e)
    by (apply Z.mul_pos_pos; apply Z.pow_pos_nonneg; lia).
  apply eq_true_iff_eq. rewrite Qle_bool_iff, Z.leb_le.
  rewrite <- (DoubleFacts.of_Z_ge (2 ^ k * 2 ^ e) bytes) by lia.
  rewrite <- Hv, inject_Z_mult. symmetry. apply Qmult_le_r. exact Hpos.
Qed.

Lemma ui_format_bytes_cases (bytes : Z) :
  let s0 := Double.of_Z bytes in
  let s1 := Double.div s0 1024 in
  let s2 := Double.div s1 1024 in
  let s3 := Double.div s2 1024 in
  let s4 := Double.div s3 1024 in
  (bytes < 2 ^ 10 -> ui_format_bytes bytes = PlainBytes bytes)
  /\ (2 ^ 10 <= bytes < 2 ^ 20 ->
      ui_format_bytes bytes = ScaledBytes s1 1 /\ (s1 < 1024)%Q)
  /\ (2 ^ 20 <= bytes < 2 ^ 30 ->
      ui_format_bytes bytes = ScaledBytes s2 2 /\ (s2 < 1024)%Q)
  /\ (2 ^ 30 <= bytes < 2 ^ 40 ->
      ui_format_bytes bytes = ScaledBytes s3 3 /\ (s3 < 1024)%Q)
  /\ (2 ^ 40 <= bytes -> ui_format_bytes bytes = ScaledBytes s4 4).
Proof.
  intros s0 s1 s2 s3 s4.
  pose proof (scaled_start bytes) as H0. fold s0 in H0.
  pose proof (scaled_step bytes 0 s0 ltac:(lia) H0) as H1. fold s1 in H1.
  pose proof (scaled_step bytes 10 s1 ltac:(lia) H1) as H2. fold s2 in H2.
  pose proof (scaled_step bytes 20 s2 ltac:(lia) H2) as H3. fold s3 in H3.
  pose proof (scaled_ge bytes 0 10 s0 ltac:(lia) ltac:(lia) ltac:(lia) H0) as C0.
  pose proof (scaled_ge bytes 10 10 s1 ltac:(lia) ltac:(lia) ltac:(lia) H1) as C1.
  pose proof (scaled_ge bytes 20 10 s2 ltac:(lia) ltac:(lia) ltac:(lia) H2) as C2.
  pose proof (scaled_ge bytes 30 10 s3 ltac:(lia) ltac:(lia) ltac:(lia) H3) as C3.
  change (inject_Z (2 ^ 10)) with 1024%Q in C0, C1, C2, C3.
  change (2 ^ 10 * 2 ^ 0) with (2 ^ 10) in C0.
  change (2 ^ 10 * 2 ^ 10) with (2 ^ 20) in C1.
  change (2 ^ 10 * 2 ^ 20) with (2 ^ 30) in C2.
  change (2 ^ 10 * 2 ^ 30) with (2 ^ 40) in C3.
  assert (Hlt : forall q t, Qle_bool 1024 q = (t <=? bytes) -> bytes < t ->
                  (q < 1024)%Q).
  { intros q t Hq Ht. apply Qnot_le_lt. intros Hle.
    apply Qle_bool_iff in Hle. rewrite Hq in Hle. apply Z.leb_le in Hle. lia. }
  unfold ui_format_bytes. cbn [scale_size]. fold s0 s1 s2 s3 s4.
  unit_steps. rewrite C0, C1, C2, C3.
  change (0 <? 4) with true. change (1 <? 4) with true.
  change (2 <? 4) with true. change (3 <? 4) with true.
  change (4 <? 4) with false. rewrite andb_false_r, !andb_true_r.
  split; [| split; [| split; [| split]]]; intros Hb.
  - rewrite (proj2 (Z.leb_gt _ _)) by lia. reflexivity.
  - split; [| apply (Hlt s1 (2 ^ 20) C1); lia].
    rewrite (proj2 (Z.leb_le (2 ^ 10) _)), (proj2 (Z.leb_gt (2 ^ 20) _)) by lia.
    reflexivity.
  - split; [| apply (Hlt s2 (2 ^ 30) C2); lia].
    rewrite (proj2 (Z.leb_le (2 ^ 10) _)), (proj2 (Z.leb_le (2 ^ 20) _)),
      (proj2 (Z.leb_gt (2 ^ 30) _)) by lia.
    reflexivity.
  - split; [| apply (Hlt s3 (2 ^ 40) C3); lia].
    rewrite (proj2 (Z.leb_le (2 ^ 10) _)), (proj2 (Z.leb_le (2 ^ 20) _)),
      (proj2 (Z.leb_le (2 ^ 30) _)), (proj2 (Z.leb_gt (2 ^ 40) _)) by lia.
    reflexivity.
  - rewrite (proj2 (Z.leb_le (2 ^ 10) _)), (proj2 (Z.leb_le (2 ^ 20) _)),
      (proj2 (Z.leb_le (2 ^ 30) _)), (proj2 (Z.leb_le (2 ^ 40) _)) by lia.
    reflexivity.
Qed.

Lemma scaled_value (bytes u : Z) (q : Q) :
  0 <= u -> 1024 ^ u <= 2 ^ 53 -> 1024 ^ u <= bytes ->
  scaled bytes (10 * u) q ->
  (q * inject_Z (1024 ^ u) == Double.of_Z bytes)%Q
  /\ (bytes <= 2 ^ 53 -> (q * inject_Z (1024 ^ u) == inject_Z bytes)%Q)
  /\ (1 <= q)%Q.
Proof.
  intros Hu Hb Hge [Hv _].
  assert (E : 2 ^ (10 * u) = 1024 ^ u)
    by (rewrite Z.pow_mul_r by lia; reflexivity).
  rewrite E in Hv.
  assert (Hpos : 0 < 1024 ^ u) by (apply Z.pow_pos_nonneg; lia).
  split; [exact Hv |]. split.
  - intros Hs. rewrite Hv. apply DoubleFacts.of_Z_exact. lia.
  - apply (Qmult_le_r _ _ (inject_Z (1024 ^ u))).
    + now rewrite (Zlt_Qlt 0) in Hpos.
    + rewrite Hv, Qmult_1_l. apply DoubleFacts.of_Z_ge; lia.
Qed.

(** X9. [ui_format_bytes] picks the unit by the size: a count below
    1024 (negative ones too) is printed as it is, in B; from 1024 on the
    count is converted to a double and divided by 1024 once per unit
    step, which is exact, so the number shown times [1024 ^ unit] is the
    converted count, and the count itself up to [2 ^ 53], below which
    the conversion does not round; the number shown is at least 1, and
    it is below 1024 except in the last unit, TB, which takes every
    larger count. *)
Theorem ui_format_bytes_units (bytes : Z) :
  (bytes < 1024 -> ui_format_bytes bytes = PlainBytes bytes)
  /\ (1024 <= bytes ->
      exists size u,
        ui_format_bytes bytes = ScaledBytes size u
        /\ 1 <= u <= 4
        /\ (size * inject_Z (1024 ^ u) == Double.of_Z bytes)%Q
        /\ (bytes <= 2 ^ 53 ->
            (size * inject_Z (1024 ^ u) == inject_Z bytes)%Q)
        /\ (1 <= size)%Q
        /\ (u < 4 -> (size < 1024)%Q)
        /\ (u = 4 <-> 1024 ^ 4 <= bytes)
        /\ is_Some (unit_name (ui_format_bytes bytes))).
Proof.
  destruct (ui_format_bytes_cases bytes) as (P0 & P1 & P2 & P3 & P4).
  cbv zeta in P1, P2, P3, P4.
  pose proof (scaled_start bytes) as H0.
  pose proof (scaled_step bytes 0 _ ltac:(lia) H0) as H1.
  pose proof (scaled_step bytes 10 _ ltac:(lia) H1) as H2.
  pose proof (scaled_step bytes 20 _ ltac:(lia) H2) as H3.
  pose proof (scaled_step bytes 30 _ ltac:(lia) H3) as H4.
  split; [exact P0 |]. intros Hb.
  destruct (Z_lt_le_dec bytes (2 ^ 20)) as [L1 | L1];
    [| destruct (Z_lt_le_dec bytes (2 ^ 30)) as [L2 | L2];
       [| destruct (Z_lt_le_dec bytes (2 ^ 40)) as [L3 | L3]]].
  - destruct (P1 ltac:(lia)) as [E Hlt].
    destruct (scaled_value bytes 1 _ ltac:(lia) ltac:(lia) ltac:(lia) H1)
      as (V1 & V2 & V3).
    rewrite E. do 2 eexists. split; [reflexivity |].
    split; [lia |]. split; [exact V1 |]. split; [exact V2 |].
    split; [exact V3 |]. split; [intros _; exact Hlt |].
    split; [lia | eexists; reflexivity].
  - destruct (P2 ltac:(lia)) as [E Hlt].
    destruct (scaled_value bytes 2 _ ltac:(lia) ltac:(lia) ltac:(lia) H2)
      as (V1 & V2 & V3).
    rewrite E. do 2 eexists. split; [reflexivity |].
    split; [lia |]. split; [exact V1 |]. split; [exact V2 |].
    split; [exact V3 |]. split; [intros _; exact Hlt |].
    split; [lia | eexists; reflexivity].
  - destruct (P3 ltac:(lia)) as [E Hlt].
    destruct (scaled_value bytes 3 _ ltac:(lia) ltac:(lia) ltac:(lia) H3)
      as (V1 & V2 & V3).
    rewrite E. do 2 eexists. split; [reflexivity |].
    split; [lia |]. split; [exact V1 |]. split; [exact V2 |].
    split; [exact V3 |]. split; [intros _; exact Hlt |].
    split; [lia | eexists; reflexivity].
  - pose proof (P4 ltac:(lia)) as E.
    destruct (scaled_value bytes 4 _ ltac:(lia) ltac:(lia) ltac:(lia) H4)
      as (V1 & V2 & V3).
    rewrite E. do 2 eexists. split; [reflexivity |].
    split; [lia |]. split; [exact V1 |]. split; [exact V2 |].
    split; [exact V3 |]. split; [intros Hu; lia |].
    split; [lia | eexists; reflexivity].
Qed.

Lemma ui_format_bytes_units_of_1500000 :
  exists size,
    ui_format_bytes 1500000 = ScaledBytes size 2
    /\ (size * inject_Z (1024 ^ 2) == inject_Z 1500000)%Q.
Proof.
  destruct (proj2 (ui_format_bytes_units 1500000) ltac:(lia))
    as (size & u & E & _ & _ & Hv & _).
  assert (Hu : u = 2) by (vm_compute in E; now injection E).
  subst u. exists size. split; [exact E | apply Hv; lia].
Defined.

(** Above [2 ^ 53] the conversion rounds: for the count
    9008023888461823 the size handed to [snprintf] is 8192.75, the size
    of the double next to the count, where the count itself over
    [1024 ^ 4] is a little less. *)
Example ui_format_bytes_rounds_large_counts :
  exists size,
    ui_format_bytes 9008023888461823 = ScaledBytes size 4
    /\ (size == 32771 # 4)%Q
    /\ (inject_Z 9008023888461823 / inject_Z (1024 ^ 4) < 32771 # 4)%Q.
Proof. eexists. vm_compute. repeat split. Qed.

(** ** Quality labels *)

Lemma strchr_append (w rest : string) (c : ascii) :
  strchr w c = None ->
  strchr (w +:+ String c rest) c = Some (String c rest).
Proof.
  induction w as [| a w IH]; simpl.
  - intros _. now rewrite Ascii.eqb_refl.
  - destruct (Ascii.eqb a c); [discriminate | exact IH].
Qed.

(** X10. [get_quality_label] reads the height after the first ['x'] of
    the resolution: for a resolution made of a width part without
    ['x'], an ['x'] and the decimal numeral of a height [h] (possibly
    followed by text that does not start with a digit), the label is the
    one of [h]: 4K UHD from 2160, 2K QHD from 1440, Full HD from 1080,
    HD from 720, SD from 480, none below. A resolution other than
    ["N/A"] that has no ['x'], such as ["audio only"], gets no label
    whatever the extension; ["N/A"] gets "Audio Only" exactly for the
    extensions m4a, webm and opus. *)
Theorem get_quality_label_cases (ext : option string) :
  (forall w h rest,
     strchr w "x" = None -> 0 <= h <= INT_MAX ->
     no_leading_digit rest = true ->
     get_quality_label (Some (w +:+ "x" +:+ decimal h +:+ rest)) ext
     = (if 2160 <=? h then "4K UHD"
        else if 1440 <=? h then "2K QHD"
        else if 1080 <=? h then "Full HD"
        else if 720 <=? h then "HD"
        else if 480 <=? h then "SD"
        else EmptyString))
  /\ (forall r, r <> "N/A" -> strchr r "x" = None ->
        get_quality_label (Some r) ext = EmptyString)
  /\ (get_quality_label (Some "N/A") ext = "Audio Only"
      <-> ext = Some "m4a" \/ ext = Some "webm" \/ ext = Some "opus")
  /\ (get_quality_label (Some "N/A") ext = "Audio Only"
      \/ get_quality_label (Some "N/A") ext = EmptyString).
Proof.
  split; [| split; [| split]].
  - intros w h rest Hw Hh Hrest. unfold get_quality_label.
    change ("x" +:+ decimal h +:+ rest)
      with (String "x" (decimal h +:+ rest)).
    pose proof (strchr_append w (decimal h +:+ rest) "x" Hw) as Hx.
    destruct (String.eqb_spec (w +:+ String "x" (decimal h +:+ rest)) "N/A")
      as [E | _].
    { rewrite E in Hx. discriminate Hx. }
    rewrite Hx, (atoi_decimal h rest Hh Hrest).
    unfold height_label. now rewrite !Z.geb_leb.
  - intros r Hr Hx. unfold get_quality_label.
    destruct (String.eqb_spec r "N/A") as [E | _]; [contradiction |].
    now rewrite Hx.
  - unfold get_quality_label, audio_label. simpl.
    destruct ext as [e |]; [| split; [discriminate | intros [H | [H | H]];
                                      discriminate]].
    destruct (String.eqb_spec e "m4a") as [-> | H1]; simpl; [tauto |].
    destruct (String.eqb_spec e "webm") as [-> | H2]; simpl; [tauto |].
    destruct (String.eqb_spec e "opus") as [-> | H3]; simpl; [tauto |].
    split; [discriminate |].
    intros [H | [H | H]]; injection H as ->; contradiction.
  - unfold get_quality_label, audio_label. simpl.
    destruct ext as [e |]; [| now right].
    destruct (_ || _); [now left | now right].
Qed.

Lemma get_quality_label_cases_full_hd :
  get_quality_label (Some "1920x1080") (Some "mp4") = "Full HD"
  /\ get_quality_label (Some "audio only") (Some "m4a") = EmptyString.
Proof.
  destruct (get_quality_label_cases (Some "mp4")) as (Hres & _).
  destruct (get_quality_label_cases (Some "m4a")) as (_ & Hnox & _).
  split.
  - exact (Hres "1920" 1080 EmptyString eq_refl
             ltac:(vm_compute; split; discriminate) eq_refl).
  - apply Hnox; [discriminate | reflexivity].
Defined.

(** ** The letter shortcuts *)

Lemma first_audio_from_first (ls : FormatListState) (fuel : nat) :
  forall i, 0 <= i -> total_formats ls <= INT_MAX ->
  total_formats ls - i <= Z.of_nat fuel ->
  match first_audio_from ls i fuel with
  | Some j =>
      i <= j < total_formats ls /\ audio_at ls j = true
      /\ (forall k, i <= k < j -> audio_at ls k = false)
  | None => forall k, i <= k < total_formats ls -> audio_at ls k = false
  end.
Proof.
  induction fuel as [| f IH]; intros i Hi Ht Hf; simpl.
  - intros k Hk. lia.
  - destruct (Z.ltb_spec i (total_formats ls)) as [Hlt | Hge];
      [| intros k Hk; lia].
    fold (audio_at ls i). destruct (audio_at ls i) eqn:Ha.
    + split; [lia |]. split; [exact Ha |]. intros k Hk. lia.
    + rewrite int_add_exact by (codes; lia).
      specialize (IH (i + 1) ltac:(lia) Ht ltac:(lia)).
      destruct (first_audio_from ls (i + 1) f) as [j |].
      * destruct IH as (Hj & Haj & Hbefore).
        split; [lia |]. split; [exact Haj |].
        intros k Hk. destruct (Z.eq_dec k i) as [-> | Hne]; [exact Ha |].
        apply Hbefore. lia.
      * intros k Hk. destruct (Z.eq_dec k i) as [-> | Hne]; [exact Ha |].
        apply IH. lia.
Qed.

(** X11. The ['a'] and ['A'] keys select the first audio entry: the
    smallest index below [total_formats] whose resolution is missing,
    is ["N/A"] or contains "audio"; no earlier entry passes that test.
    When no entry passes it the key is reported as not handled and the
    list state is left alone. *)
Theorem audio_shortcut_selects_first (ls : FormatListState) (ch : Z) :
  ch = chr "a" \/ ch = chr "A" ->
  total_formats ls <= INT_MAX ->
  (exists j,
     0 <= j < total_formats ls
     /\ audio_at ls j = true
     /\ (forall k, 0 <= k < j -> audio_at ls k = false)
     /\ handle_format_shortcut ch ls = (1, set_selected_index j ls))
  \/ ((forall k, 0 <= k < total_formats ls -> audio_at ls k = false)
      /\ handle_format_shortcut ch ls = (0, ls)).
Proof.
  intros Hch Ht.
  assert (E : handle_format_shortcut ch ls
              = match first_audio_from ls 0 (Z.to_nat (total_formats ls)) with
                | Some i => (1, set_selected_index i ls)
                | None => (0, ls)
                end).
  { unfold handle_format_shortcut.
    destruct Hch as [-> | ->]; codes; reflexivity. }
  rewrite E.
  pose proof (first_audio_from_first ls (Z.to_nat (total_formats ls)) 0
                ltac:(lia) Ht ltac:(lia)) as H.
  destruct (first_audio_from ls 0 _) as [j |].
  - left. exists j. tauto.
  - right. auto.
Qed.

Lemma audio_shortcut_selects_first_of_five :
  handle_format_shortcut (chr "a") (demo_list 0)
  = (1, set_selected_index 3 (demo_list 0))
  /\ handle_format_shortcut (chr "A")
       (initial_list demo_ui [sample_format; sample_format])
     = (0, initial_list demo_ui [sample_format; sample_format]).
Proof.
  split.
  - destruct (audio_shortcut_selects_first (demo_list 0) (chr "a")
                (or_introl eq_refl) ltac:(vm_compute; discriminate))
      as [(j & Hj & Ha & Hb & E) | [Hnone _]].
    + rewrite E. f_equal. f_equal.
      change (total_formats (demo_list 0)) with 5 in Hj.
      assert (j = 0 \/ j = 1 \/ j = 2 \/ j = 3 \/ j = 4) as Hc by lia.
      destruct Hc as [-> | [-> | [-> | [-> | ->]]]];
        try (vm_compute in Ha; discriminate Ha); [reflexivity |].
      specialize (Hb 3 ltac:(lia)). vm_compute in Hb. discriminate Hb.
    + specialize (Hnone 3 ltac:(change (0 <= 3 < 5); lia)).
      vm_compute in Hnone. discriminate Hnone.
  - destruct (audio_shortcut_selects_first
                (initial_list demo_ui [sample_format; sample_format])
                (chr "A") (or_intror eq_refl)
                ltac:(vm_compute; discriminate))
      as [(j & Hj & Ha & _) | [_ E]]; [| exact E].
    change (0 <= j < 2) in Hj.
    assert (j = 0 \/ j = 1) as [-> | ->] by lia;
      vm_compute in Ha; discriminate Ha.
Defined.

(** ** Jumping to the ends of the list *)

Lemma select_step_blocking_key (st : UIState) (ls : FormatListState)
    (g ch : Z) (rest : input) :
  steady st ->
  wgetch (content_delay (ui_handle_resize st)) (Pending g ch :: rest)
  = Some (ch, rest)
  /\ ui_handle_resize st = st.
Proof.
  intros [Hr Hd]. rewrite (ui_handle_resize_none st Hr), Hd. auto.
Qed.

(** X12. The keys ['b'], ['B'] and Home do the same thing, and so do
    ['w'], ['W'] and End. In a content window of at least 5 rows, with
    the list invariant, the first group selects entry 0 and scrolls to
    the top ([visible_start = 0]); the second selects the last entry
    and shows the end of the list
    ([visible_start + visible_lines >= total_formats]); both leave the
    invariant in place. *)
Theorem jump_keys (st : UIState) (ls : FormatListState) (g : Z)
    (rest : input) :
  steady st ->
  (forall ch, In ch [KEY_HOME; chr "b"; chr "B"] ->
     select_step st ls (Pending g ch :: rest)
     = Continue st (key_home st ls) rest)
  /\ (forall ch, In ch [KEY_END; chr "w"; chr "W"] ->
        select_step st ls (Pending g ch :: rest)
        = Continue st (key_end st ls) rest)
  /\ (forall h, 5 <= h -> ui_ok h st -> list_ok h ls ->
        selected_index (key_home st ls) = 0
        /\ visible_start (key_home st ls) = 0
        /\ list_invariant (key_home st ls)
        /\ selected_index (key_end st ls) = total_formats ls - 1
        /\ total_formats ls
           <= visible_start (key_end st ls) + visible_lines (key_end st ls)
        /\ list_invariant (key_end st ls)).
Proof.
  intros Hst.
  split; [| split].
  - intros ch Hch. unfold select_step.
    destruct (select_step_blocking_key st ls g ch rest Hst) as [-> ->].
    simpl in Hch. destruct Hch as [<- | [<- | [<- | []]]];
      codes; decide_tests; reflexivity.
  - intros ch Hch. unfold select_step.
    destruct (select_step_blocking_key st ls g ch rest Hst) as [-> ->].
    simpl in Hch. destruct Hch as [<- | [<- | [<- | []]]];
      codes; decide_tests; reflexivity.
  - intros h Hh Hui Hls.
    pose proof (key_home_ok h st ls Hh Hui Hls) as (Hvl & Hvs & [Hv Hs] & _).
    pose proof (key_end_ok h st ls Hh Hui Hls) as (Evl & Evs & [Ev Es] & _).
    pose proof (list_ok_total h ls Hh Hls) as Ht.
    destruct (update_format_display_frame st (set_selected_index 0 ls))
      as (Hsel & _).
    destruct (update_format_display_frame st
                (set_selected_index (int_sub (total_formats ls) 1) ls))
      as (Esel & Etot & _).
    unfold key_home, key_end in *.
    rewrite Hsel in *. rewrite Esel, Etot in *. simpl in *.
    rewrite int_sub_exact in * by (codes; lia).
    repeat split; lia.
Qed.

Lemma jump_keys_on_fifteen :
  selected_index
    (key_end demo_ui (initial_list (ui_for_terminal 19 80) fifteen_formats))
  = 15 - 1
  /\ select_step demo_ui (demo_list 2) (typed [chr "b"])
     = Continue demo_ui (key_home demo_ui (demo_list 2)) [].
Proof.
  destruct (jump_keys (ui_for_terminal 19 80)
              (initial_list (ui_for_terminal 19 80) fifteen_formats) 0 []
              (conj eq_refl eq_refl)) as (_ & _ & Hends).
  destruct (jump_keys demo_ui (demo_list 2) 0 [] (conj eq_refl eq_refl))
    as (Hhome & _).
  split.
  - destruct (Hends 14 ltac:(lia) (conj eq_refl eq_refl)
                ltac:(vm_compute; repeat split; discriminate))
      as (_ & _ & _ & He & _).
    exact He.
  - apply Hhome. simpl. auto.
Defined.

(** ** The rows of the table *)

Lemma json_array_get_in_range (fs : list format) (k : Z) :
  0 <= k < Z.of_nat (length fs) ->
  exists f, json_array_get (Some fs) k = Some f.
Proof.
  intros Hk. unfold json_array_get.
  destruct (Z.ltb_spec k 0); [lia |].
  destruct (lookup_lt_is_Some_2 fs (Z.to_nat k)) as [f Hf]; [lia |].
  exists f. exact Hf.
Qed.

Lemma omap_cons {A B : Type} (f : A -> option B) (x : A) (l : list A) :
  omap f (x :: l)
  = match f x with Some y => y :: omap f l | None => omap f l end.
Proof. reflexivity. Qed.

(** The drawing loop from the counter value [i] on: it stops at the end
    of the viewport or of the list, whichever comes first, and hands
    every entry on its way to [draw_format_entry], with the window line
    [4 + j], the index and the selection flag of that entry. *)
Lemma draw_visible_formats_rows (colors : bool) (fs : list format)
    (ls : FormatListState) :
  0 <= visible_start ls ->
  visible_start ls + visible_lines ls <= INT_MAX ->
  visible_lines ls + 4 <= INT_MAX ->
  forall fuel i, 0 <= i -> visible_lines ls - i <= Z.of_nat fuel ->
  let shown := Z.min (visible_lines ls) (total_formats ls - visible_start ls) in
  draw_visible_formats colors (Some fs) ls i fuel
  = omap (fun j =>
            draw_format_entry (4 + j) (visible_start ls + j)
              (fs !! Z.to_nat (visible_start ls + j))
              (visible_start ls + j =? selected_index ls) colors)
         (seqZ i (shown - i)).
Proof.
  intros Hvs Hmax Hlines fuel.
  induction fuel as [| k IH]; intros i Hi Hfuel shown.
  - rewrite seqZ_nil by (subst shown; lia). reflexivity.
  - cbn [draw_visible_formats].
    destruct (Z.ltb_spec i (visible_lines ls)) as [Hlt | Hge]; cbn [andb];
      [| rewrite seqZ_nil by (subst shown; lia); reflexivity].
    rewrite (int_add_exact (visible_start ls) i) by (codes; lia).
    destruct (Z.ltb_spec (visible_start ls + i) (total_formats ls))
      as [Hin | Hout];
      [| rewrite seqZ_nil by (subst shown; lia); reflexivity].
    rewrite seqZ_cons by (subst shown; lia).
    replace (Z.pred (shown - i)) with (shown - (i + 1)) by lia.
    replace (Z.succ i) with (i + 1) by lia.
    rewrite omap_cons.
    rewrite (int_add_exact i 1) by (codes; lia).
    rewrite (int_add_exact 4 i) by (codes; lia).
    unfold json_array_get.
    rewrite (proj2 (Z.ltb_ge (visible_start ls + i) 0)) by lia.
    specialize (IH (i + 1) ltac:(lia) ltac:(lia)). cbv zeta in IH.
    fold shown in IH. rewrite IH. reflexivity.
Qed.

Lemma omap_all_some {A B : Type} (f : A -> option B) (g : A -> B)
    (l : list A) :
  (forall x, x ∈ l -> f x = Some (g x)) -> omap f l = map g l.
Proof.
  induction l as [| x l IH]; intros H; [reflexivity |].
  rewrite omap_cons. cbn [map]. rewrite (H x) by apply list_elem_of_here.
  f_equal. apply IH. intros y Hy. apply H. now apply list_elem_of_further.
Qed.

Lemma draw_format_entry_object (y index : Z) (f : format)
    (selected colors : bool) :
  index + 1 <= INT_MAX -> INT_MIN <= index + 1 ->
  is_object f = true ->
  draw_format_entry y index (Some f) selected colors
  = Some (row_of y index f selected colors).
Proof.
  intros Hhi Hlo Hobj. unfold draw_format_entry, get_format_info, row_of.
  rewrite Hobj. simpl negb. cbv iota beta zeta.
  rewrite int_add_exact by (codes; lia). reflexivity.
Qed.

Lemma draw_format_entry_no_object (y index : Z) (f : format)
    (selected colors : bool) :
  is_object f = false ->
  draw_format_entry y index (Some f) selected colors = None.
Proof.
  intros Hobj. unfold draw_format_entry, get_format_info.
  now rewrite Hobj.
Qed.

(** X13. The table [ui_display_formats] draws for a list state that
    satisfies the invariant in a content window of [h] rows. The title
    shows [total_formats]. The loop hands the
    [min (h - 4, total_formats - visible_start)] consecutive entries
    from [visible_start] on to [draw_format_entry], entry
    [visible_start + j] with the window line [4 + j], and the rows of
    the table are what those calls print, in that order; an element
    that is not an object prints nothing. When every element is an
    object, no entry is skipped: row [j] is on line [4 + j], carries the
    number [visible_start + j + 1] and shows the format id, resolution
    and extension of entry [visible_start + j] (["N/A"] for one that is
    missing), its size when that is positive, and the quality label of
    its resolution and extension; it is highlighted exactly when the
    terminal has colours and the entry is the selected one, and its
    quality label is coloured only when the terminal has colours and
    the entry is not the selected one; the row of [selected_index] is
    among those drawn. The upper scroll mark is drawn exactly when
    [visible_start > 0], the lower one exactly when entries remain below
    the viewport. *)
Theorem ui_display_formats_rows (h : Z) (st : UIState) (fs : list format)
    (ls : FormatListState) :
  ncurses_available st = true ->
  content_height st = h ->
  list_ok h ls ->
  formats ls = Some fs ->
  total_formats ls = Z.of_nat (length fs) ->
  let shown := Z.min (h - 4) (total_formats ls - visible_start ls) in
  exists s,
    ui_display_formats_screen st (formats ls) ls = Some s
    /\ title_total s = total_formats ls
    /\ rows s
       = omap (fun j =>
                 draw_format_entry (4 + j) (visible_start ls + j)
                   (fs !! Z.to_nat (visible_start ls + j))
                   (visible_start ls + j =? selected_index ls)
                   (colors_supported st))
              (seqZ 0 shown)
    /\ (forall j f,
          0 <= j < shown -> fs !! Z.to_nat (visible_start ls + j) = Some f ->
          is_object f = false ->
          draw_format_entry (4 + j) (visible_start ls + j) (Some f)
            (visible_start ls + j =? selected_index ls) (colors_supported st)
          = None)
    /\ (Forall (fun f => is_object f = true) fs ->
        length (rows s) = Z.to_nat shown
        /\ (forall j, 0 <= j < shown ->
              exists f row,
                fs !! Z.to_nat (visible_start ls + j) = Some f
                /\ rows s !! Z.to_nat j = Some row
                /\ row_y row = 4 + j
                /\ row_number row = visible_start ls + j + 1
                /\ row_format_id row = default "N/A" (format_id f)
                /\ row_resolution row = default "N/A" (resolution f)
                /\ row_ext row = default "N/A" (ext f)
                /\ row_size row
                   = (if default 0 (filesize f) >? 0
                      then Some (ui_format_bytes (default 0 (filesize f)))
                      else None)
                /\ row_quality row
                   = get_quality_label (Some (default "N/A" (resolution f)))
                                       (Some (default "N/A" (ext f)))
                /\ (row_highlight row = true
                    <-> colors_supported st = true
                        /\ visible_start ls + j = selected_index ls)
                /\ (row_quality_color row <> None ->
                    colors_supported st = true
                    /\ visible_start ls + j <> selected_index ls
                    /\ row_quality_color row
                       = quality_color (row_quality row)))
        /\ 0 <= selected_index ls - visible_start ls < shown)
    /\ (scroll_up s = true <-> 0 < visible_start ls)
    /\ (scroll_down s = true <-> visible_start ls + (h - 4) < total_formats ls).
Proof.
  intros Hn Hch (Hvl & Hvs & [Hview Hsel] & Hmax) Hf Htot shown.
  unfold ui_display_formats_screen, ui_display_formats.
  rewrite Hf, Hn. simpl. rewrite Hch.
  rewrite int_sub_exact by (codes; lia).
  set (ls' := set_visible_lines (h - 4) ls).
  pose proof (draw_visible_formats_rows (colors_supported st) fs ls') as Hrows.
  specialize (Hrows ltac:(simpl; lia) ltac:(simpl; codes; lia)
                    ltac:(simpl; codes; lia) (Z.to_nat (h - 4)) 0
                    ltac:(lia) ltac:(simpl; lia)).
  cbv zeta in Hrows. simpl in Hrows. rewrite Z.sub_0_r in Hrows.
  fold shown in Hrows.
  eexists. split; [reflexivity |]. simpl.
  rewrite int_add_exact by (codes; lia).
  split; [reflexivity |]. split; [exact Hrows |].
  split; [| split; [| split]].
  - intros j f _ _ Hobj. now apply draw_format_entry_no_object.
  - intros Hall. rewrite Hrows.
    set (g := fun j =>
                row_of (4 + j) (visible_start ls + j)
                  (default (Format None None None None)
                     (fs !! Z.to_nat (visible_start ls + j)))
                  (visible_start ls + j =? selected_index ls)
                  (colors_supported st)).
    assert (Hentry : forall j, 0 <= j < shown ->
              exists f, fs !! Z.to_nat (visible_start ls + j) = Some f
                        /\ is_object f = true).
    { intros j Hj.
      destruct (lookup_lt_is_Some_2 fs (Z.to_nat (visible_start ls + j)))
        as [f Hfj]; [subst shown; lia |].
      exists f. split; [exact Hfj |].
      rewrite Forall_forall in Hall. apply Hall.
      eapply list_elem_of_lookup_2. exact Hfj. }
    rewrite (omap_all_some _ g).
    2:{ intros j Hj. apply list_elem_of_lookup_1 in Hj as [i Hi].
        apply lookup_seqZ in Hi as [-> Hi].
        destruct (Hentry (0 + Z.of_nat i) ltac:(lia)) as (f & Hfj & Hobj).
        subst g. cbv beta. rewrite Hfj. simpl default.
        apply draw_format_entry_object; [codes; subst shown; lia
                                        | codes; lia | exact Hobj]. }
    split; [now rewrite length_map, length_seqZ |].
    split; [| subst shown; lia].
    intros j Hj. destruct (Hentry j Hj) as (f & Hfj & Hobj).
    exists f, (g j). split; [exact Hfj |].
    split.
    { rewrite list_lookup_fmap, (lookup_seqZ_lt 0 shown (Z.to_nat j)) by lia.
      simpl. f_equal. f_equal. lia. }
    subst g. cbv beta. rewrite Hfj. simpl default. unfold row_of. simpl.
    do 7 (split; [reflexivity |]).
    split; [split |].
    + intros Hhl. apply andb_true_iff in Hhl as [He Hc].
      apply Z.eqb_eq in He. auto.
    + intros [Hc He]. apply andb_true_iff. split; [| exact Hc].
      now apply Z.eqb_eq.
    + intros Hq.
      destruct (Z.eqb_spec (visible_start ls + j) (selected_index ls))
        as [He | He]; [now contradiction Hq |].
      destruct (colors_supported st); [| now contradiction Hq].
      auto.
  - rewrite Z.gtb_ltb. apply Z.ltb_lt.
  - apply Z.ltb_lt.
Qed.

Lemma ui_display_formats_rows_of_five :
  exists s row,
    ui_display_formats_screen demo_ui (formats (demo_list 2)) (demo_list 2)
    = Some s
    /\ length (rows s) = 5%nat
    /\ rows s !! 2%nat = Some row
    /\ row_y row = 6 /\ row_number row = 3
    /\ row_format_id row = "135"%string
    /\ row_resolution row = "854x480"%string
    /\ row_highlight row = true
    /\ scroll_up s = false /\ scroll_down s = false.
Proof.
  destruct (ui_display_formats_rows 19 demo_ui five_formats (demo_list 2))
    as (s & Hs & _ & _ & _ & Hall & Hup & Hdown);
    try reflexivity.
  { vm_compute. repeat split; discriminate. }
  destruct Hall as (Hlen & Hrow & _).
  { repeat constructor. }
  destruct (Hrow 2 ltac:(vm_compute; split; [discriminate | reflexivity]))
    as (f & row & Hfj & Hr & Hy & Hnum & Hid & Hres & _ & _ & _ & Hhl & _).
  vm_compute in Hfj. injection Hfj as <-.
  exists s, row. split; [exact Hs |]. split; [exact Hlen |].
  split; [exact Hr |]. split; [exact Hy |]. split; [exact Hnum |].
  split; [exact Hid |]. split; [exact Hres |].
  split; [apply Hhl; split; reflexivity |].
  split.
  - destruct (scroll_up s); [| reflexivity].
    exfalso. apply (Z.lt_irrefl 0). apply Hup. reflexivity.
  - destruct (scroll_down s); [| reflexivity].
    exfalso. assert (H : 0 + (19 - 4) < 5) by (apply Hdown; reflexivity). lia.
Defined.

(** A terminal without colours highlights no row, and an element of the
    array that is not an object gets no row. *)
Example ui_display_formats_plain_terminal :
  let st := set_colors_supported false demo_ui in
  let fs := Element false None None None None :: five_formats in
  let ls := initial_list st fs in
  exists s,
    ui_display_formats_screen st (Some fs) ls = Some s
    /\ title_total s = 6
    /\ map row_number (rows s) = [2; 3; 4; 5; 6]
    /\ map row_highlight (rows s) = [false; false; false; false; false].
Proof. eexists. vm_compute. repeat split. Qed.

(** ** What a session leaves untouched, and what it returns *)

Lemma escape_bracket_frame (st : UIState) (ls ls' : FormatListState)
    (c : Z) (rest rest' : input) :
  escape_bracket st ls c rest = Some (ls', rest') ->
  formats ls' = formats ls /\ total_formats ls' = total_formats ls.
Proof.
  unfold escape_bracket, arrow_up, arrow_down, page_up, page_down.
  repeat match goal with
  | |- context [if ?x =? ?k then _ else _] => destruct (x =? k)
  | |- context [if ?x >? ?k then _ else _] => destruct (x >? k)
  | |- context [if ?x <? ?k then _ else _] => destruct (x <? k)
  | |- context [match wgetch ?d ?i with _ => _ end] =>
      destruct (wgetch d i) as [[? ?] |]
  end;
  intros [= <- <-] || discriminate;
  try match goal with
  | |- context [update_format_display ?s ?l] =>
      destruct (update_format_display_frame s l) as (_ & -> & ->)
  end; auto.
Qed.

Lemma select_step_frame (st : UIState) (ls : FormatListState) (inp : input) :
  match select_step st ls inp with
  | Continue _ ls' _ | Stop _ _ ls' _ | Blocked _ ls' =>
      formats ls' = formats ls /\ total_formats ls' = total_formats ls
  end.
Proof.
  unfold select_step.
  destruct (wgetch _ inp) as [[ch rest] |]; [| auto].
  assert (Hupd : forall s l, formats l = formats ls ->
            total_formats l = total_formats ls ->
            formats (update_format_display s l) = formats ls
            /\ total_formats (update_format_display s l) = total_formats ls).
  { intros s l Hf Ht.
    destruct (update_format_display_frame s l) as (_ & -> & ->). auto. }
  unfold arrow_up, arrow_down, page_up, page_down, key_home, key_end.
  destruct (ch =? KEY_UP); [destruct (_ >? _); auto |].
  destruct (ch =? KEY_DOWN); [destruct (_ <? _); auto |].
  destruct (ch =? KEY_PPAGE); [auto |].
  destruct (ch =? KEY_NPAGE); [auto |].
  destruct (ch =? KEY_HOME); [auto |].
  destruct (ch =? KEY_END); [auto |].
  destruct ((ch =? 10) || (ch =? 13) || (ch =? KEY_ENTER)); [auto |].
  destruct (ch =? 27).
  { unfold escape_key.
    destruct (wgetch _ rest) as [[next_ch rest1] |]; [| auto].
    destruct (next_ch =? ERR); [auto |].
    destruct (next_ch =? chr "["); [| auto].
    destruct (wgetch _ rest1) as [[third_ch rest2] |]; [| auto].
    destruct (escape_bracket _ ls third_ch rest2) as [[ls' rest3] |] eqn:Hb;
      [| auto].
    exact (escape_bracket_frame _ _ _ _ _ _ Hb). }
  destruct ((ch =? chr "q") || (ch =? chr "Q")); [auto |].
  destruct (handle_format_shortcut ch ls) as [handled ls'] eqn:Hk.
  destruct (handled =? 0); [auto |].
  apply Hupd.
  - unfold handle_format_shortcut in Hk.
    repeat match type of Hk with
    | context [if ?c then _ else _] => destruct c
    | context [match ?c with Some _ => _ | None => _ end] => destruct c
    end; injection Hk as _ <-; reflexivity.
  - unfold handle_format_shortcut in Hk.
    repeat match type of Hk with
    | context [if ?c then _ else _] => destruct c
    | context [match ?c with Some _ => _ | None => _ end] => destruct c
    end; injection Hk as _ <-; reflexivity.
Qed.

(** The loop returns a string only from the Enter case, where it is the
    [format_id] of the entry selected at that moment. *)
Lemma select_step_returns (st st' : UIState) (ls ls' : FormatListState)
    (inp rest : input) (id : string) :
  select_step st ls inp = Stop (Some id) st' ls' rest ->
  confirm_selection ls' = Some id.
Proof.
  unfold select_step.
  destruct (wgetch _ inp) as [[ch r] |]; [| discriminate].
  destruct (ch =? KEY_UP); [discriminate |].
  destruct (ch =? KEY_DOWN); [discriminate |].
  destruct (ch =? KEY_PPAGE); [discriminate |].
  destruct (ch =? KEY_NPAGE); [discriminate |].
  destruct (ch =? KEY_HOME); [discriminate |].
  destruct (ch =? KEY_END); [discriminate |].
  destruct ((ch =? 10) || (ch =? 13) || (ch =? KEY_ENTER)).
  { intros [= <- _ <- _]. reflexivity. }
  destruct (ch =? 27).
  { unfold escape_key.
    destruct (wgetch _ r) as [[next_ch rest1] |]; [| discriminate].
    destruct (next_ch =? ERR); [discriminate |].
    destruct (next_ch =? chr "["); [| discriminate].
    destruct (wgetch _ rest1) as [[third_ch rest2] |]; [| discriminate].
    destruct (escape_bracket _ ls third_ch rest2) as [[l r3] |]; discriminate. }
  destruct ((ch =? chr "q") || (ch =? chr "Q")); [discriminate |].
  destruct (handle_format_shortcut ch ls) as [handled l].
  destruct (handled =? 0); discriminate.
Qed.

Lemma select_loop_frame (fuel : nat) :
  forall st ls inp,
  let s := select_loop fuel st ls inp in
  formats (sel_list s) = formats ls
  /\ total_formats (sel_list s) = total_formats ls
  /\ Forall (fun l => formats l = formats ls
                      /\ total_formats l = total_formats ls) (sel_history s)
  /\ forall id, sel_outcome s = Returned (Some id) ->
       confirm_selection (sel_list s) = Some id.
Proof.
  induction fuel as [| k IH]; intros st ls inp; simpl.
  - repeat split; [constructor | discriminate].
  - destruct (shutdown_pending st); simpl.
    { repeat split; [constructor | discriminate]. }
    pose proof (select_step_frame st ls inp) as Hfr.
    destruct (select_step st ls inp) as [st' ls' rest | r st' ls' rest | st' ls']
      eqn:Hstep; destruct Hfr as [Hf Ht]; simpl.
    + destruct (IH st' ls' rest) as (If & It & Ih & Ir).
      rewrite If, It, Hf, Ht. repeat split; [| exact Ir].
      constructor; [auto |].
      eapply Forall_impl; [exact Ih |].
      intros l [Hlf Hlt]. rewrite Hlf, Hlt. auto.
    + repeat split; auto.
      intros id [= ->]. exact (select_step_returns _ _ _ _ _ _ _ Hstep).
    + repeat split; [auto | auto | constructor | discriminate].
Qed.

(** X14. Whatever is typed, the selection loop never changes the format
    array or the count of the list state, neither at the end nor after
    any pass; and when it returns a string, that string is the
    [format_id] of the entry of the given array at the final
    [selected_index]. *)
Theorem selection_returns_listed_id (st : UIState) (ls : FormatListState)
    (inp : input) :
  let s := ui_select_format_interactive st ls inp in
  formats (sel_list s) = formats ls
  /\ total_formats (sel_list s) = total_formats ls
  /\ Forall (fun l => formats l = formats ls
                      /\ total_formats l = total_formats ls) (sel_history s)
  /\ forall id, sel_outcome s = Returned (Some id) ->
       exists f, json_array_get (formats ls) (selected_index (sel_list s))
                 = Some f
                 /\ format_id f = Some id.
Proof.
  unfold ui_select_format_interactive.
  destruct (ncurses_available st); simpl.
  - destruct (select_loop_frame (S (length inp)) (set_stdscr_delay (-1) st)
                ls inp) as (Hf & Ht & Hh & Hr).
    repeat split; [exact Hf | exact Ht | exact Hh |].
    intros id Hid. apply Hr in Hid. unfold confirm_selection in Hid.
    rewrite Hf in Hid.
    destruct (json_array_get (formats ls) _) as [f |]; [| discriminate].
    exists f. auto.
  - repeat split; [constructor | discriminate].
Qed.

Lemma selection_returns_listed_id_after_down :
  exists f, json_array_get (Some five_formats) 1 = Some f
            /\ format_id f = Some "136"%string.
Proof.
  destruct (selection_returns_listed_id demo_ui (demo_list 0)
              (typed [KEY_DOWN; 10])) as (_ & _ & _ & Hr).
  exact (Hr "136"%string eq_refl).
Defined.

(** ** Holding the Down key *)

Lemma update_format_display_start (st : UIState) (ls : FormatListState) :
  visible_start (update_format_display st ls)
  = if selected_index ls <? visible_start ls then selected_index ls
    else if selected_index ls >=? int_add (visible_start ls) (visible_lines ls)
         then int_add (int_sub (selected_index ls) (visible_lines ls)) 1
         else visible_start ls.
Proof.
  unfold update_format_display.
  match goal with
  | |- context [ui_display_formats st (formats ?l) ?l] =>
      destruct (ui_display_formats_frame st l) as (_ & _ & -> & _)
  end.
  repeat match goal with
  | |- context [if ?c then _ else _] => destruct c
  end; reflexivity.
Qed.

Lemma arrow_down_scrolled (h : Z) (st : UIState) (ls : FormatListState) :
  5 <= h -> ui_ok h st -> list_ok h ls -> scrolled_down ls ->
  selected_index (arrow_down st ls)
  = Z.min (selected_index ls + 1) (total_formats ls - 1)
  /\ total_formats (arrow_down st ls) = total_formats ls
  /\ scrolled_down (arrow_down st ls).
Proof.
  intros Hh Hui Hls Hsc.
  pose proof (arrow_down_ok h st ls Hh Hui Hls) as (Hvl' & _).
  pose proof Hls as (Hvl & Hvs & [Hview Hsel] & Hmax).
  unfold scrolled_down in *. rewrite Hvl'. revert Hvl'.
  unfold arrow_down.
  rewrite int_sub_exact by (codes; lia).
  rewrite int_add_exact by (codes; lia).
  destruct (Z.ltb_spec (selected_index ls) (total_formats ls - 1)).
  - intros _.
    destruct (update_format_display_frame st
                (set_selected_index (selected_index ls + 1) ls))
      as (-> & -> & _).
    rewrite update_format_display_start. simpl.
    rewrite Hvl.
    rewrite (int_add_exact (visible_start ls)) by (codes; lia).
    rewrite (int_sub_exact (selected_index ls + 1)) by (codes; lia).
    rewrite int_add_exact by (codes; lia).
    rewrite Z.geb_leb.
    destruct (Z.ltb_spec (selected_index ls + 1) (visible_start ls));
      [| destruct (Z.leb_spec (visible_start ls + (h - 4))
                     (selected_index ls + 1))]; lia.
  - intros _. lia.
Qed.

Lemma select_step_key_down (st : UIState) (ls : FormatListState) (g : Z)
    (rest : input) :
  steady st ->
  select_step st ls (Pending g KEY_DOWN :: rest)
  = Continue st (arrow_down st ls) rest.
Proof.
  intros Hst. unfold select_step.
  destruct (select_step_blocking_key st ls g KEY_DOWN rest Hst) as [-> ->].
  reflexivity.
Qed.

Lemma select_loop_down (h : Z) (st : UIState) :
  5 <= h -> ui_ok h st -> content_delay st = -1 ->
  shutdown_pending st = false ->
  forall (k fuel : nat) (ls : FormatListState),
  (k < fuel)%nat -> list_ok h ls -> scrolled_down ls ->
  let s := select_loop fuel st ls (typed (repeat KEY_DOWN k)) in
  sel_outcome s = Waiting
  /\ selected_index (sel_list s)
     = Z.min (selected_index ls + Z.of_nat k) (total_formats ls - 1)
  /\ total_formats (sel_list s) = total_formats ls
  /\ scrolled_down (sel_list s)
  /\ list_ok h (sel_list s).
Proof.
  intros Hh Hui Hd Hsh.
  induction k as [| k IH]; intros fuel ls Hfuel Hls Hsc;
    (destruct fuel as [| fuel]; [lia |]); simpl; rewrite Hsh.
  - unfold select_step. rewrite (ui_handle_resize_none st (proj1 Hui)), Hd.
    simpl. pose proof Hls as (_ & _ & [_ Hsel] & _).
    repeat split; try apply Hls; try assumption; lia.
  - rewrite (select_step_key_down st ls 0 _ (conj (proj1 Hui) Hd)). simpl.
    destruct (arrow_down_scrolled h st ls Hh Hui Hls Hsc) as (Hs & Ht & Hsc').
    pose proof (arrow_down_ok h st ls Hh Hui Hls) as Hls'.
    destruct (IH fuel (arrow_down st ls) ltac:(lia) Hls' Hsc')
      as (Ho & Is & It & Isc & Iok).
    rewrite Ho, Is, It, Hs, Ht.
    pose proof Hls as (_ & _ & [_ Hsel] & _).
    repeat split; try apply Iok; try assumption; lia.
Qed.

(** X15. Down pressed [k] times from the list as main.c sets it up, in
    a content window of at least 5 rows: the loop then waits for the
    next key, the selection is at entry [min (k, n - 1)] of the [n]
    formats, and the viewport has scrolled just far enough to show it,
    [visible_start = max (0, selected_index - visible_lines + 1)]. *)
Theorem down_presses (st : UIState) (fs : list format) (k : nat) :
  fs <> [] ->
  ncurses_available st = true ->
  steady st ->
  shutdown_pending st = false ->
  5 <= content_height st ->
  Z.of_nat (length fs) + content_height st <= INT_MAX ->
  let s := ui_select_format_interactive st (initial_list st fs)
             (typed (repeat KEY_DOWN k)) in
  sel_outcome s = Waiting
  /\ selected_index (sel_list s)
     = Z.min (Z.of_nat k) (Z.of_nat (length fs) - 1)
  /\ visible_lines (sel_list s) = content_height st - 4
  /\ visible_start (sel_list s)
     = Z.max 0 (selected_index (sel_list s) - visible_lines (sel_list s) + 1).
Proof.
  intros Hfs Hn [Hr Hd] Hsh Hh Hmax.
  pose proof (initial_list_ok st fs Hfs Hn Hh Hmax) as H0.
  assert (Hinit : selected_index (initial_list st fs) = 0
                  /\ visible_start (initial_list st fs) = 0
                  /\ total_formats (initial_list st fs)
                     = Z.of_nat (length fs)).
  { unfold initial_list, ui_display_formats. rewrite Hn. simpl.
    repeat split. unfold json_array_size. apply int_of_id. codes. lia. }
  destruct Hinit as (Hs0 & Hv0 & Ht0).
  unfold ui_select_format_interactive. rewrite Hn. simpl negb. cbv iota.
  destruct (select_loop_down (content_height st) (set_stdscr_delay (-1) st)
              Hh (conj Hr eq_refl) Hd Hsh k
              (S (length (typed (repeat KEY_DOWN k))))
              (initial_list st fs))
    as (Ho & Hs & Ht & Hsc & Hok); [| exact H0 | |].
  - unfold typed. rewrite length_map, repeat_length. lia.
  - unfold scrolled_down. rewrite Hs0, Hv0.
    destruct H0 as (Hvl & _). rewrite Hvl. lia.
  - cbv zeta. rewrite Ho, Hs, Hs0, Ht0.
    split; [reflexivity |]. split; [f_equal; lia |].
    split; [apply Hok |].
    unfold scrolled_down in Hsc. rewrite Hs, Hs0, Ht0 in Hsc. exact Hsc.
Qed.

Lemma down_presses_twelve_of_fifteen :
  let s := run_selection 19 fifteen_formats (typed (repeat KEY_DOWN 12)) in
  selected_index (sel_list s) = 12 /\ visible_start (sel_list s) = 3.
Proof.
  assert (H5 : 5 <= content_height (ui_for_terminal 19 80))
    by (vm_compute; discriminate).
  assert (Hmax : Z.of_nat (length fifteen_formats)
                 + content_height (ui_for_terminal 19 80) <= INT_MAX)
    by (vm_compute; discriminate).
  destruct (down_presses (ui_for_terminal 19 80) fifteen_formats 12
              ltac:(discriminate) eq_refl (conj eq_refl eq_refl) eq_refl
              H5 Hmax)
    as (_ & Hs & Hl & Hv).
  split; [exact Hs |].
  unfold run_selection. rewrite Hv, Hs, Hl. reflexivity.
Defined.

(** ** The input modes of the two windows *)

Lemma wgetch_polls (d : Z) (inp : input) :
  0 <= d -> exists c rest, wgetch d inp = Some (c, rest).
Proof.
  intros Hd. unfold wgetch.
  destruct (Z.ltb_spec d 0); [lia |].
  destruct inp as [| [g c] rest]; [eauto |].
  simpl. destruct (g <=? d); eauto.
Qed.

Lemma ui_handle_resize_modes (st : UIState) :
  content_delay st = -1 -> modes_kept st (ui_handle_resize st).
Proof.
  intros Hd. unfold ui_handle_resize, modes_kept.
  destruct (resize_pending st) eqn:Hr; simpl; auto.
Qed.

Lemma escape_key_modes (st : UIState) (ls : FormatListState) (rest : input) :
  match escape_key st ls rest with
  | Continue st' _ _ | Stop _ st' _ _ => st' = set_content_delay (-1) st
  | Blocked _ _ => False
  end.
Proof.
  unfold escape_key. simpl content_delay.
  destruct (wgetch_polls 100 rest) as (next_ch & rest1 & ->); [lia |].
  destruct (next_ch =? ERR); [reflexivity |].
  destruct (next_ch =? chr "["); [| reflexivity].
  destruct (wgetch_polls 100 rest1) as (third_ch & rest2 & ->); [lia |].
  unfold escape_bracket. simpl content_delay.
  repeat match goal with
  | |- context [if ?x =? ?k then _ else _] => destruct (x =? k)
  end; try reflexivity;
  destruct (wgetch_polls 100 rest2) as (c & rest3 & ->); try lia; reflexivity.
Qed.

Lemma select_step_modes (st : UIState) (ls : FormatListState) (inp : input) :
  content_delay st = -1 ->
  match select_step st ls inp with
  | Continue st' _ _ | Stop _ st' _ _ | Blocked st' _ => modes_kept st st'
  end.
Proof.
  intros Hd. pose proof (ui_handle_resize_modes st Hd) as Hm.
  unfold select_step.
  destruct (wgetch _ inp) as [[ch rest] |]; [| exact Hm].
  destruct (ch =? KEY_UP); [exact Hm |].
  destruct (ch =? KEY_DOWN); [exact Hm |].
  destruct (ch =? KEY_PPAGE); [exact Hm |].
  destruct (ch =? KEY_NPAGE); [exact Hm |].
  destruct (ch =? KEY_HOME); [exact Hm |].
  destruct (ch =? KEY_END); [exact Hm |].
  destruct ((ch =? 10) || (ch =? 13) || (ch =? KEY_ENTER)); [exact Hm |].
  destruct (ch =? 27).
  { pose proof (escape_key_modes (ui_handle_resize st) ls rest) as He.
    destruct (escape_key _ ls rest); try contradiction; subst;
      destruct Hm as (H1 & H2 & H3 & H4); repeat split; assumption. }
  destruct ((ch =? chr "q") || (ch =? chr "Q")); [exact Hm |].
  destruct (handle_format_shortcut ch ls) as [handled ls'].
  destruct (handled =? 0); exact Hm.
Qed.

Lemma select_loop_modes (fuel : nat) :
  forall st ls inp,
  content_delay st = -1 ->
  let s := select_loop fuel st ls inp in
  content_delay (sel_ui s) = -1
  /\ shutdown_pending (sel_ui s) = shutdown_pending st
  /\ (forall r, sel_outcome s = Returned r ->
        stdscr_delay (sel_ui s) = UI_UPDATE_INTERVAL_MS)
  /\ (sel_outcome s = Waiting ->
        stdscr_delay (sel_ui s) = stdscr_delay st
        /\ resize_pending (sel_ui s) = false).
Proof.
  induction fuel as [| k IH]; intros st ls inp Hd; simpl.
  - split; [exact Hd |]. split; [reflexivity |].
    split; [discriminate | discriminate].
  - destruct (shutdown_pending st) eqn:Hsh; simpl.
    { split; [exact Hd |]. split; [exact Hsh |].
      split; [reflexivity | discriminate]. }
    pose proof (select_step_modes st ls inp Hd) as Hm.
    destruct (select_step st ls inp) as [st' ls' rest | r st' ls' rest | st' ls'];
      destruct Hm as (H1 & H2 & H3 & H4); simpl.
    + destruct (IH st' ls' rest H1) as (I1 & I2 & I3 & I4).
      split; [exact I1 |]. split; [congruence |].
      split; [exact I3 |].
      intros Hw. destruct (I4 Hw) as [I5 I6]. split; congruence.
    + split; [exact H1 |]. split; [congruence |].
      split; [reflexivity | discriminate].
    + split; [exact H1 |]. split; [congruence |].
      split; [discriminate | auto].
Qed.

(** X16. A session that starts with the content window in blocking
    mode leaves it in blocking mode, whatever was typed (an escape
    sequence sets a 100 ms delay and always sets it back, and never
    leaves the loop waiting inside the sequence). When the session
    returns, [stdscr] polls again with the delay
    [UI_UPDATE_INTERVAL_MS]; while it waits for a key, [stdscr] blocks
    and no resize is pending. The shutdown flag is not touched. *)
Theorem selection_input_modes (st : UIState) (ls : FormatListState)
    (inp : input) :
  ncurses_available st = true ->
  content_delay st = -1 ->
  let s := ui_select_format_interactive st ls inp in
  content_delay (sel_ui s) = -1
  /\ shutdown_pending (sel_ui s) = shutdown_pending st
  /\ (forall r, sel_outcome s = Returned r ->
        stdscr_delay (sel_ui s) = UI_UPDATE_INTERVAL_MS)
  /\ (sel_outcome s = Waiting ->
        stdscr_delay (sel_ui s) = -1 /\ resize_pending (sel_ui s) = false).
Proof.
  intros Hn Hd. unfold ui_select_format_interactive. rewrite Hn. simpl negb.
  cbv iota zeta.
  exact (select_loop_modes (S (length inp)) (set_stdscr_delay (-1) st) ls inp
           Hd).
Qed.

Lemma selection_input_modes_after_escape_sequence :
  let s := ui_select_format_interactive demo_ui (demo_list 2)
             (typed [27; chr "["; chr "5"; chr "~"; chr "q"]) in
  content_delay (sel_ui s) = -1 /\ stdscr_delay (sel_ui s) = 100.
Proof.
  destruct (selection_input_modes demo_ui (demo_list 2)
              (typed [27; chr "["; chr "5"; chr "~"; chr "q"])
              eq_refl eq_refl) as (Hc & _ & Hr & _).
  split; [exact Hc |]. exact (Hr None eq_refl).
Defined.

(** ** A window that grows *)

Lemma ui_handle_resize_idem (st : UIState) :
  ui_handle_resize (ui_handle_resize st) = ui_handle_resize st.
Proof.
  unfold ui_handle_resize at 2 3.
  destruct (resize_pending st) eqn:Hr; simpl.
  - reflexivity.
  - apply ui_handle_resize_none. exact Hr.
Qed.

Lemma ui_at_resized (h : Z) (st : UIState) :
  ui_at h st -> ui_at h (ui_handle_resize st).
Proof. unfold ui_at. now rewrite ui_handle_resize_idem. Qed.

Lemma ui_at_set_content_delay (h d : Z) (st : UIState) :
  resize_pending st = false -> content_height st = h ->
  ui_at h (set_content_delay d st).
Proof.
  intros Hr Hc. unfold ui_at. rewrite ui_handle_resize_none; assumption.
Qed.

Lemma update_format_display_fits (h : Z) (st : UIState)
    (ls : FormatListState) (s : Z) :
  content_height st = h -> list_fits h ls ->
  0 <= s <= total_formats ls - 1 ->
  list_fits h (update_format_display st (set_selected_index s ls)).
Proof.
  intros Hch (Hvl & Hvs & [Hview Hsel] & Hmax) Hs.
  unfold update_format_display.
  match goal with
  | |- context [ui_display_formats st (formats ?l) ?l] =>
      destruct (ui_display_formats_frame st l) as (Es & Et & Ev & _ & El);
      set (ls' := snd (ui_display_formats st (formats l) l)) in *;
      assert (Hl : visible_lines ls = visible_lines ls'
                   \/ visible_lines ls' = h - 4)
  end.
  { destruct El as [El | El]; rewrite El.
    - left. repeat match goal with
      | |- context [if ?c then _ else _] => destruct c
      end; reflexivity.
    - right. rewrite Hch. apply int_sub_exact. codes. lia. }
  unfold list_fits, list_invariant. rewrite Es, Et, Ev.
  clearbody ls'. clear Es Et Ev El.
  simpl.
  rewrite (int_add_exact (visible_start ls)) by (codes; lia).
  rewrite (int_sub_exact s) by (codes; lia).
  rewrite (int_add_exact (s - visible_lines ls) 1) by (codes; lia).
  rewrite Z.geb_leb.
  destruct (Z.ltb_spec s (visible_start ls));
    [| destruct (Z.leb_spec (visible_start ls + visible_lines ls) s)];
    simpl; lia.
Qed.

Section Growth.

Variable h : Z.
Variable st : UIState.
Variable ls : FormatListState.
Hypothesis window : content_height st = h.
Hypothesis fits : list_fits h ls.

Lemma list_fits_total : 1 <= total_formats ls <= INT_MAX - 5.
Proof. pose proof fits as (Hvl & _ & [Hview Hsel] & Hmax). lia. Qed.

Lemma arrow_up_fits : list_fits h (arrow_up st ls).
Proof.
  unfold arrow_up. rewrite Z.gtb_ltb. pose proof list_fits_total as Ht.
  destruct (Z.ltb_spec 0 (selected_index ls)); [| exact fits].
  pose proof fits as (_ & _ & [_ Hsel] & _).
  apply update_format_display_fits; auto.
  rewrite int_sub_exact; codes; lia.
Qed.

Lemma arrow_down_fits : list_fits h (arrow_down st ls).
Proof.
  unfold arrow_down. pose proof list_fits_total as Ht.
  rewrite (int_sub_exact (total_formats ls) 1) by (codes; lia).
  destruct (Z.ltb_spec (selected_index ls) (total_formats ls - 1));
    [| exact fits].
  pose proof fits as (_ & _ & [_ Hsel] & _).
  apply update_format_display_fits; auto.
  rewrite int_add_exact; codes; lia.
Qed.

Lemma page_up_fits : list_fits h (page_up st ls).
Proof.
  unfold page_up. pose proof list_fits_total as Ht.
  pose proof fits as (Hvl & _ & [Hview Hsel] & Hmax).
  apply update_format_display_fits; auto.
  rewrite int_sub_exact by (codes; lia).
  destruct (Z.ltb_spec (selected_index ls - visible_lines ls) 0); lia.
Qed.

Lemma page_down_fits : list_fits h (page_down st ls).
Proof.
  unfold page_down. pose proof list_fits_total as Ht.
  pose proof fits as (Hvl & _ & [Hview Hsel] & Hmax).
  apply update_format_display_fits; auto.
  rewrite int_add_exact by (codes; lia).
  rewrite (int_sub_exact (total_formats ls) 1) by (codes; lia).
  rewrite Z.geb_leb.
  destruct (Z.leb_spec (total_formats ls)
              (selected_index ls + visible_lines ls)); lia.
Qed.

Lemma key_home_fits : list_fits h (key_home st ls).
Proof.
  unfold key_home. pose proof list_fits_total as Ht.
  apply update_format_display_fits; auto. lia.
Qed.

Lemma key_end_fits : list_fits h (key_end st ls).
Proof.
  unfold key_end. pose proof list_fits_total as Ht.
  apply update_format_display_fits; auto.
  rewrite int_sub_exact; codes; lia.
Qed.

Lemma shortcut_fits (ch : Z) :
  list_fits h (if fst (handle_format_shortcut ch ls) =? 0 then ls
               else update_format_display st
                      (snd (handle_format_shortcut ch ls))).
Proof.
  pose proof list_fits_total as Ht.
  destruct (handle_format_shortcut_cases ch ls) as [E | (s & Hs & E)];
    [codes; lia | |]; rewrite E; simpl; [exact fits |].
  apply update_format_display_fits; auto.
Qed.

End Growth.

Lemma escape_bracket_fits (h : Z) (st : UIState) (ls : FormatListState)
    (third_ch : Z) (rest : input) :
  content_height st = h -> list_fits h ls ->
  match escape_bracket st ls third_ch rest with
  | Some (ls', _) => list_fits h ls'
  | None => True
  end.
Proof.
  intros Hch Hls. unfold escape_bracket.
  repeat match goal with
  | |- context [if ?c =? ?k then _ else _] => destruct (c =? k)
  | |- context [match wgetch ?d ?i with _ => _ end] =>
      destruct (wgetch d i) as [[? ?] |]
  end;
  auto using arrow_up_fits, arrow_down_fits, page_up_fits, page_down_fits.
Qed.

Lemma escape_key_fits (h : Z) (st : UIState) (ls : FormatListState)
    (rest : input) :
  resize_pending st = false -> content_height st = h -> list_fits h ls ->
  match escape_key st ls rest with
  | Continue st' ls' _ | Stop _ st' ls' _ | Blocked st' ls' =>
      ui_at h st' /\ list_fits h ls'
  end.
Proof.
  intros Hr Hch Hls. unfold escape_key.
  pose proof (ui_at_set_content_delay h 100 st Hr Hch) as Hui1.
  pose proof (ui_at_set_content_delay h (-1) (set_content_delay 100 st)
                Hr Hch) as Hui2.
  destruct (wgetch _ rest) as [[next_ch rest1] |]; [| auto].
  destruct (next_ch =? ERR); [auto |].
  destruct (next_ch =? chr "["); [| auto].
  destruct (wgetch _ rest1) as [[third_ch rest2] |]; [| auto].
  pose proof (escape_bracket_fits h (set_content_delay 100 st) ls third_ch
                rest2 Hch Hls) as Hb.
  destruct (escape_bracket _ ls third_ch rest2) as [[ls' rest3] |]; auto.
Qed.

Lemma select_step_fits (h : Z) (st : UIState) (ls : FormatListState)
    (inp : input) :
  ui_at h st -> list_fits h ls ->
  match select_step st ls inp with
  | Continue st' ls' _ | Stop _ st' ls' _ | Blocked st' ls' =>
      ui_at h st' /\ list_fits h ls'
  end.
Proof.
  intros Hui Hls. unfold select_step.
  pose proof (ui_at_resized h st Hui) as Hui'.
  assert (Hr : resize_pending (ui_handle_resize st) = false).
  { unfold ui_handle_resize. destruct (resize_pending st) eqn:E; auto. }
  unfold ui_at in Hui.
  set (st1 := ui_handle_resize st) in *.
  destruct (wgetch _ inp) as [[ch rest] |]; [| auto].
  destruct (ch =? KEY_UP); [auto using arrow_up_fits |].
  destruct (ch =? KEY_DOWN); [auto using arrow_down_fits |].
  destruct (ch =? KEY_PPAGE); [auto using page_up_fits |].
  destruct (ch =? KEY_NPAGE); [auto using page_down_fits |].
  destruct (ch =? KEY_HOME); [auto using key_home_fits |].
  destruct (ch =? KEY_END); [auto using key_end_fits |].
  destruct ((ch =? 10) || (ch =? 13) || (ch =? KEY_ENTER)); [auto |].
  destruct (ch =? 27); [now apply escape_key_fits |].
  destruct ((ch =? chr "q") || (ch =? chr "Q")); [auto |].
  pose proof (shortcut_fits h st1 ls Hui Hls ch) as Hk.
  destruct (handle_format_shortcut ch ls) as [handled ls'].
  simpl in Hk. destruct (handled =? 0); auto.
Qed.

Lemma select_loop_fits (h : Z) (fuel : nat) :
  forall st ls inp, ui_at h st -> list_fits h ls ->
  Forall (list_fits h) (sel_history (select_loop fuel st ls inp))
  /\ list_fits h (sel_list (select_loop fuel st ls inp)).
Proof.
  induction fuel as [| k IH]; intros st ls inp Hui Hls; simpl.
  - split; [constructor | exact Hls].
  - destruct (shutdown_pending st); simpl.
    { split; [constructor | exact Hls]. }
    pose proof (select_step_fits h st ls inp Hui Hls) as Hstep.
    destruct (select_step st ls inp) as [st' ls' rest | r st' ls' rest | st' ls'];
      destruct Hstep as [Hui' Hls']; simpl.
    + destruct (IH st' ls' rest Hui' Hls') as [Hhist Hfin].
      split; [constructor; assumption | exact Hfin].
    + split; [constructor; [assumption | constructor] | exact Hls'].
    + split; [constructor | exact Hls'].
Qed.

(** X17. A resize that is pending when the selection starts does not
    break the invariant as long as the new content window,
    [screen_rows - 5] rows, is at least as tall as the viewport the list
    state records ([visible_lines + 4] rows): after every pass and at
    the end the selected entry is in the viewport and in the list, and
    the viewport is no taller than the window. The list state must
    satisfy the invariant at entry. *)
Theorem selection_survives_growth (st : UIState) (ls : FormatListState)
    (inp : input) :
  resize_pending st = true ->
  list_invariant ls ->
  0 <= visible_start ls ->
  visible_lines ls + 4 <= screen_rows st - 5 ->
  total_formats ls + screen_rows st <= INT_MAX ->
  let s := ui_select_format_interactive st ls inp in
  Forall (fun l => list_invariant l
                   /\ visible_lines l + 4 <= screen_rows st - 5)
         (sel_history s)
  /\ list_invariant (sel_list s)
  /\ visible_lines (sel_list s) + 4 <= screen_rows st - 5.
Proof.
  intros Hr Hinv Hvs Hvl Hmax.
  pose proof Hinv as [Hview Hsel].
  assert (Hfits : list_fits (screen_rows st - 5) ls).
  { unfold list_fits. repeat split; try apply Hinv; lia. }
  unfold ui_select_format_interactive.
  destruct (ncurses_available st); simpl negb; cbv iota zeta.
  - assert (Hui : ui_at (screen_rows st - 5) (set_stdscr_delay (-1) st)).
    { unfold ui_at, ui_handle_resize. simpl. rewrite Hr. simpl.
      apply int_sub_exact. codes. lia. }
    destruct (select_loop_fits (screen_rows st - 5) (S (length inp))
                _ ls inp Hui Hfits) as [Hhist Hfin].
    split; [| split].
    + eapply Forall_impl; [exact Hhist |].
      intros l (Hl & _ & Hi & _). split; [exact Hi | lia].
    + apply Hfin.
    + destruct Hfin as (Hl & _). lia.
  - simpl. split; [constructor |]. split; [exact Hinv | exact Hvl].
Qed.

Lemma selection_survives_growth_to_30_rows :
  list_invariant
    (sel_list (ui_select_format_interactive (resized_to 30 demo_ui)
                 (demo_list 2) (typed [KEY_DOWN; chr "w"]))).
Proof.
  assert (Hinv : list_invariant (demo_list 2))
    by (vm_compute; repeat split; discriminate).
  assert (Hvs : 0 <= visible_start (demo_list 2))
    by (vm_compute; discriminate).
  assert (Hvl : visible_lines (demo_list 2) + 4
                <= screen_rows (resized_to 30 demo_ui) - 5)
    by (vm_compute; discriminate).
  assert (Hmax : total_formats (demo_list 2)
                 + screen_rows (resized_to 30 demo_ui) <= INT_MAX)
    by (vm_compute; discriminate).
  exact (proj1 (proj2
    (selection_survives_growth (resized_to 30 demo_ui) (demo_list 2)
       (typed [KEY_DOWN; chr "w"]) eq_refl Hinv Hvs Hvl Hmax))).
Defined.

(** A window that shrinks is another matter: fifteen formats on 24
    rows with entry 10 selected, then a resize to 12 rows; after Up the
    entry 9 is selected while the viewport shows the rows 0 to 2. *)
Example shrinking_loses_the_selection :
  let ls := set_selected_index 10 (initial_list demo_ui fifteen_formats) in
  let s := ui_select_format_interactive (resized_to 12 demo_ui) ls
             (typed [KEY_UP]) in
  list_invariant ls
  /\ selected_index (sel_list s) = 9
  /\ visible_start (sel_list s) = 0
  /\ visible_lines (sel_list s) = 3.
Proof. vm_compute. repeat split; discriminate. Qed.

(** ** format_parsing.c *)

(** X18. [safe_json_integer_value] returns 0 exactly when the value is
    an object whose member [key] is an integer between 0 and
    [INT64_MAX / 2] = 4611686018427387903, and -1 otherwise. [*result]
    is overwritten whenever the member is an integer, also when the
    value is refused for its range; otherwise it is left as it was. *)
Theorem safe_json_integer_value_cases (obj : option json) (key : string)
    (result : Z) :
  let rc := fst (safe_json_integer_value obj key result) in
  let out := snd (safe_json_integer_value obj key result) in
  (rc = 0 \/ rc = -1)
  /\ (rc = 0 <->
      exists v, json_object_get obj key = Some (JInteger v)
                /\ 0 <= v <= 4611686018427387903)
  /\ (forall v, json_object_get obj key = Some (JInteger v) -> out = v)
  /\ ((forall v, json_object_get obj key <> Some (JInteger v)) ->
      out = result).
Proof.
  unfold safe_json_integer_value.
  assert (Hno : forall o : option json,
            (forall w, o <> Some (JInteger w)) ->
            (-1 = 0 \/ -1 = -1)
            /\ (-1 = 0 <-> exists v, o = Some (JInteger v)
                                    /\ 0 <= v <= 4611686018427387903)
            /\ (forall v, o = Some (JInteger v) -> result = v)
            /\ ((forall v, o <> Some (JInteger v)) -> result = result)).
  { intros o Ho. split; [auto |]. split; [| split].
    - split; [discriminate |]. intros (w & Hw & _). now destruct (Ho w).
    - intros w Hw. now destruct (Ho w).
    - reflexivity. }
  destruct obj as [[| | | | | | |members] |]; simpl;
    try (apply Hno; discriminate).
  destruct (member key members) as [[| | | v | | | |] |]; simpl;
    try (apply Hno; discriminate).
  change (Z.quot INT64_MAX 2) with 4611686018427387903.
  rewrite Z.gtb_ltb.
  destruct (Z.ltb_spec v 0); simpl;
    [| destruct (Z.ltb_spec 4611686018427387903 v); simpl].
  - split; [auto |]. split; [| split].
    + split; [discriminate |]. intros (w & [= <-] & Hw). lia.
    + intros w [= <-]. reflexivity.
    + intros Hnone. now destruct (Hnone v).
  - split; [auto |]. split; [| split].
    + split; [discriminate |]. intros (w & [= <-] & Hw). lia.
    + intros w [= <-]. reflexivity.
    + intros Hnone. now destruct (Hnone v).
  - split; [auto |]. split; [| split].
    + split; [| reflexivity]. intros _. exists v. split; [reflexivity | lia].
    + intros w [= <-]. reflexivity.
    + intros Hnone. now destruct (Hnone v).
Qed.

Lemma safe_json_integer_value_cases_refused :
  snd (safe_json_integer_value
         (Some (JObject [("filesize"%string, JInteger (-7))]))
         "filesize" 0) = -7.
Proof.
  apply (proj1 (proj2 (proj2
    (safe_json_integer_value_cases
       (Some (JObject [("filesize"%string, JInteger (-7))]))
       "filesize" 0)))).
  reflexivity.
Defined.

Lemma parse_formats_nonempty (json_loads : string -> option json)
    (json_str : option string) (items : list json) :
  parse_formats json_loads json_str = Some items -> items <> [].
Proof.
  unfold parse_formats.
  destruct json_str as [s |]; [| discriminate].
  destruct (_ =? 0); [discriminate |].
  destruct (_ >? _); [discriminate |].
  destruct (json_loads s) as [root |]; [| discriminate].
  destruct (negb _); [discriminate |].
  destruct (json_object_get _ _) as [[| | | | | |arr|] |]; try discriminate.
  destruct (Z.eqb_spec (Z.of_nat (length arr)) 0); [discriminate |].
  intros [= <-] ->. simpl in *. lia.
Qed.

(** X19. [parse_formats] succeeds exactly when the text is not empty,
    is at most [MAX_JSON_LENGTH] = 1048576 bytes long, decodes to an
    object, and the member ["formats"] of that object is a non-empty
    array; the array is what it returns. In particular it never returns
    an empty array. *)
Theorem parse_formats_success (json_loads : string -> option json)
    (json_str : option string) (items : list json) :
  parse_formats json_loads json_str = Some items
  <-> exists s members,
        json_str = Some s
        /\ 0 < Z.of_nat (String.length s) <= 1048576
        /\ json_loads s = Some (JObject members)
        /\ member "formats" members = Some (JArray items)
        /\ items <> [].
Proof.
  unfold parse_formats. split.
  - destruct json_str as [s |]; [| discriminate].
    destruct (Z.eqb_spec (Z.of_nat (String.length s)) 0); [discriminate |].
    rewrite Z.gtb_ltb.
    destruct (Z.ltb_spec MAX_JSON_LENGTH (Z.of_nat (String.length s)));
      [discriminate |].
    destruct (json_loads s) as [[| | | | | | |members] |] eqn:Hl;
      try discriminate.
    simpl.
    destruct (member "formats" members) as [[| | | | | |arr|] |] eqn:Hm;
      try discriminate.
    destruct (Z.eqb_spec (Z.of_nat (length arr)) 0); [discriminate |].
    intros [= <-]. exists s, members.
    change MAX_JSON_LENGTH with 1048576 in *.
    split; [reflexivity |]. split; [lia |]. split; [exact Hl |].
    split; [exact Hm |]. intros ->. simpl in *. lia.
  - intros (s & members & -> & Hlen & Hl & Hm & Hne).
    destruct (Z.eqb_spec (Z.of_nat (String.length s)) 0); [lia |].
    rewrite Z.gtb_ltb.
    change MAX_JSON_LENGTH with 1048576.
    destruct (Z.ltb_spec 1048576 (Z.of_nat (String.length s))); [lia |].
    rewrite Hl. simpl. rewrite Hm.
    destruct (Z.eqb_spec (Z.of_nat (length items)) 0); [| reflexivity].
    destruct items; [contradiction | simpl in *; lia].
Qed.

Lemma parse_formats_success_on_one_format :
  parse_formats (fun _ => Some (JObject [("formats"%string, JArray [JNull])]))
    (Some "{}"%string)
  = Some [JNull].
Proof.
  apply (proj2 (parse_formats_success _ _ _)).
  exists "{}"%string, [("formats"%string, JArray [JNull])].
  split; [reflexivity |]. split; [simpl; lia |].
  split; [reflexivity |]. split; [reflexivity | discriminate].
Defined.

Lemma format_of_json_id (j : json) (id : string) :
  format_id (format_of_json j) = Some id ->
  json_object_get (Some j) "format_id" = Some (JString id).
Proof.
  unfold format_of_json. cbn [format_id].
  destruct (json_object_get (Some j) "format_id") as [[| | | | | s | |] |];
    try discriminate.
  now intros [= ->].
Qed.

Lemma ui_select_format_interactive_returns (st : UIState)
    (ls : FormatListState) (inp : input) (id : string) :
  sel_outcome (ui_select_format_interactive st ls inp) = Returned (Some id) ->
  exists f,
    ncurses_available st = true
    /\ json_array_get (formats ls)
         (selected_index (sel_list (ui_select_format_interactive st ls inp)))
       = Some f
    /\ format_id f = Some id.
Proof.
  unfold ui_select_format_interactive.
  destruct (ncurses_available st); simpl; [| discriminate].
  destruct (select_loop_frame (S (length inp)) (set_stdscr_delay (-1) st)
              ls inp) as (Hf & _ & _ & Hr).
  intros Hid. apply Hr in Hid. unfold confirm_selection in Hid.
  rewrite Hf in Hid.
  destruct (json_array_get (formats ls) _) as [f |]; [| discriminate].
  exists f. auto.
Qed.

Lemma ui_select_format_interactive_ok (st : UIState) (ls : FormatListState)
    (inp : input) :
  ncurses_available st = true -> steady st ->
  5 <= content_height st ->
  list_ok (content_height st) ls ->
  Forall list_invariant (sel_history (ui_select_format_interactive st ls inp))
  /\ list_invariant (sel_list (ui_select_format_interactive st ls inp))
  /\ sel_outcome (ui_select_format_interactive st ls inp) <> OutOfFuel.
Proof.
  intros Hn [Hr Hd] Hh H0.
  unfold ui_select_format_interactive. rewrite Hn. simpl negb. cbv iota.
  assert (Hui : ui_ok (content_height st) (set_stdscr_delay (-1) st))
    by (split; [exact Hr | reflexivity]).
  destruct (select_loop_ok (content_height st) (S (length inp)) Hh
              _ ls inp Hui H0) as [Hhist Hfin].
  split; [| split].
  - eapply Forall_impl; [exact Hhist |].
    intros l Hl. exact (proj1 (proj2 (proj2 Hl))).
  - exact (proj1 (proj2 (proj2 Hfin))).
  - apply select_loop_enough_fuel; [simpl; lia | lia].
Qed.

(** X20. From the JSON text to the format code, in the UI branch of
    main.c: when the selection runs, the parsed array is not empty; a
    string the selection returns is the ["format_id"] string of one of
    the elements of that array; and in a steady content window of at
    least 5 rows the list state satisfies the invariant after every
    pass and at the end, and the loop needs no more passes than there
    are pending codes. *)
Theorem main_select_format_sound (json_loads : string -> option json)
    (st : UIState) (json_str : option string) (inp : input) (s : session) :
  main_select_format json_loads st json_str inp = Some s ->
  exists items,
    parse_formats json_loads json_str = Some items
    /\ items <> []
    /\ (forall id, sel_outcome s = Returned (Some id) ->
          exists j, In j items
                    /\ json_object_get (Some j) "format_id"
                       = Some (JString id))
    /\ (ncurses_available st = true -> steady st ->
        5 <= content_height st ->
        Z.of_nat (length items) + content_height st <= INT_MAX ->
        Forall list_invariant (sel_history s)
        /\ list_invariant (sel_list s)
        /\ sel_outcome s <> OutOfFuel).
Proof.
  unfold main_select_format.
  destruct (parse_formats json_loads json_str) as [items |] eqn:Hp;
    [| discriminate].
  intros [= <-]. exists items. split; [reflexivity |].
  assert (Hne : items <> []).
  { apply parse_formats_nonempty in Hp. exact Hp. }
  split; [exact Hne |].
  cbv zeta.
  change (snd (ui_display_formats st (Some (map format_of_json items))
                 list_state_zero))
    with (initial_list st (map format_of_json items)).
  set (ls0 := initial_list st (map format_of_json items)).
  split.
  - intros id Hid.
    destruct (ui_select_format_interactive_returns st ls0 inp id Hid)
      as (f & Hn & Hid' & Hfid).
    assert (Hfs : formats ls0 = Some (map format_of_json items)).
    { unfold ls0, initial_list, ui_display_formats. rewrite Hn. reflexivity. }
    rewrite Hfs in Hid'. unfold json_array_get in Hid'.
    destruct (_ <? 0); [discriminate |].
    apply list_elem_of_lookup_2, list_elem_of_fmap_1 in Hid'
      as (j & -> & Hj).
    exists j. split; [now apply list_elem_of_In |].
    now apply format_of_json_id.
  - intros Hn [Hr Hd] Hh Hmax.
    assert (Hfs : map format_of_json items <> [])
      by (destruct items; [contradiction | discriminate]).
    assert (Hmax' : Z.of_nat (length (map format_of_json items))
                    + content_height st <= INT_MAX)
      by (rewrite length_map; exact Hmax).
    pose proof (initial_list_ok st _ Hfs Hn Hh Hmax') as H0.
    fold ls0 in H0.
    exact (ui_select_format_interactive_ok st ls0 inp Hn (conj Hr Hd) Hh H0).
Qed.

Lemma main_select_format_sound_second_format :
  exists j, In j [JObject [("format_id"%string, JString "137");
                           ("resolution"%string, JString "1920x1080");
                           ("ext"%string, JString "mp4");
                           ("filesize"%string, JInteger 1500)];
                  JObject [("format_id"%string, JString "140");
                           ("ext"%string, JString "m4a");
                           ("filesize"%string, JInteger 0)]]
            /\ json_object_get (Some j) "format_id" = Some (JString "140").
Proof.
  destruct (main_select_format_sound (fun _ => Some demo_json) demo_ui
              (Some "{}"%string) (typed [KEY_DOWN; 10]) _ eq_refl)
    as (items & Hp & _ & Hid & _).
  vm_compute in Hp. injection Hp as <-.
  exact (Hid "140"%string eq_refl).
Defined.

(** X21. The plain-text table and the interactive table show the same
    three texts for a format object, ["N/A"] standing for a missing or
    mistyped field in both. They differ on the size: the text table
    prints it when it is between 0 and [INT64_MAX / 2], the interactive
    table when it is positive; so a size of 0 is printed by the first
    only, a size above [INT64_MAX / 2] by the second only. An element
    that is not an object gives no line in the text table and no row in
    the interactive one. *)
Theorem tables_agree (j : json) (y index : Z) (selected colors : bool) :
  (json_is_object (Some j) = false ->
   display_format_line j = None
   /\ draw_format_entry y index (Some (format_of_json j)) selected colors
      = None)
  /\ (json_is_object (Some j) = true ->
      exists line row,
        display_format_line j = Some line
        /\ draw_format_entry y index (Some (format_of_json j)) selected colors
           = Some row
        /\ line_format_id line = row_format_id row
        /\ line_resolution line = row_resolution row
        /\ line_ext line = row_ext row
        /\ (forall v, json_object_get (Some j) "filesize" = Some (JInteger v) ->
              (line_filesize line = Some v
               <-> 0 <= v <= 4611686018427387903)
              /\ (line_filesize line = None
                  <-> ~ 0 <= v <= 4611686018427387903)
              /\ (row_size row = Some (ui_format_bytes v) <-> 0 < v)
              /\ (row_size row = None <-> v <= 0))
        /\ ((forall v, json_object_get (Some j) "filesize"
                       <> Some (JInteger v)) ->
            line_filesize line = None /\ row_size row = None)).
Proof.
  split.
  - intros Hobj. unfold display_format_line, draw_format_entry.
    unfold get_format_info, format_of_json. cbn [is_object].
    now rewrite Hobj.
  - intros Hobj. unfold display_format_line, draw_format_entry.
    rewrite Hobj. simpl negb. cbv iota.
    destruct j as [| | | | | | |members]; try discriminate.
    unfold safe_json_integer_value, safe_json_string_value, format_of_json.
    simpl json_is_object. simpl negb. cbv iota.
    simpl get_format_info. cbv beta iota zeta.
    unfold json_object_get.
    destruct (member "filesize" members)
      as [[| | | v | | | |] |] eqn:Hsize;
      try (eexists; eexists; split; [reflexivity |]; split; [reflexivity |];
           cbn [line_format_id line_resolution line_ext line_filesize
                row_format_id row_resolution row_ext row_size];
           split; [destruct (member "format_id" members)
                     as [[| | | | | | |] |]; reflexivity |];
           split; [destruct (member "resolution" members)
                     as [[| | | | | | |] |]; reflexivity |];
           split; [destruct (member "ext" members)
                     as [[| | | | | | |] |]; reflexivity |];
           split; [intros w Hw; discriminate | auto]).
    change (Z.quot INT64_MAX 2) with 4611686018427387903.
    rewrite !Z.gtb_ltb. simpl default.
    destruct (Z.ltb_spec v 0);
      [| destruct (Z.ltb_spec 4611686018427387903 v)];
      cbn [orb]; cbv beta iota zeta;
      destruct (Z.ltb_spec 0 v); try lia;
      (eexists; eexists; split; [reflexivity |]; split; [reflexivity |];
       cbn [line_format_id line_resolution line_ext line_filesize
            row_format_id row_resolution row_ext row_size];
       split; [destruct (member "format_id" members)
                 as [[| | | | | | |] |]; reflexivity |];
       split; [destruct (member "resolution" members)
                 as [[| | | | | | |] |]; reflexivity |];
       split; [destruct (member "ext" members)
                 as [[| | | | | | |] |]; reflexivity |];
       split; [| intros Hno; now destruct (Hno v)];
       intros w [= <-]; simpl;
       repeat split; intros; try discriminate; try lia; try reflexivity).
Qed.

Lemma tables_agree_on_size_zero :
  exists line row,
    display_format_line
      (JObject [("format_id"%string, JString "140");
                ("filesize"%string, JInteger 0)]) = Some line
    /\ draw_format_entry 4 0
         (Some (format_of_json
            (JObject [("format_id"%string, JString "140");
                      ("filesize"%string, JInteger 0)]))) false true
       = Some row
    /\ line_filesize line = Some 0
    /\ row_size row = None.
Proof.
  destruct (proj2 (tables_agree
              (JObject [("format_id"%string, JString "140");
                        ("filesize"%string, JInteger 0)]) 4 0 false true)
              eq_refl)
    as (line & row & Hl & Hr & _ & _ & _ & Hsize & _).
  destruct (Hsize 0 eq_refl) as (Hs1 & _ & _ & Hs4).
  exists line, row. split; [exact Hl |]. split; [exact Hr |].
  split; [apply Hs1; lia | apply Hs4; lia].
Defined.

(** ** Trimming and checking the typed format code *)

Lemma append_cons (a : ascii) (s1 s2 : string) :
  String a s1 +:+ s2 = String a (s1 +:+ s2).
Proof. reflexivity. Qed.

Lemma skip_space_split (str : string) :
  exists lead, str = lead +:+ skip_space str
               /\ string_forallb isspace lead = true.
Proof.
  induction str as [| c r IH].
  - exists EmptyString. auto.
  - simpl. destruct (isspace c) eqn:Hc.
    + destruct IH as (lead & Hr & Hl). exists (String c lead).
      split.
      { rewrite append_cons. f_equal. exact Hr. }
      simpl. rewrite Hc, Hl. reflexivity.
    + exists EmptyString. auto.
Qed.

Lemma skip_space_head (str : string) (c : ascii) :
  String.get 0 (skip_space str) = Some c -> isspace c = false.
Proof.
  induction str as [| a r IH]; simpl; [discriminate |].
  destruct (isspace a) eqn:Ha; [exact IH |].
  simpl. now intros [= <-].
Qed.

Lemma get_in_range (s : string) :
  forall i, (i < String.length s)%nat -> exists c, String.get i s = Some c.
Proof.
  induction s as [| a r IH]; simpl; intros i Hi; [lia |].
  destruct i as [| i]; [eauto |]. apply IH. lia.
Qed.

Lemma substring_all (s : string) :
  forall k, (String.length s <= k)%nat -> substring 0 k s = s.
Proof.
  induction s as [| a r IH]; intros k Hk.
  - destruct k; reflexivity.
  - destruct k as [| k]; simpl in *; [lia |]. f_equal. apply IH. lia.
Qed.

Lemma substring_split (s : string) :
  forall k, (k <= String.length s)%nat ->
  s = substring 0 k s +:+ substring k (String.length s - k) s.
Proof.
  induction s as [| a r IH]; intros k Hk.
  - destruct k; reflexivity.
  - destruct k as [| k].
    + rewrite Nat.sub_0_r.
      rewrite (substring_all (String a r) (String.length (String a r)))
        by lia.
      reflexivity.
    + simpl. rewrite append_cons. f_equal. apply IH. simpl in Hk. lia.
Qed.

Lemma substring_length_prefix (s : string) :
  forall k, (k <= String.length s)%nat ->
  String.length (substring 0 k s) = k.
Proof.
  induction s as [| a r IH]; intros k Hk.
  - destruct k; simpl in *; [reflexivity | lia].
  - destruct k as [| k]; simpl in *; [reflexivity |]. f_equal. apply IH. lia.
Qed.

Lemma string_forallb_get (p : ascii -> bool) (s : string) :
  (forall i c, String.get i s = Some c -> p c = true) ->
  string_forallb p s = true.
Proof.
  induction s as [| a r IH]; intros H; simpl; [reflexivity |].
  rewrite (H 0%nat a eq_refl). simpl. apply IH.
  intros i c Hi. exact (H (S i) c Hi).
Qed.

Lemma trim_end_spec (s : string) :
  forall fuel e,
  e < Z.of_nat (String.length s) -> e <= Z.of_nat fuel ->
  trim_end fuel s e <= e
  /\ (0 <= e -> 0 <= trim_end fuel s e)
  /\ (e < 0 -> trim_end fuel s e = e)
  /\ (forall i, trim_end fuel s e < i <= e ->
        exists c, String.get (Z.to_nat i) s = Some c /\ isspace c = true)
  /\ (0 < trim_end fuel s e ->
        exists c, String.get (Z.to_nat (trim_end fuel s e)) s = Some c
                  /\ isspace c = false).
Proof.
  induction fuel as [| k IH]; intros e Hlen Hfuel.
  - simpl. repeat split; lia.
  - cbn [trim_end]. rewrite Z.gtb_ltb.
    destruct (Z.ltb_spec 0 e) as [Hpos | Hneg]; cbn [andb].
    + destruct (get_in_range s (Z.to_nat e)) as [c Hc]; [lia |].
      rewrite Hc. destruct (isspace c) eqn:Hsp.
      * destruct (IH (e - 1)) as (H1 & H2 & H3 & H4 & H5); [lia | lia |].
        split; [lia |]. split; [lia |]. split; [lia |].
        split; [| exact H5].
        intros i Hi. destruct (Z.eq_dec i e) as [-> | Hne].
        -- exists c. auto.
        -- apply H4. lia.
      * split; [lia |]. split; [lia |]. split; [lia |].
        split; [intros i Hi; lia |]. intros _. exists c. auto.
    + repeat split; lia.
Qed.

(** X22. [trim_whitespace] returns the text between the leading and the
    trailing white space: the argument is the result with white space
    only before and after it, and the result neither starts nor ends
    with a white-space character. Trimming twice changes nothing. *)
Theorem trim_whitespace_spec (str : string) :
  (exists lead trail,
     str = lead +:+ trim_whitespace str +:+ trail
     /\ string_forallb isspace lead = true
     /\ string_forallb isspace trail = true)
  /\ (forall c, String.get 0 (trim_whitespace str) = Some c ->
        isspace c = false)
  /\ (forall c, String.get (String.length (trim_whitespace str) - 1)
                  (trim_whitespace str) = Some c ->
        isspace c = false)
  /\ trim_whitespace (trim_whitespace str) = trim_whitespace str.
Proof.
  assert (Hgen : forall s,
    (exists lead trail,
       s = lead +:+ trim_whitespace s +:+ trail
       /\ string_forallb isspace lead = true
       /\ string_forallb isspace trail = true)
    /\ (forall c, String.get 0 (trim_whitespace s) = Some c ->
          isspace c = false)
    /\ (forall c, String.get (String.length (trim_whitespace s) - 1)
                    (trim_whitespace s) = Some c ->
          isspace c = false)).
  { intros s. unfold trim_whitespace.
    destruct (skip_space_split s) as (lead & Hs & Hlead).
    pose proof (skip_space_head s) as Hhead.
    set (start := skip_space s) in *.
    set (n := String.length start).
    destruct (trim_end_spec start n (Z.of_nat n - 1))
      as (H1 & H2 & H3 & H4 & H5); [lia | lia |].
    set (e := trim_end n start (Z.of_nat n - 1)) in *.
    assert (Hk : (Z.to_nat (e + 1) <= n)%nat) by lia.
    assert (Hlenr : String.length (substring 0 (Z.to_nat (e + 1)) start)
                    = Z.to_nat (e + 1))
      by (apply substring_length_prefix; exact Hk).
    split; [| split].
    - exists lead, (substring (Z.to_nat (e + 1)) (n - Z.to_nat (e + 1)) start).
      split; [| split; [exact Hlead |]].
      + rewrite Hs at 1. f_equal. apply substring_split. exact Hk.
      + apply string_forallb_get. intros i c Hi.
        destruct (Nat.lt_ge_cases i (n - Z.to_nat (e + 1))) as [Hlt | Hge].
        * rewrite substring_correct1 in Hi by exact Hlt.
          destruct (H4 (Z.of_nat i + (e + 1))) as (c' & Hc' & Hsp).
          { destruct (Z.lt_ge_cases e 0); lia. }
          replace (Z.to_nat (Z.of_nat i + (e + 1)))
            with (i + Z.to_nat (e + 1))%nat in Hc'
            by (destruct (Z.lt_ge_cases e 0); lia).
          congruence.
        * rewrite substring_correct2 in Hi by exact Hge. discriminate.
    - intros c Hc.
      destruct (Z.to_nat (e + 1)) as [| m] eqn:Hm.
      + destruct start; discriminate.
      + rewrite substring_correct1 in Hc by lia. apply Hhead. exact Hc.
    - intros c Hc. rewrite Hlenr in Hc.
      destruct (Z.to_nat (e + 1)) as [| m] eqn:Hm.
      + destruct start; discriminate.
      + rewrite substring_correct1 in Hc by lia.
        replace (S m - 1 + 0)%nat with (Z.to_nat e) in Hc by lia.
        destruct (Z.lt_ge_cases 0 e) as [Hpos | Hzero].
        * destruct (H5 Hpos) as (c' & Hc' & Hsp). congruence.
        * replace (Z.to_nat e) with 0%nat in Hc by lia.
          apply Hhead. exact Hc. }
  destruct (Hgen str) as (Hsplit & Hfirst & Hlast).
  split; [exact Hsplit |]. split; [exact Hfirst |]. split; [exact Hlast |].
  set (t := trim_whitespace str) in *.
  unfold trim_whitespace at 1.
  assert (Hskip : skip_space t = t).
  { destruct t as [| a r]; [reflexivity |]. simpl.
    rewrite (Hfirst a eq_refl). reflexivity. }
  rewrite Hskip.
  assert (He : trim_end (String.length t) t (Z.of_nat (String.length t) - 1)
               = Z.of_nat (String.length t) - 1).
  { destruct (String.length t) as [| m] eqn:Hm; [reflexivity |].
    cbn [trim_end]. rewrite Z.gtb_ltb.
    destruct (Z.ltb_spec 0 (Z.of_nat (S m) - 1)); cbn [andb]; [| reflexivity].
    replace (Z.to_nat (Z.of_nat (S m) - 1)) with (S m - 1)%nat by lia.
    destruct (get_in_range t (S m - 1)) as [c Hc]; [lia |].
    rewrite Hc. rewrite (Hlast c Hc). reflexivity. }
  rewrite He. apply substring_all. lia.
Qed.

Lemma trim_whitespace_spec_on_padded_text :
  trim_whitespace "  best video  " = "best video"%string
  /\ trim_whitespace (trim_whitespace "  best video  ")
     = trim_whitespace "  best video  ".
Proof.
  split; [reflexivity |].
  exact (proj2 (proj2 (proj2 (trim_whitespace_spec "  best video  ")))).
Defined.

Lemma format_code_loop_spec (s : string) :
  (format_code_loop s = 0 \/ format_code_loop s = -1)
  /\ (format_code_loop s = 0 <-> string_forallb format_code_char s = true).
Proof.
  induction s as [| c r [IH1 IH2]]; simpl.
  - split; [auto | tauto].
  - unfold format_code_char at 1.
    destruct (isalnum c), (Ascii.eqb c "-"), (Ascii.eqb c "_"),
      (Ascii.eqb c "."); simpl; try (split; assumption).
    split; [auto |]. split; discriminate.
Qed.

Lemma length_zero_empty (s : string) :
  String.length s = 0%nat -> s = EmptyString.
Proof. destruct s; [reflexivity | discriminate]. Qed.

(** X23. [prompt_for_format] returns a format code exactly when the
    buffer holds a whole line whose text, cut at the newline and
    trimmed, is shorter than [FORMAT_CODE_LENGTH] and consists of
    letters, digits, hyphens, underscores and dots only; the code
    returned is that trimmed text, unshortened. A blank line gives the
    empty code. *)
Theorem prompt_for_format_spec (FORMAT_CODE_LENGTH : Z)
    (line : option string) (at_eof : bool) (code : string) :
  0 < FORMAT_CODE_LENGTH ->
  prompt_for_format FORMAT_CODE_LENGTH line at_eof = Some code
  <-> exists buf,
        line = Some buf
        /\ complete_line buf at_eof
        /\ code = trim_whitespace (substring 0 (strcspn_newline buf) buf)
        /\ Z.of_nat (String.length code) < FORMAT_CODE_LENGTH
        /\ string_forallb format_code_char code = true.
Proof.
  intros Hpos. unfold prompt_for_format, complete_line. split.
  - destruct line as [buf |]; [| discriminate].
    set (t := trim_whitespace (substring 0 (strcspn_newline buf) buf)).
    destruct (_ && _ && _) eqn:Hcut; [discriminate |].
    unfold validate_format_code.
    destruct (Z.eqb_spec (Z.of_nat (String.length t)) 0) as [Hz | Hnz].
    + simpl. intros [= <-]. exists buf. split; [reflexivity |].
      assert (Ht : t = EmptyString) by (apply length_zero_empty; lia).
      rewrite substring_all by lia.
      split; [| split; [reflexivity | rewrite Ht; simpl; split; [lia | reflexivity]]].
      clear - Hcut. rewrite Z.gtb_ltb in Hcut.
      destruct (Z.ltb_spec 0 (Z.of_nat (String.length buf))) as [Hlen | Hlen].
      * destruct (get_in_range buf (String.length buf - 1)) as [c Hc]; [lia |].
        rewrite Hc in Hcut |- *. simpl in Hcut.
        destruct (Ascii.eqb c "010") eqn:E.
        -- apply Ascii.eqb_eq in E. rewrite E. auto.
        -- destruct at_eof; [auto | discriminate].
      * left. apply length_zero_empty. lia.
    + rewrite Z.geb_leb.
      destruct (Z.leb_spec FORMAT_CODE_LENGTH (Z.of_nat (String.length t)))
        as [Hlong | Hshort]; [discriminate |].
      destruct (format_code_loop_spec t) as ([Hl | Hl] & Hiff); rewrite Hl;
        [| discriminate].
      simpl. intros [= <-]. exists buf. split; [reflexivity |].
      rewrite substring_all by lia.
      split; [| split; [reflexivity | split; [lia | now apply Hiff]]].
      clear - Hcut. rewrite Z.gtb_ltb in Hcut.
      destruct (Z.ltb_spec 0 (Z.of_nat (String.length buf))) as [Hlen | Hlen].
      * destruct (get_in_range buf (String.length buf - 1)) as [c Hc]; [lia |].
        rewrite Hc in Hcut |- *. simpl in Hcut.
        destruct (Ascii.eqb c "010") eqn:E.
        -- apply Ascii.eqb_eq in E. rewrite E. auto.
        -- destruct at_eof; [auto | discriminate].
      * left. apply length_zero_empty. lia.
  - intros (buf & -> & Hline & -> & Hlen & Hchars).
    set (t := trim_whitespace (substring 0 (strcspn_newline buf) buf)) in *.
    assert (Hcut : (Z.of_nat (String.length buf) >? 0)
                   && match String.get (String.length buf - 1) buf with
                      | Some c => negb (Ascii.eqb c "010")
                      | None => false
                      end
                   && negb at_eof = false).
    { destruct Hline as [-> | [-> | ->]].
      - reflexivity.
      - simpl. now rewrite andb_false_r.
      - now rewrite andb_false_r. }
    rewrite Hcut. unfold validate_format_code.
    rewrite substring_all by lia.
    destruct (Z.eqb_spec (Z.of_nat (String.length t)) 0); [reflexivity |].
    rewrite Z.geb_leb.
    destruct (Z.leb_spec FORMAT_CODE_LENGTH (Z.of_nat (String.length t)));
      [lia |].
    rewrite (proj2 (proj2 (format_code_loop_spec t)) Hchars). reflexivity.
Qed.

Lemma prompt_for_format_spec_on_137 :
  prompt_for_format 32 (Some (typed_line "  137 ")) false
  = Some "137"%string.
Proof.
  apply (proj2 (prompt_for_format_spec 32 (Some (typed_line "  137 ")) false
                  "137" ltac:(lia))).
  exists (typed_line "  137 ").
  split; [reflexivity |]. split; [right; left; reflexivity |].
  split; [reflexivity |]. split; [simpl; lia | reflexivity].
Defined.

(** A code with a character outside the set is refused, and so is a
    line that did not fit the buffer. *)
Example prompt_for_format_refuses :
  prompt_for_format 32 (Some (typed_line "137; rm")) false = None
  /\ prompt_for_format 32 (Some "137"%string) false = None
  /\ prompt_for_format 32 (Some "137"%string) true = Some "137"%string
  /\ prompt_for_format 32 (Some (typed_line "   ")) false
     = Some EmptyString.
Proof. repeat split. Qed.

(** ** Escape sequences of the arrow and page keys *)

Lemma escape_bracket_step (st : UIState) (ls : FormatListState) (g g1 : Z)
    (tail : input) :
  steady st -> g1 <= 100 ->
  select_step st ls (Pending g 27 :: Pending g1 (chr "[") :: tail)
  = match wgetch 100 tail with
    | None => Blocked (set_content_delay 100 st) ls
    | Some (third_ch, rest2) =>
        match escape_bracket (set_content_delay 100 st) ls third_ch rest2 with
        | None => Blocked (set_content_delay 100 st) ls
        | Some (ls', rest3) => Continue st ls' rest3
        end
    end.
Proof.
  intros Hst H1. rewrite (select_step_escape st ls g _ Hst).
  unfold escape_key. simpl content_delay.
  rewrite (wgetch_in_time g1 _ _ H1).
  codes. decide_tests.
  rewrite (set_content_delay_restore st 100 (proj2 Hst)). reflexivity.
Qed.

(** X24. The raw sequences a terminal sends for the arrow and page
    keys, each code arriving within 100 ms of the one before. In the
    steady state [ESC [ B] does what [KEY_DOWN] does, [ESC [ 5 ~] what
    [KEY_PPAGE] does and [ESC [ 6 ~] what [KEY_NPAGE] does; [ESC [ C]
    and [ESC [ D] leave the list alone; after [ESC [ 5] or [ESC [ 6] a
    code other than ['~'] is read and dropped. When the code after
    [ESC [] comes later than 100 ms, the sequence ends without effect
    and that code stays pending for the next pass of the loop. *)
Theorem escape_sequences (st : UIState) (ls : FormatListState)
    (g g1 g2 : Z) (rest : input) :
  steady st -> g1 <= 100 ->
  let sequence tail :=
    select_step st ls (Pending g 27 :: Pending g1 (chr "[") :: tail) in
  (g2 <= 100 ->
     sequence (Pending g2 (chr "B") :: rest)
     = select_step st ls (Pending g KEY_DOWN :: rest)
     /\ sequence (Pending g2 (chr "B") :: rest)
        = Continue st (arrow_down st ls) rest
     /\ sequence (Pending g2 (chr "C") :: rest) = Continue st ls rest
     /\ sequence (Pending g2 (chr "D") :: rest) = Continue st ls rest
     /\ (forall g3, g3 <= 100 ->
           sequence (Pending g2 (chr "5") :: Pending g3 (chr "~") :: rest)
           = select_step st ls (Pending g KEY_PPAGE :: rest)
           /\ sequence (Pending g2 (chr "5") :: Pending g3 (chr "~") :: rest)
              = Continue st (page_up st ls) rest
           /\ sequence (Pending g2 (chr "6") :: Pending g3 (chr "~") :: rest)
              = select_step st ls (Pending g KEY_NPAGE :: rest)
           /\ sequence (Pending g2 (chr "6") :: Pending g3 (chr "~") :: rest)
              = Continue st (page_down st ls) rest)
     /\ (forall g3 c, g3 <= 100 -> c <> chr "~" ->
           sequence (Pending g2 (chr "5") :: Pending g3 c :: rest)
           = Continue st ls rest
           /\ sequence (Pending g2 (chr "6") :: Pending g3 c :: rest)
              = Continue st ls rest))
  /\ (100 < g2 -> forall c,
        sequence (Pending g2 c :: rest)
        = Continue st ls (Pending (g2 - 100) c :: rest)).
Proof.
  intros Hst H1 sequence. subst sequence. cbv beta.
  pose proof Hst as [Hr Hd].
  assert (Hkey : forall ch, wgetch (content_delay (ui_handle_resize st))
                              (Pending g ch :: rest) = Some (ch, rest)
                            /\ ui_handle_resize st = st).
  { intros ch. rewrite (ui_handle_resize_none st Hr), Hd. auto. }
  split.
  - intros H2.
    assert (Hdown : select_step st ls (Pending g KEY_DOWN :: rest)
                    = Continue st (arrow_down st ls) rest).
    { unfold select_step. destruct (Hkey KEY_DOWN) as [-> ->]. reflexivity. }
    assert (Hpp : select_step st ls (Pending g KEY_PPAGE :: rest)
                  = Continue st (page_up st ls) rest).
    { unfold select_step. destruct (Hkey KEY_PPAGE) as [-> ->]. reflexivity. }
    assert (Hnp : select_step st ls (Pending g KEY_NPAGE :: rest)
                  = Continue st (page_down st ls) rest).
    { unfold select_step. destruct (Hkey KEY_NPAGE) as [-> ->]. reflexivity. }
    rewrite Hdown, Hpp, Hnp.
    rewrite !(escape_bracket_step st ls g g1 _ Hst H1).
    rewrite !(wgetch_in_time g2 _ _ H2).
    split; [reflexivity |]. split; [reflexivity |].
    split; [reflexivity |]. split; [reflexivity |].
    split.
    + intros g3 H3.
      rewrite !(escape_bracket_step st ls g g1 _ Hst H1).
      rewrite !(wgetch_in_time g2 _ _ H2).
      unfold escape_bracket. simpl content_delay.
      rewrite !(wgetch_in_time g3 _ _ H3). auto.
    + intros g3 c H3 Hc.
      rewrite !(escape_bracket_step st ls g g1 _ Hst H1).
      rewrite !(wgetch_in_time g2 _ _ H2).
      unfold escape_bracket. simpl content_delay.
      rewrite !(wgetch_in_time g3 _ _ H3).
      codes. decide_tests. auto.
  - intros H2 c.
    rewrite (escape_bracket_step st ls g g1 _ Hst H1).
    rewrite (wgetch_timeout g2 _ _ H2).
    reflexivity.
Qed.

Lemma escape_sequences_page_down :
  select_step demo_ui (demo_list 1)
    (typed [27; chr "["; chr "6"; chr "~"])
  = Continue demo_ui (page_down demo_ui (demo_list 1)) [].
Proof.
  destruct (escape_sequences demo_ui (demo_list 1) 0 0 0 []
              (conj eq_refl eq_refl) ltac:(lia)) as [Hseq _].
  destruct (Hseq ltac:(lia)) as (_ & _ & _ & _ & Hpage & _).
  destruct (Hpage 0 ltac:(lia)) as (_ & _ & _ & Hdown).
  exact Hdown.
Defined.

(** On a slow line the final ['A'] of the Up sequence is read as a key
    of its own, the shortcut that selects the first audio format: from
    entry 1 the selection jumps to entry 3 instead of moving up. *)
Example slow_up_arrow_selects_audio :
  let s := ui_select_format_interactive demo_ui (demo_list 1)
             [Pending 0 27; Pending 0 (chr "["); Pending 150 (chr "A")] in
  sel_outcome s = Waiting /\ selected_index (sel_list s) = 3.
Proof. vm_compute. auto. Qed.

(** ** There and back *)

Section RoundTrip.

Variable h : Z.
Variable st : UIState.
Variable ls : FormatListState.
Hypothesis height : 5 <= h.
Hypothesis ui : ui_ok h st.
Hypothesis inv : list_ok h ls.

Lemma arrow_down_index :
  selected_index ls < total_formats ls - 1 ->
  selected_index (arrow_down st ls) = selected_index ls + 1
  /\ total_formats (arrow_down st ls) = total_formats ls.
Proof.
  intros Hlt. pose proof (list_ok_total h ls height inv) as Ht.
  pose proof inv as (_ & _ & [_ Hsel] & _).
  unfold arrow_down.
  rewrite (int_sub_exact (total_formats ls) 1) by (codes; lia).
  destruct (Z.ltb_spec (selected_index ls) (total_formats ls - 1)); [| lia].
  destruct (update_format_display_frame st
              (set_selected_index (int_add (selected_index ls) 1) ls))
    as (-> & -> & _).
  simpl. split; [apply int_add_exact; codes; lia | reflexivity].
Qed.

Lemma arrow_up_index :
  0 < selected_index ls ->
  selected_index (arrow_up st ls) = selected_index ls - 1
  /\ total_formats (arrow_up st ls) = total_formats ls.
Proof.
  intros Hpos. pose proof (list_ok_total h ls height inv) as Ht.
  pose proof inv as (_ & _ & [_ Hsel] & _).
  unfold arrow_up. rewrite Z.gtb_ltb.
  destruct (Z.ltb_spec 0 (selected_index ls)); [| lia].
  destruct (update_format_display_frame st
              (set_selected_index (int_sub (selected_index ls) 1) ls))
    as (-> & -> & _).
  simpl. split; [apply int_sub_exact; codes; lia | reflexivity].
Qed.

Lemma page_down_index :
  selected_index ls + (h - 4) <= total_formats ls - 1 ->
  selected_index (page_down st ls) = selected_index ls + (h - 4)
  /\ total_formats (page_down st ls) = total_formats ls.
Proof.
  intros Hfit. pose proof (list_ok_total h ls height inv) as Ht.
  pose proof inv as (Hvl & _ & [_ Hsel] & Hmax).
  unfold page_down.
  match goal with
  | |- context [update_format_display st ?l] =>
      destruct (update_format_display_frame st l) as (-> & -> & _)
  end.
  simpl. rewrite Hvl, int_add_exact by (codes; lia).
  rewrite Z.geb_leb.
  destruct (Z.leb_spec (total_formats ls) (selected_index ls + (h - 4)));
    [lia | auto].
Qed.

Lemma page_up_index :
  h - 4 <= selected_index ls ->
  selected_index (page_up st ls) = selected_index ls - (h - 4)
  /\ total_formats (page_up st ls) = total_formats ls.
Proof.
  intros Hfit. pose proof (list_ok_total h ls height inv) as Ht.
  pose proof inv as (Hvl & _ & [_ Hsel] & Hmax).
  unfold page_up.
  match goal with
  | |- context [update_format_display st ?l] =>
      destruct (update_format_display_frame st l) as (-> & -> & _)
  end.
  simpl. rewrite Hvl, int_sub_exact by (codes; lia).
  destruct (Z.ltb_spec (selected_index ls - (h - 4)) 0); [lia | auto].
Qed.

End RoundTrip.

(** X25. Moving away and back. In a content window of at least 5 rows,
    with the list invariant: Down followed by Up returns to the entry
    it started from unless that entry is the last one, Up followed by
    Down unless it is the first one; Page Down followed by Page Up
    returns to it when a whole page fits below it, Page Up followed by
    Page Down when a whole page fits above it. At the last entry Down
    does nothing, so Down followed by Up ends one entry higher. *)
Theorem navigation_round_trips (h : Z) (st : UIState) (ls : FormatListState) :
  5 <= h -> ui_ok h st -> list_ok h ls ->
  (selected_index ls < total_formats ls - 1 ->
   selected_index (arrow_up st (arrow_down st ls)) = selected_index ls)
  /\ (0 < selected_index ls ->
      selected_index (arrow_down st (arrow_up st ls)) = selected_index ls)
  /\ (selected_index ls + visible_lines ls <= total_formats ls - 1 ->
      selected_index (page_up st (page_down st ls)) = selected_index ls)
  /\ (visible_lines ls <= selected_index ls ->
      selected_index (page_down st (page_up st ls)) = selected_index ls)
  /\ (selected_index ls = total_formats ls - 1 -> 0 < selected_index ls ->
      selected_index (arrow_up st (arrow_down st ls))
      = selected_index ls - 1).
Proof.
  intros Hh Hui Hls.
  pose proof Hls as (Hvl & _ & [_ Hsel] & _).
  pose proof (arrow_down_ok h st ls Hh Hui Hls) as Hdown.
  pose proof (arrow_up_ok h st ls Hh Hui Hls) as Hup.
  pose proof (page_down_ok h st ls Hh Hui Hls) as Hpd.
  pose proof (page_up_ok h st ls Hh Hui Hls) as Hpu.
  rewrite Hvl.
  split; [| split; [| split; [| split]]].
  - intros Hlt.
    destruct (arrow_down_index h st ls Hh Hls Hlt) as [Hs Ht].
    destruct (arrow_up_index h st _ Hh Hdown) as [Hs' _]; lia.
  - intros Hpos.
    destruct (arrow_up_index h st ls Hh Hls Hpos) as [Hs Ht].
    destruct (arrow_down_index h st _ Hh Hup) as [Hs' _]; lia.
  - intros Hfit.
    destruct (page_down_index h st ls Hh Hls Hfit) as [Hs Ht].
    destruct (page_up_index h st _ Hh Hpd) as [Hs' _]; lia.
  - intros Hfit.
    destruct (page_up_index h st ls Hh Hls Hfit) as [Hs Ht].
    destruct (page_down_index h st _ Hh Hpu) as [Hs' _]; lia.
  - intros Hlast Hpos.
    assert (Hsame : arrow_down st ls = ls).
    { unfold arrow_down.
      pose proof (list_ok_total h ls Hh Hls) as Ht.
      rewrite (int_sub_exact (total_formats ls) 1) by (codes; lia).
      destruct (Z.ltb_spec (selected_index ls) (total_formats ls - 1));
        [lia | reflexivity]. }
    rewrite Hsame.
    destruct (arrow_up_index h st ls Hh Hls Hpos) as [Hs _]. exact Hs.
Qed.

Lemma navigation_round_trips_on_fifteen :
  let ls := set_selected_index 2
              (initial_list (ui_for_terminal 19 80) fifteen_formats) in
  selected_index
    (arrow_up (ui_for_terminal 19 80) (arrow_down (ui_for_terminal 19 80) ls))
  = 2
  /\ selected_index
       (page_up (ui_for_terminal 19 80)
          (page_down (ui_for_terminal 19 80) ls)) = 2.
Proof.
  assert (Hok : list_ok 14
                  (set_selected_index 2
                     (initial_list (ui_for_terminal 19 80) fifteen_formats)))
    by (vm_compute; repeat split; discriminate).
  destruct (navigation_round_trips 14 (ui_for_terminal 19 80) _
              ltac:(lia) (conj eq_refl eq_refl) Hok)
    as (Hdu & _ & Hpp & _).
  split.
  - apply Hdu. vm_compute. reflexivity.
  - apply Hpp. vm_compute. discriminate.
Defined.

(** ** The URL handed to yt-dlp *)

Lemma strncmp_eq_prefix (p : string) :
  forall u, strncmp_eq u p (String.length p) = String.prefix p u.
Proof.
  induction p as [| y p IH]; intros u; simpl.
  - destruct u; reflexivity.
  - destruct u as [| x u]; [reflexivity |]. simpl.
    rewrite IH. rewrite Ascii.eqb_sym.
    destruct (Ascii.eqb_spec y x) as [-> | Hne].
    + destruct (ascii_dec x x); [reflexivity | contradiction].
    + destruct (ascii_dec y x); [contradiction | reflexivity].
Qed.

Lemma url_loop_spec (u : string) :
  (url_loop u = 0 \/ url_loop u = -1)
  /\ (url_loop u = 0 <-> string_forallb url_char u = true).
Proof.
  induction u as [| c r [IH1 IH2]]; simpl.
  - split; [auto | tauto].
  - unfold url_char at 1.
    destruct (isalnum c); [simpl; split; assumption |].
    repeat match goal with
    | |- context [Ascii.eqb c ?k] =>
        destruct (Ascii.eqb c k); [simpl; split; assumption |]
    end.
    simpl. split; [auto |]. split; discriminate.
Qed.

Lemma prefix_head (y : ascii) (p u : string) :
  String.prefix (String y p) u = true -> String.get 0 u = Some y.
Proof.
  destruct u as [| x u]; cbn [String.prefix String.get]; [discriminate |].
  destruct (ascii_dec y x) as [-> |]; [reflexivity | discriminate].
Qed.

Lemma validate_url_spec (MAX_URL_LENGTH : Z) (u : string) :
  validate_url MAX_URL_LENGTH (Some u) = 0
  <-> Z.of_nat (String.length u) < MAX_URL_LENGTH
      /\ (String.prefix "http://" u = true \/ String.prefix "https://" u = true)
      /\ string_forallb url_char u = true.
Proof.
  unfold validate_url.
  change 7%nat with (String.length "http://").
  change 8%nat with (String.length "https://").
  rewrite !strncmp_eq_prefix.
  assert (Hlen : forall p, String.prefix p u = true ->
                   (String.length p <= String.length u)%nat).
  { intros p. revert u. induction p as [| y p IH]; intros u Hp; simpl.
    - lia.
    - destruct u as [| x u]; [discriminate |]. simpl in Hp.
      destruct (ascii_dec y x); [| discriminate].
      apply IH in Hp. simpl. lia. }
  rewrite Z.geb_leb.
  destruct (Z.eqb_spec (Z.of_nat (String.length u)) 0) as [Hz | Hnz].
  { split; [discriminate |]. intros (_ & [Hp | Hp] & _);
      apply Hlen in Hp; simpl in Hp; lia. }
  destruct (Z.leb_spec MAX_URL_LENGTH (Z.of_nat (String.length u)));
    [split; [discriminate | lia] |].
  destruct (Z.ltb_spec (Z.of_nat (String.length u)) 7) as [Hshort | Hlong];
    cbn [orb].
  { split; [discriminate |]. intros (_ & [Hp | Hp] & _);
      apply Hlen in Hp; simpl in Hp; lia. }
  destruct (url_loop_spec u) as [Hcases Hiff].
  destruct (String.prefix "http://" u), (String.prefix "https://" u); simpl;
    try (rewrite Hiff; intuition auto; fail).
  split; [discriminate |]. intros (_ & [Hp | Hp] & _); discriminate.
Qed.

(** X26. [get_video_info] runs yt-dlp only on a URL that passed
    [validate_url], and then with the arguments [-j] and the URL: the
    URL is shorter than [MAX_URL_LENGTH], starts with ["http://"] or
    ["https://"] (so it cannot be taken for an option), and consists of
    letters, digits and the characters [/ : . - _ ? = & % + #] only, so
    it holds no white space and no quote. For any other argument the
    result is NULL whatever the command would print. *)
Theorem get_video_info_runs_on_valid_url (MAX_URL_LENGTH : Z)
    (exec : string -> list string -> option string) (url : option string) :
  (forall out, get_video_info MAX_URL_LENGTH exec url = Some out ->
     exists u,
       url = Some u
       /\ exec "yt-dlp"%string ["yt-dlp"; "-j"; u]%string = Some out
       /\ Z.of_nat (String.length u) < MAX_URL_LENGTH
       /\ (String.prefix "http://" u = true \/ String.prefix "https://" u = true)
       /\ string_forallb url_char u = true
       /\ String.get 0 u = Some "h"%char)
  /\ (forall u, url = Some u ->
        Z.of_nat (String.length u) < MAX_URL_LENGTH ->
        String.prefix "http://" u = true \/ String.prefix "https://" u = true ->
        string_forallb url_char u = true ->
        get_video_info MAX_URL_LENGTH exec url
        = exec "yt-dlp"%string ["yt-dlp"; "-j"; u]%string)
  /\ (validate_url MAX_URL_LENGTH url <> 0 ->
      get_video_info MAX_URL_LENGTH exec url = None).
Proof.
  unfold get_video_info. split; [| split].
  - intros out.
    destruct (Z.eqb_spec (validate_url MAX_URL_LENGTH url) 0) as [Hv | Hv];
      simpl; [| discriminate].
    destruct url as [u |]; [| discriminate].
    intros Hout. apply validate_url_spec in Hv as (Hlen & Hp & Hc).
    exists u. repeat split; try assumption.
    destruct Hp as [Hp | Hp]; exact (prefix_head _ _ _ Hp).
  - intros u -> Hlen Hp Hc.
    rewrite (proj2 (validate_url_spec MAX_URL_LENGTH u)) by auto.
    reflexivity.
  - intros Hv.
    destruct (Z.eqb_spec (validate_url MAX_URL_LENGTH url) 0);
      [contradiction | reflexivity].
Qed.

Lemma get_video_info_runs_on_valid_url_example :
  get_video_info 2048 (fun _ argv => Some (String.concat " " argv))
    (Some "https://youtu.be/x?v=1"%string)
  = Some "yt-dlp -j https://youtu.be/x?v=1"%string.
Proof.
  apply (proj1 (proj2 (get_video_info_runs_on_valid_url 2048
                          (fun _ argv => Some (String.concat " " argv))
                          (Some "https://youtu.be/x?v=1"%string)))
           "https://youtu.be/x?v=1"%string eq_refl).
  - simpl. lia.
  - right. reflexivity.
  - reflexivity.
Defined.

(** An option-like argument and a URL with a space are refused before
    any command is run. *)
Example get_video_info_refuses :
  forall exec,
  get_video_info 2048 exec (Some "--exec=id"%string) = None
  /\ get_video_info 2048 exec (Some "https://a.b/c d"%string) = None
  /\ get_video_info 2048 exec (Some "https:/"%string) = None.
Proof. intros exec. repeat split. Qed.
